(** * Hybrid chain/quorum replication: a shallow embedding of the coordinators

    The development follows the C++ sources of the replicated key-value
    store: the message envelope and its wire codec ([Msg]), the local store
    of a node ([NodeM]), the chain coordinator ([Chain]), the quorum
    coordinator ([Quorum]), the hybrid dispatcher ([Hybrid], with its
    membership calls in [HybridMore]), the metrics pipeline ([Metrics]),
    the peer directory and send path of the network manager ([Network])
    and the cluster list of a node ([Cluster]).

    Conventions.
    - Fixed-width unsigned integers are [Z] values; every place where the
      C++ arithmetic can wrap applies [wrap32] or [wrap64] explicitly.
    - [std::unordered_map] is a [gmap], [std::unordered_set] a [gset],
      [std::vector] a [list].
    - Code that runs under a mutex is one atomic step.  A polling loop is
      driven by a schedule: the list of handler calls that other threads
      make between two consecutive polls.
    - [double] values that are ratios of counters are exact rationals [Q];
      the comparisons against the literals 0.8 and 0.95 are made on them.
    - Clock reads are arguments of the functions that perform them. *)

From Stdlib Require Import ZArith QArith String Ascii List Lia.
From stdpp Require Import gmap strings list.

Local Open Scope Z_scope.

(** ** Machine integers *)

Definition wrap32 (z : Z) : Z := z mod 2 ^ 32.
Definition wrap64 (z : Z) : Z := z mod 2 ^ 64.

Definition INT_MIN : Z := - 2 ^ 31.
Definition INT_MAX : Z := 2 ^ 31 - 1.
Definition ULONG_MAX : Z := 2 ^ 64 - 1.

(** [size()] of a vector, as a [size_t]. *)
Definition vsize {A} (l : list A) : Z := Z.of_nat (length l).

(** ** The message envelope (include/core/message.h, src/core/message.cpp) *)

Module Msg.

(** The enumerators of [MessageType], in declaration order.  The chain
    coordinator also uses [CHAIN_FORWARD] and [CHAIN_ACK], which continue
    the numbering.  An [enum class] can hold any value of its underlying
    type [int]; [OTHER_TYPE] stands for the values that name no
    enumerator. *)
Inductive MessageType :=
  | READ_REQUEST | READ_RESPONSE | WRITE_REQUEST | WRITE_RESPONSE
  | HEARTBEAT | NODE_FAILURE | NODE_RECOVERY | CHAIN_UPDATE
  | QUORUM_PREPARE | QUORUM_PROMISE | QUORUM_ACCEPT | QUORUM_ACCEPTED
  | QUORUM_COMMIT | QUORUM_ABORT | MODE_SWITCH | CACHE_UPDATE
  | BATCH_REQUEST | BATCH_RESPONSE | CHAIN_FORWARD | CHAIN_ACK
  | OTHER_TYPE (code : Z).

(** [static_cast<int>(type)] *)
Definition int_of_type (t : MessageType) : Z :=
  match t with
  | READ_REQUEST => 0 | READ_RESPONSE => 1 | WRITE_REQUEST => 2
  | WRITE_RESPONSE => 3 | HEARTBEAT => 4 | NODE_FAILURE => 5
  | NODE_RECOVERY => 6 | CHAIN_UPDATE => 7 | QUORUM_PREPARE => 8
  | QUORUM_PROMISE => 9 | QUORUM_ACCEPT => 10 | QUORUM_ACCEPTED => 11
  | QUORUM_COMMIT => 12 | QUORUM_ABORT => 13 | MODE_SWITCH => 14
  | CACHE_UPDATE => 15 | BATCH_REQUEST => 16 | BATCH_RESPONSE => 17
  | CHAIN_FORWARD => 18 | CHAIN_ACK => 19
  | OTHER_TYPE code => code
  end.

(** [static_cast<MessageType>(i)] *)
Definition type_of_int (i : Z) : MessageType :=
  match i with
  | 0 => READ_REQUEST | 1 => READ_RESPONSE | 2 => WRITE_REQUEST
  | 3 => WRITE_RESPONSE | 4 => HEARTBEAT | 5 => NODE_FAILURE
  | 6 => NODE_RECOVERY | 7 => CHAIN_UPDATE | 8 => QUORUM_PREPARE
  | 9 => QUORUM_PROMISE | 10 => QUORUM_ACCEPT | 11 => QUORUM_ACCEPTED
  | 12 => QUORUM_COMMIT | 13 => QUORUM_ABORT | 14 => MODE_SWITCH
  | 15 => CACHE_UPDATE | 16 => BATCH_REQUEST | 17 => BATCH_RESPONSE
  | 18 => CHAIN_FORWARD | 19 => CHAIN_ACK
  | _ => OTHER_TYPE i
  end.

Definition type_eqb (a b : MessageType) : bool :=
  int_of_type a =? int_of_type b.

(** [ReplicationMode]; the coordinators name the third mode HYBRID_AUTO. *)
Inductive ReplicationMode := CHAIN_ONLY | QUORUM_ONLY | HYBRID_AUTO.

Definition mode_eqb (a b : ReplicationMode) : bool :=
  match a, b with
  | CHAIN_ONLY, CHAIN_ONLY | QUORUM_ONLY, QUORUM_ONLY
  | HYBRID_AUTO, HYBRID_AUTO => true
  | _, _ => false
  end.

Record Message := mkMessage {
  type : MessageType;
  sender_id : Z;            (* uint32_t *)
  receiver_id : Z;          (* uint32_t *)
  key : string;
  value : string;
  success : bool;
  timestamp : Z;            (* uint64_t *)
  sequence_number : Z;      (* uint32_t *)
  correlation_id : string;
  target_nodes : list Z;    (* std::vector<uint32_t> *)
  metadata : string
}.

(** The default constructor. *)
Definition new_message : Message := {|
  type := READ_REQUEST; sender_id := 0; receiver_id := 0;
  key := ""; value := ""; success := false; timestamp := 0;
  sequence_number := 0; correlation_id := ""; target_nodes := [];
  metadata := "" |}.

Definition set_type (t : MessageType) (m : Message) : Message :=
  mkMessage t (sender_id m) (receiver_id m) (key m) (value m) (success m)
    (timestamp m) (sequence_number m) (correlation_id m) (target_nodes m)
    (metadata m).
Definition set_sender_id (x : Z) (m : Message) : Message :=
  mkMessage (type m) x (receiver_id m) (key m) (value m) (success m)
    (timestamp m) (sequence_number m) (correlation_id m) (target_nodes m)
    (metadata m).
Definition set_receiver_id (x : Z) (m : Message) : Message :=
  mkMessage (type m) (sender_id m) x (key m) (value m) (success m)
    (timestamp m) (sequence_number m) (correlation_id m) (target_nodes m)
    (metadata m).
Definition set_key (x : string) (m : Message) : Message :=
  mkMessage (type m) (sender_id m) (receiver_id m) x (value m) (success m)
    (timestamp m) (sequence_number m) (correlation_id m) (target_nodes m)
    (metadata m).
Definition set_value (x : string) (m : Message) : Message :=
  mkMessage (type m) (sender_id m) (receiver_id m) (key m) x (success m)
    (timestamp m) (sequence_number m) (correlation_id m) (target_nodes m)
    (metadata m).
Definition set_success (x : bool) (m : Message) : Message :=
  mkMessage (type m) (sender_id m) (receiver_id m) (key m) (value m) x
    (timestamp m) (sequence_number m) (correlation_id m) (target_nodes m)
    (metadata m).
Definition set_timestamp (x : Z) (m : Message) : Message :=
  mkMessage (type m) (sender_id m) (receiver_id m) (key m) (value m)
    (success m) x (sequence_number m) (correlation_id m) (target_nodes m)
    (metadata m).
Definition set_sequence_number (x : Z) (m : Message) : Message :=
  mkMessage (type m) (sender_id m) (receiver_id m) (key m) (value m)
    (success m) (timestamp m) x (correlation_id m) (target_nodes m)
    (metadata m).
Definition set_correlation_id (x : string) (m : Message) : Message :=
  mkMessage (type m) (sender_id m) (receiver_id m) (key m) (value m)
    (success m) (timestamp m) (sequence_number m) x (target_nodes m)
    (metadata m).
Definition set_target_nodes (x : list Z) (m : Message) : Message :=
  mkMessage (type m) (sender_id m) (receiver_id m) (key m) (value m)
    (success m) (timestamp m) (sequence_number m) (correlation_id m) x
    (metadata m).
Definition set_metadata (x : string) (m : Message) : Message :=
  mkMessage (type m) (sender_id m) (receiver_id m) (key m) (value m)
    (success m) (timestamp m) (sequence_number m) (correlation_id m)
    (target_nodes m) x.

(** Modelled from the spec: [Message::is_read_operation] and
    [Message::is_write_operation] are called by the coordinators but are
    declared in a revision of message.h that is not among the sources; a
    read operation is an envelope of kind READ_REQUEST, a write operation
    one of kind WRITE_REQUEST. *)
Definition is_read_operation (m : Message) : bool :=
  type_eqb (type m) READ_REQUEST.
Definition is_write_operation (m : Message) : bool :=
  type_eqb (type m) WRITE_REQUEST.

(** *** Formatted output: [operator<<] on integers *)

Definition digit_char (d : Z) : ascii := ascii_of_nat (48 + Z.to_nat d).

(** The decimal digits of [n], most significant first, in front of [acc]. *)
Fixpoint put_digits (fuel : nat) (n : Z) (acc : string) : string :=
  match fuel with
  | O => acc
  | S fuel' =>
      let acc' := String (digit_char (n mod 10)) acc in
      if n / 10 =? 0 then acc' else put_digits fuel' (n / 10) acc'
  end.

(** A number has no more decimal digits than binary ones. *)
Definition digit_fuel (n : Z) : nat := S (Z.to_nat (Z.log2 n)).

(** [oss << n] for an unsigned [n]. *)
Definition put_unsigned (n : Z) : string := put_digits (digit_fuel n) n "".

(** [oss << i] for an [int]. *)
Definition put_int (i : Z) : string :=
  if i <? 0 then String "-" (put_unsigned (- i)) else put_unsigned i.

(** The loop over [target_nodes]: elements separated by commas. *)
Fixpoint put_targets (first : bool) (l : list Z) : string :=
  match l with
  | [] => ""
  | x :: l' =>
      ((if first then "" else ",") ++ put_unsigned x ++ put_targets false l')%string
  end.

(** [Message::serialize] *)
Definition serialize (m : Message) : string :=
  (put_int (int_of_type (type m)) ++ "|"
   ++ put_unsigned (sender_id m) ++ "|"
   ++ put_unsigned (receiver_id m) ++ "|"
   ++ key m ++ "|"
   ++ value m ++ "|"
   ++ (if success m then "1" else "0") ++ "|"
   ++ put_unsigned (timestamp m) ++ "|"
   ++ put_unsigned (sequence_number m) ++ "|"
   ++ correlation_id m ++ "|"
   ++ put_targets true (target_nodes m) ++ "|"
   ++ metadata m)%string.

(** *** Input: [std::getline] with a delimiter, [std::stoi], [std::stoul] *)

(** An input string stream: the unread characters and the state bits. *)
Record istream := mkIstream {
  unread : string;
  eofbit : bool;
  failbit : bool
}.

Definition istringstream (data : string) : istream :=
  mkIstream data false false.

(** Characters up to the first [delim]; the rest after it when it occurs. *)
Fixpoint read_until (delim : ascii) (s : string) : string * option string :=
  match s with
  | EmptyString => (EmptyString, None)
  | String c s' =>
      if Ascii.eqb c delim then (EmptyString, Some s')
      else let '(tok, rest) := read_until delim s' in (String c tok, rest)
  end.

(** [std::getline(in, token, delim)]: the token when the call leaves the
    stream usable ([operator bool]), and the stream afterwards.  A stream
    whose state is not good fails at once; reaching the end of the input
    sets [eofbit], and also [failbit] when no character was extracted. *)
Definition getline (ins : istream) (delim : ascii) : option string * istream :=
  if eofbit ins || failbit ins then (None, mkIstream (unread ins) (eofbit ins) true)
  else
    match read_until delim (unread ins) with
    | (tok, Some rest) => (Some tok, mkIstream rest false false)
    | (EmptyString, None) => (None, mkIstream "" true true)
    | (tok, None) => (Some tok, mkIstream "" true false)
    end.

Definition is_digit (c : ascii) : bool :=
  let n := nat_of_ascii c in (48 <=? n)%nat && (n <=? 57)%nat.

Definition digit_val (c : ascii) : Z := Z.of_nat (nat_of_ascii c) - 48.

(** [isspace] in the C locale. *)
Definition is_space (c : ascii) : bool :=
  let n := nat_of_ascii c in (n =? 32)%nat || ((9 <=? n)%nat && (n <=? 13)%nat).

Fixpoint skip_space (s : string) : string :=
  match s with
  | String c s' => if is_space c then skip_space s' else s
  | EmptyString => s
  end.

(** The longest prefix of digits, accumulated in base ten; [None] when
    there is no digit at all. *)
Fixpoint get_digits (s : string) (acc : option Z) : option Z :=
  match s with
  | String c s' =>
      if is_digit c
      then get_digits s' (Some (match acc with Some a => a | None => 0 end * 10 + digit_val c))
      else acc
  | EmptyString => acc
  end.

(** What [strtol] and [strtoul] read: blanks, an optional sign, digits. *)
Definition scan_number (s : string) : option (bool * Z) :=
  let s1 := skip_space s in
  let '(neg, s2) :=
    match s1 with
    | String "-" r => (true, r)
    | String "+" r => (false, r)
    | _ => (false, s1)
    end in
  match get_digits s2 None with
  | Some v => Some (neg, v)
  | None => None
  end.

(** [std::stoi]: [None] stands for the exception it throws
    ([invalid_argument] or [out_of_range]). *)
Definition stoi (s : string) : option Z :=
  match scan_number s with
  | Some (neg, v) =>
      let r := if neg then - v else v in
      if (INT_MIN <=? r) && (r <=? INT_MAX) then Some r else None
  | None => None
  end.

(** [std::stoul] and [std::stoull] (both 64 bits wide here): a minus sign
    negates in unsigned arithmetic. *)
Definition stoul (s : string) : option Z :=
  match scan_number s with
  | Some (neg, v) =>
      if v <=? ULONG_MAX then Some (if neg then wrap64 (- v) else v) else None
  | None => None
  end.

Definition stoull := stoul.

(** The inner loop of [deserialize] over the comma-separated node list. *)
Fixpoint get_targets (fuel : nat) (ins : istream) (acc : list Z) : option (list Z) :=
  match fuel with
  | O => Some acc
  | S fuel' =>
      match getline ins "," with
      | (Some node_token, ins') =>
          match stoul node_token with
          | Some v => get_targets fuel' ins' (acc ++ [wrap32 v])
          | None => None
          end
      | (None, _) => Some acc
      end
  end.

(** One [if (std::getline(iss, token, '|')) { ... }] block: [conv] is the
    body, which may throw. *)
Definition field (conv : string -> Message -> option Message)
    (st : option (Message * istream)) : option (Message * istream) :=
  match st with
  | Some (msg, iss) =>
      match getline iss "|" with
      | (Some token, iss') =>
          match conv token msg with
          | Some msg' => Some (msg', iss')
          | None => None
          end
      | (None, iss') => Some (msg, iss')
      end
  | None => None
  end.

(** [Message::deserialize]; [None] is an exception leaving the function. *)
Definition deserialize (data : string) : option Message :=
  let st0 := Some (new_message, istringstream data) in
  let st1 := field (fun token msg =>
    match stoi token with Some i => Some (set_type (type_of_int i) msg) | None => None end) st0 in
  let st2 := field (fun token msg =>
    match stoul token with Some v => Some (set_sender_id (wrap32 v) msg) | None => None end) st1 in
  let st3 := field (fun token msg =>
    match stoul token with Some v => Some (set_receiver_id (wrap32 v) msg) | None => None end) st2 in
  let st4 := field (fun token msg => Some (set_key token msg)) st3 in
  let st5 := field (fun token msg => Some (set_value token msg)) st4 in
  let st6 := field (fun token msg => Some (set_success (String.eqb token "1") msg)) st5 in
  let st7 := field (fun token msg =>
    match stoull token with Some v => Some (set_timestamp v msg) | None => None end) st6 in
  let st8 := field (fun token msg =>
    match stoul token with Some v => Some (set_sequence_number (wrap32 v) msg) | None => None end) st7 in
  let st9 := field (fun token msg => Some (set_correlation_id token msg)) st8 in
  let st10 := field (fun token msg =>
    if String.eqb token "" then Some msg
    else
      match get_targets (S (String.length token)) (istringstream token) (target_nodes msg) with
      | Some l => Some (set_target_nodes l msg)
      | None => None
      end) st9 in
  let st11 := field (fun token msg => Some (set_metadata token msg)) st10 in
  match st11 with
  | Some (msg, _) => Some msg
  | None => None
  end.

(** A field that the pipe-delimited encoding can carry. *)
Fixpoint no_pipe (s : string) : bool :=
  match s with
  | EmptyString => true
  | String c s' => negb (Ascii.eqb c "|") && no_pipe s'
  end.

(** The values a [Message] object can hold: every integer field within
    the range of its C++ type. *)
Definition type_ok (t : MessageType) : Prop :=
  match t with
  | OTHER_TYPE code => INT_MIN <= code <= INT_MAX /\ (code < 0 \/ 19 < code)
  | _ => True
  end.

Record well_formed (m : Message) : Prop := {
  wf_type : type_ok (type m);
  wf_sender : 0 <= sender_id m < 2 ^ 32;
  wf_receiver : 0 <= receiver_id m < 2 ^ 32;
  wf_timestamp : 0 <= timestamp m < 2 ^ 64;
  wf_sequence : 0 <= sequence_number m < 2 ^ 32;
  wf_targets : Forall (fun x => 0 <= x < 2 ^ 32) (target_nodes m)
}.

End Msg.

(** ** The local store of a node (src/core/node.cpp) *)

Module NodeM.

(** The part of [Node] that the coordinators use: its id, the key-value
    store with its two counters, and the messages handed to the transport
    ([send_message] returns as soon as the message is queued).  The leader
    id, the cluster list and the inbound queue are not read by any
    coordinator and are left out. *)
Record Node := mkNode {
  node_id_ : Z;
  data_store_ : gmap string string;
  operation_count_ : Z;
  success_count_ : Z;
  outbox : list (Z * Msg.Message)
}.

Definition new_node (id : Z) : Node := mkNode id ∅ 0 0 [].

Definition get_node_id (n : Node) : Z := node_id_ n.

(** [Node::read]: the value when the key is present. *)
Definition read (k : string) (n : Node) : option string * Node :=
  match data_store_ n !! k with
  | Some v =>
      (Some v, mkNode (node_id_ n) (data_store_ n)
                 (wrap64 (operation_count_ n + 1)) (wrap64 (success_count_ n + 1))
                 (outbox n))
  | None =>
      (None, mkNode (node_id_ n) (data_store_ n)
               (wrap64 (operation_count_ n + 1)) (success_count_ n) (outbox n))
  end.

(** [Node::write]: always returns true. *)
Definition write (k v : string) (n : Node) : bool * Node :=
  (true, mkNode (node_id_ n) (<[k := v]> (data_store_ n))
           (wrap64 (operation_count_ n + 1)) (wrap64 (success_count_ n + 1))
           (outbox n)).

(** [Node::delete_key] *)
Definition delete_key (k : string) (n : Node) : bool * Node :=
  match data_store_ n !! k with
  | Some _ =>
      (true, mkNode (node_id_ n) (delete k (data_store_ n))
               (wrap64 (operation_count_ n + 1)) (wrap64 (success_count_ n + 1))
               (outbox n))
  | None =>
      (false, mkNode (node_id_ n) (data_store_ n)
                (wrap64 (operation_count_ n + 1)) (success_count_ n) (outbox n))
  end.

(** [Node::send_message] *)
Definition send_message (target : Z) (m : Msg.Message) (n : Node) : Node :=
  mkNode (node_id_ n) (data_store_ n) (operation_count_ n) (success_count_ n)
    (outbox n ++ [(target, m)]).

End NodeM.

(** ** The chain coordinator (src/protocols/chain_replication.cpp) *)

Module Chain.

Record ChainReplication := mkChain {
  chain_order_ : list Z;
  my_position_ : Z;                       (* uint32_t *)
  batching_enabled_ : bool;
  batch_size_ : Z;
  pipelining_enabled_ : bool;
  write_batch_ : list Msg.Message;
  pending_writes_ : gmap Z Msg.Message
}.

Definition set_chain (order : list Z) (pos : Z) (c : ChainReplication) :=
  mkChain order pos (batching_enabled_ c) (batch_size_ c)
    (pipelining_enabled_ c) (write_batch_ c) (pending_writes_ c).
Definition set_write_batch (b : list Msg.Message) (c : ChainReplication) :=
  mkChain (chain_order_ c) (my_position_ c) (batching_enabled_ c)
    (batch_size_ c) (pipelining_enabled_ c) b (pending_writes_ c).
Definition set_pending_writes (p : gmap Z Msg.Message) (c : ChainReplication) :=
  mkChain (chain_order_ c) (my_position_ c) (batching_enabled_ c)
    (batch_size_ c) (pipelining_enabled_ c) (write_batch_ c) p.
Definition enable_batching (b : bool) (c : ChainReplication) :=
  mkChain (chain_order_ c) (my_position_ c) b (batch_size_ c)
    (pipelining_enabled_ c) (write_batch_ c) (pending_writes_ c).
Definition set_batch_size (sz : Z) (c : ChainReplication) :=
  mkChain (chain_order_ c) (my_position_ c) (batching_enabled_ c) sz
    (pipelining_enabled_ c) (write_batch_ c) (pending_writes_ c).
Definition enable_pipelining (b : bool) (c : ChainReplication) :=
  mkChain (chain_order_ c) (my_position_ c) (batching_enabled_ c)
    (batch_size_ c) b (write_batch_ c) (pending_writes_ c).

(** The loop of [find_my_position]: the first index holding [my_id],
    counted from [i]. *)
Fixpoint index_from (i : Z) (my_id : Z) (l : list Z) : option Z :=
  match l with
  | [] => None
  | x :: l' => if x =? my_id then Some i else index_from (i + 1) my_id l'
  end.

(** [find_my_position]: the index, or the chain length when the node is
    not in the chain; the assignment narrows a [size_t] to 32 bits. *)
Definition find_my_position (n : NodeM.Node) (c : ChainReplication) : ChainReplication :=
  match index_from 0 (NodeM.get_node_id n) (chain_order_ c) with
  | Some i => set_chain (chain_order_ c) (wrap32 i) c
  | None => set_chain (chain_order_ c) (wrap32 (vsize (chain_order_ c))) c
  end.

(** The constructor. *)
Definition new_chain (n : NodeM.Node) (chain_order : list Z) : ChainReplication :=
  find_my_position n (mkChain chain_order 0 true 10 true [] ∅).

Definition is_head (c : ChainReplication) : bool :=
  (my_position_ c =? 0) && negb (vsize (chain_order_ c) =? 0).

(** [chain_order_.size() - 1] is computed on [size_t] and wraps for the
    empty chain. *)
Definition is_tail (c : ChainReplication) : bool :=
  (my_position_ c =? wrap64 (vsize (chain_order_ c) - 1))
  && negb (vsize (chain_order_ c) =? 0).

Definition get_successor (c : ChainReplication) : Z :=
  if wrap32 (my_position_ c + 1) <? vsize (chain_order_ c)
  then nth (Z.to_nat (wrap32 (my_position_ c + 1))) (chain_order_ c) 0
  else 0.

Definition get_predecessor (c : ChainReplication) : Z :=
  if my_position_ c >? 0
  then nth (Z.to_nat (my_position_ c - 1)) (chain_order_ c) 0
  else 0.

Definition should_use_fast_path (request : Msg.Message) : bool :=
  Msg.is_read_operation request && negb (String.eqb (Msg.key request) "").

(** [process_read]; [now] is the clock read by [get_current_timestamp]. *)
Definition process_read (now : Z) (request response : Msg.Message)
    (c : ChainReplication) (n : NodeM.Node)
  : bool * Msg.Message * ChainReplication * NodeM.Node :=
  if negb (is_tail c) then
    let n1 :=
      if vsize (chain_order_ c) >? 0
      then NodeM.send_message (List.last (chain_order_ c) 0) request n
      else n in
    (false, response, c, n1)
  else
    let r1 := Msg.set_type Msg.READ_RESPONSE response in
    let r2 := Msg.set_sender_id (NodeM.get_node_id n) r1 in
    let r3 := Msg.set_timestamp now r2 in
    let r4 := Msg.set_key (Msg.key request) r3 in
    let r5 := Msg.set_sequence_number (Msg.sequence_number request) r4 in
    match NodeM.read (Msg.key request) n with
    | (Some v, n1) =>
        (true, Msg.set_success true (Msg.set_value v r5), c, n1)
    | (None, n1) =>
        (false, Msg.set_success false r5, c, n1)
    end.

(** [send_ack] *)
Definition send_ack (now : Z) (original_request : Msg.Message)
    (c : ChainReplication) (n : NodeM.Node) : bool * NodeM.Node :=
  let a1 := Msg.set_type Msg.CHAIN_ACK Msg.new_message in
  let a2 := Msg.set_sender_id (NodeM.get_node_id n) a1 in
  let a3 := Msg.set_timestamp now a2 in
  let a4 := Msg.set_sequence_number (Msg.sequence_number original_request) a3 in
  let ack_msg := Msg.set_success true a4 in
  let predecessor := get_predecessor c in
  if negb (predecessor =? 0)
  then (true, NodeM.send_message predecessor ack_msg n)
  else (true, NodeM.send_message (Msg.sender_id original_request) ack_msg n).

(** [forward_write] *)
Definition forward_write (now : Z) (message : Msg.Message)
    (c : ChainReplication) (n : NodeM.Node)
  : bool * ChainReplication * NodeM.Node :=
  let successor := get_successor c in
  if successor =? 0 then
    let '(ok, n1) := send_ack now message c n in (ok, c, n1)
  else
    let forward_msg :=
      Msg.set_sender_id (NodeM.get_node_id n)
        (Msg.set_type Msg.CHAIN_FORWARD message) in
    let n1 := NodeM.send_message successor forward_msg n in
    (true,
     set_pending_writes (<[Msg.sequence_number message := message]> (pending_writes_ c)) c,
     n1).

(** [process_write_batch] *)
Definition process_write_batch (c : ChainReplication) (n : NodeM.Node)
  : ChainReplication * NodeM.Node :=
  match write_batch_ c with
  | [] => (c, n)
  | _ =>
      let n1 :=
        fold_left (fun acc write_msg =>
                     snd (NodeM.write (Msg.key write_msg) (Msg.value write_msg) acc))
                  (write_batch_ c) n in
      let successor := get_successor c in
      let n2 :=
        if negb (successor =? 0) then
          fold_left (fun acc write_msg =>
                       NodeM.send_message successor
                         (Msg.set_sender_id (NodeM.get_node_id acc)
                            (Msg.set_type Msg.CHAIN_FORWARD write_msg)) acc)
                    (write_batch_ c) n1
        else n1 in
      (set_write_batch [] c, n2)
  end.

(** [process_write] *)
Definition process_write (now : Z) (request response : Msg.Message)
    (c : ChainReplication) (n : NodeM.Node)
  : bool * Msg.Message * ChainReplication * NodeM.Node :=
  let r1 := Msg.set_type Msg.WRITE_RESPONSE response in
  let r2 := Msg.set_sender_id (NodeM.get_node_id n) r1 in
  let r3 := Msg.set_timestamp now r2 in
  let r4 := Msg.set_key (Msg.key request) r3 in
  let r5 := Msg.set_sequence_number (Msg.sequence_number request) r4 in
  if negb (is_head c) then
    let r6 := Msg.set_success true r5 in
    let n1 :=
      if vsize (chain_order_ c) >? 0
      then NodeM.send_message (List.hd 0 (chain_order_ c)) request n
      else n in
    (true, r6, c, n1)
  else if batching_enabled_ c && (vsize (write_batch_ c) <? batch_size_ c) then
    let c1 := set_write_batch (write_batch_ c ++ [request]) c in
    let '(c2, n1) :=
      if vsize (write_batch_ c1) >=? batch_size_ c1
      then process_write_batch c1 n
      else (c1, n) in
    (true, Msg.set_success true r5, c2, n1)
  else
    let '(success, n1) := NodeM.write (Msg.key request) (Msg.value request) n in
    let '(success', c1, n2) :=
      if success && (vsize (chain_order_ c) >? 1) then
        let '(fwd, c', n') := forward_write now request c n1 in
        (if negb fwd then false else success, c', n')
      else (success, c, n1) in
    (success', Msg.set_success success' r5, c1, n2).

(** [update_chain_order] *)
Definition update_chain_order (n : NodeM.Node) (new_chain : list Z)
    (c : ChainReplication) : ChainReplication :=
  find_my_position n (set_chain new_chain (my_position_ c) c).

(** [vector::erase] at the position that [std::find] returns. *)
Fixpoint erase_first (x : Z) (l : list Z) : list Z :=
  match l with
  | [] => []
  | y :: l' => if y =? x then l' else y :: erase_first x l'
  end.

Definition contains (x : Z) (l : list Z) : bool := existsb (Z.eqb x) l.

(** [handle_node_failure] *)
Definition handle_node_failure (n : NodeM.Node) (failed_node : Z)
    (c : ChainReplication) : ChainReplication :=
  if contains failed_node (chain_order_ c)
  then find_my_position n
         (set_chain (erase_first failed_node (chain_order_ c)) (my_position_ c) c)
  else c.

(** [handle_node_recovery]: the node is appended without a membership
    test. *)
Definition handle_node_recovery (n : NodeM.Node) (recovered_node : Z)
    (c : ChainReplication) : ChainReplication :=
  find_my_position n
    (set_chain (chain_order_ c ++ [recovered_node]) (my_position_ c) c).

End Chain.

(** ** The quorum coordinator (include/protocols/quorum_replication.h,
       src/protocols/quorum_replication.cpp) *)

Module Quorum.

Inductive QuorumPhase := PREPARE | ACCEPT | COMMIT.

Definition phase_eqb (a b : QuorumPhase) : bool :=
  match a, b with
  | PREPARE, PREPARE | ACCEPT, ACCEPT | COMMIT, COMMIT => true
  | _, _ => false
  end.

Record QuorumState := mkQuorumState {
  proposal_number : Z;                    (* uint64_t *)
  phase : QuorumPhase;
  key : string;
  value : string;
  promised_nodes : gset Z;
  accepted_nodes : gset Z;
  start_time : Z
}.

(** [QuorumState::has_majority]: the threshold is recomputed from the
    argument, the number of quorum members. *)
Definition has_majority (p : QuorumState) (total_nodes : Z) : bool :=
  let required := total_nodes / 2 + 1 in
  Z.of_nat (size (promised_nodes p)) >=? required.

(** [QuorumState::has_accept_majority] *)
Definition has_accept_majority (p : QuorumState) (total_nodes : Z) : bool :=
  let required := total_nodes / 2 + 1 in
  Z.of_nat (size (accepted_nodes p)) >=? required.

Record QuorumReplication := mkQuorum {
  quorum_nodes_ : list Z;
  quorum_size_ : Z;                       (* size_t *)
  next_proposal_number_ : Z;              (* atomic<uint64_t> *)
  fast_quorum_enabled_ : bool;
  read_optimization_enabled_ : bool;
  adaptive_quorum_enabled_ : bool;
  operation_timeout_ : Z;
  active_proposals_ : gmap Z QuorumState;
  successful_consensus_ : Z;              (* atomic<size_t> *)
  failed_consensus_ : Z;                  (* atomic<size_t> *)
  consensus_times_ : list Z
}.

(** The constructor. *)
Definition new_quorum (quorum_nodes : list Z) : QuorumReplication :=
  mkQuorum quorum_nodes (vsize quorum_nodes / 2 + 1) 1 true true true 5000 ∅ 0 0 [].

Definition set_members (nodes : list Z) (sz : Z) (q : QuorumReplication) :=
  mkQuorum nodes sz (next_proposal_number_ q) (fast_quorum_enabled_ q)
    (read_optimization_enabled_ q) (adaptive_quorum_enabled_ q)
    (operation_timeout_ q) (active_proposals_ q) (successful_consensus_ q)
    (failed_consensus_ q) (consensus_times_ q).
Definition set_quorum_size (sz : Z) (q : QuorumReplication) :=
  set_members (quorum_nodes_ q) sz q.
Definition set_next_proposal_number (x : Z) (q : QuorumReplication) :=
  mkQuorum (quorum_nodes_ q) (quorum_size_ q) x (fast_quorum_enabled_ q)
    (read_optimization_enabled_ q) (adaptive_quorum_enabled_ q)
    (operation_timeout_ q) (active_proposals_ q) (successful_consensus_ q)
    (failed_consensus_ q) (consensus_times_ q).
Definition set_active_proposals (a : gmap Z QuorumState) (q : QuorumReplication) :=
  mkQuorum (quorum_nodes_ q) (quorum_size_ q) (next_proposal_number_ q)
    (fast_quorum_enabled_ q) (read_optimization_enabled_ q)
    (adaptive_quorum_enabled_ q) (operation_timeout_ q) a
    (successful_consensus_ q) (failed_consensus_ q) (consensus_times_ q).
Definition set_counters (ok failed : Z) (times : list Z) (q : QuorumReplication) :=
  mkQuorum (quorum_nodes_ q) (quorum_size_ q) (next_proposal_number_ q)
    (fast_quorum_enabled_ q) (read_optimization_enabled_ q)
    (adaptive_quorum_enabled_ q) (operation_timeout_ q) (active_proposals_ q)
    ok failed times.
Definition enable_fast_quorum (b : bool) (q : QuorumReplication) :=
  mkQuorum (quorum_nodes_ q) (quorum_size_ q) (next_proposal_number_ q) b
    (read_optimization_enabled_ q) (adaptive_quorum_enabled_ q)
    (operation_timeout_ q) (active_proposals_ q) (successful_consensus_ q)
    (failed_consensus_ q) (consensus_times_ q).
Definition enable_read_optimization (b : bool) (q : QuorumReplication) :=
  mkQuorum (quorum_nodes_ q) (quorum_size_ q) (next_proposal_number_ q)
    (fast_quorum_enabled_ q) b (adaptive_quorum_enabled_ q)
    (operation_timeout_ q) (active_proposals_ q) (successful_consensus_ q)
    (failed_consensus_ q) (consensus_times_ q).
Definition enable_adaptive_quorum (b : bool) (q : QuorumReplication) :=
  mkQuorum (quorum_nodes_ q) (quorum_size_ q) (next_proposal_number_ q)
    (fast_quorum_enabled_ q) (read_optimization_enabled_ q) b
    (operation_timeout_ q) (active_proposals_ q) (successful_consensus_ q)
    (failed_consensus_ q) (consensus_times_ q).
Definition set_timeout (t : Z) (q : QuorumReplication) :=
  mkQuorum (quorum_nodes_ q) (quorum_size_ q) (next_proposal_number_ q)
    (fast_quorum_enabled_ q) (read_optimization_enabled_ q)
    (adaptive_quorum_enabled_ q) t (active_proposals_ q)
    (successful_consensus_ q) (failed_consensus_ q) (consensus_times_ q).

Definition successful (q : QuorumReplication) : QuorumReplication :=
  set_counters (wrap64 (successful_consensus_ q + 1)) (failed_consensus_ q)
    (consensus_times_ q) q.
Definition failed (q : QuorumReplication) : QuorumReplication :=
  set_counters (successful_consensus_ q) (wrap64 (failed_consensus_ q + 1))
    (consensus_times_ q) q.
Definition record_time (d : Z) (q : QuorumReplication) : QuorumReplication :=
  set_counters (successful_consensus_ q) (failed_consensus_ q)
    (consensus_times_ q ++ [d]) q.

(** [update_quorum_nodes] *)
Definition update_quorum_nodes (new_nodes : list Z) (q : QuorumReplication) :=
  set_members new_nodes (vsize new_nodes / 2 + 1) q.

Definition get_quorum_size (q : QuorumReplication) : Z := quorum_size_ q.

(** [is_in_quorum] *)
Definition is_in_quorum (node_id : Z) (q : QuorumReplication) : bool :=
  Chain.contains node_id (quorum_nodes_ q).

(** [get_consensus_success_rate]: the quotient of the two counters. *)
Definition get_consensus_success_rate (q : QuorumReplication) : Q :=
  let total := wrap64 (successful_consensus_ q + failed_consensus_ q) in
  if total =? 0 then 0%Q
  else Qmake (successful_consensus_ q) (Z.to_pos total).

Definition Qltb (a b : Q) : bool := negb (Qle_bool b a).

(** [calculate_optimal_quorum_size] *)
Definition calculate_optimal_quorum_size (q : QuorumReplication) : Z :=
  let base_size := vsize (quorum_nodes_ q) / 2 + 1 in
  let success_rate := get_consensus_success_rate q in
  if Qltb success_rate (8 # 10) then
    Z.min (base_size + 1) (vsize (quorum_nodes_ q))
  else if Qltb (95 # 100) success_rate then
    Z.max (base_size - 1) 3
  else base_size.

(** [adjust_quorum_size_based_on_load] *)
Definition adjust_quorum_size_based_on_load (q : QuorumReplication) :=
  let optimal_size := calculate_optimal_quorum_size q in
  if negb (optimal_size =? quorum_size_ q) && (optimal_size >=? 3)
  then set_quorum_size optimal_size q
  else q.

(** [handle_node_failure] *)
Definition handle_node_failure (failed_node : Z) (q : QuorumReplication) :=
  if Chain.contains failed_node (quorum_nodes_ q) then
    let nodes := Chain.erase_first failed_node (quorum_nodes_ q) in
    let q1 := set_members nodes (vsize nodes / 2 + 1) q in
    if adaptive_quorum_enabled_ q1 then adjust_quorum_size_based_on_load q1
    else q1
  else q.

(** [handle_node_recovery] *)
Definition handle_node_recovery (recovered_node : Z) (q : QuorumReplication) :=
  if negb (is_in_quorum recovered_node q) then
    let nodes := quorum_nodes_ q ++ [recovered_node] in
    set_members nodes (vsize nodes / 2 + 1) q
  else q.

(** [generate_proposal_number]: [fetch_add] returns the old value. *)
Definition generate_proposal_number (q : QuorumReplication) : Z * QuorumReplication :=
  (next_proposal_number_ q,
   set_next_proposal_number (wrap64 (next_proposal_number_ q + 1)) q).

(** [can_use_fast_path] *)
Definition can_use_fast_path (request : Msg.Message) (q : QuorumReplication) : bool :=
  Msg.is_read_operation request
  && negb (String.eqb (Msg.key request) "")
  && fast_quorum_enabled_ q.

(** [select_optimal_quorum_subset] *)
Definition select_optimal_quorum_subset (q : QuorumReplication) : list Z :=
  if vsize (quorum_nodes_ q) <=? quorum_size_ q then quorum_nodes_ q
  else firstn (Z.to_nat (quorum_size_ q)) (quorum_nodes_ q).

(** The loops that send one message to every listed node but this one. *)
Definition send_to_others (targets : list Z) (m : Msg.Message) (n : NodeM.Node) : NodeM.Node :=
  fold_left (fun acc node_id =>
               if negb (node_id =? NodeM.get_node_id acc)
               then NodeM.send_message node_id m acc else acc)
            targets n.

(** [send_prepare_messages]; the 64-bit proposal number is stored in the
    32-bit [sequence_number] of the envelope. *)
Definition send_prepare_messages (now : Z) (proposal_number : Z) (k : string)
    (q : QuorumReplication) (n : NodeM.Node) : bool * NodeM.Node :=
  let m1 := Msg.set_type Msg.QUORUM_PREPARE Msg.new_message in
  let m2 := Msg.set_sender_id (NodeM.get_node_id n) m1 in
  let m3 := Msg.set_timestamp now m2 in
  let m4 := Msg.set_sequence_number (wrap32 proposal_number) m3 in
  let prepare_msg := Msg.set_key k m4 in
  let target_nodes :=
    if adaptive_quorum_enabled_ q then select_optimal_quorum_subset q
    else quorum_nodes_ q in
  (true, send_to_others target_nodes prepare_msg n).

(** [send_accept_messages] *)
Definition send_accept_messages (now : Z) (proposal_number : Z) (k v : string)
    (q : QuorumReplication) (n : NodeM.Node) : bool * NodeM.Node :=
  let m1 := Msg.set_type Msg.QUORUM_ACCEPT Msg.new_message in
  let m2 := Msg.set_sender_id (NodeM.get_node_id n) m1 in
  let m3 := Msg.set_timestamp now m2 in
  let m4 := Msg.set_sequence_number (wrap32 proposal_number) m3 in
  let accept_msg := Msg.set_value v (Msg.set_key k m4) in
  (true, send_to_others (quorum_nodes_ q) accept_msg n).

(** [handle_prepare] *)
Definition handle_prepare (now : Z) (message : Msg.Message)
    (q : QuorumReplication) (n : NodeM.Node) : QuorumReplication * NodeM.Node :=
  let m1 := Msg.set_type Msg.QUORUM_PROMISE Msg.new_message in
  let m2 := Msg.set_sender_id (NodeM.get_node_id n) m1 in
  let m3 := Msg.set_timestamp now m2 in
  let m4 := Msg.set_sequence_number (Msg.sequence_number message) m3 in
  let promise_msg := Msg.set_success true m4 in
  (q, NodeM.send_message (Msg.sender_id message) promise_msg n).

(** [handle_promise] *)
Definition handle_promise (now : Z) (message : Msg.Message)
    (q : QuorumReplication) (n : NodeM.Node) : QuorumReplication * NodeM.Node :=
  match active_proposals_ q !! Msg.sequence_number message with
  | Some p =>
      let p1 := mkQuorumState (proposal_number p) (phase p) (key p) (value p)
                  ({[Msg.sender_id message]} ∪ promised_nodes p)
                  (accepted_nodes p) (start_time p) in
      if has_majority p1 (vsize (quorum_nodes_ q)) then
        let p2 := mkQuorumState (proposal_number p1) ACCEPT (key p1) (value p1)
                    (promised_nodes p1) (accepted_nodes p1) (start_time p1) in
        let q1 := set_active_proposals
                    (<[Msg.sequence_number message := p2]> (active_proposals_ q)) q in
        (q1, snd (send_accept_messages now (proposal_number p2) (key p2) (value p2) q1 n))
      else
        (set_active_proposals
           (<[Msg.sequence_number message := p1]> (active_proposals_ q)) q, n)
  | None => (q, n)
  end.

(** [handle_accept] *)
Definition handle_accept (now : Z) (message : Msg.Message)
    (q : QuorumReplication) (n : NodeM.Node) : QuorumReplication * NodeM.Node :=
  let m1 := Msg.set_type Msg.QUORUM_ACCEPTED Msg.new_message in
  let m2 := Msg.set_sender_id (NodeM.get_node_id n) m1 in
  let m3 := Msg.set_timestamp now m2 in
  let m4 := Msg.set_sequence_number (Msg.sequence_number message) m3 in
  let accepted_msg := Msg.set_success true m4 in
  let n1 := snd (NodeM.write (Msg.key message) (Msg.value message) n) in
  (q, NodeM.send_message (Msg.sender_id message) accepted_msg n1).

(** [handle_accepted] *)
Definition handle_accepted (message : Msg.Message)
    (q : QuorumReplication) (n : NodeM.Node) : QuorumReplication * NodeM.Node :=
  match active_proposals_ q !! Msg.sequence_number message with
  | Some p =>
      let p1 := mkQuorumState (proposal_number p) (phase p) (key p) (value p)
                  (promised_nodes p)
                  ({[Msg.sender_id message]} ∪ accepted_nodes p) (start_time p) in
      let p2 :=
        if has_accept_majority p1 (vsize (quorum_nodes_ q))
        then mkQuorumState (proposal_number p1) COMMIT (key p1) (value p1)
               (promised_nodes p1) (accepted_nodes p1) (start_time p1)
        else p1 in
      (set_active_proposals
         (<[Msg.sequence_number message := p2]> (active_proposals_ q)) q, n)
  | None => (q, n)
  end.

(** What the other threads of the node can do to the coordinator and to
    the store while a proposer is between two polls: the message handlers,
    the membership calls and direct store operations. *)
Inductive Event :=
  | EvPrepare (now : Z) (m : Msg.Message)
  | EvPromise (now : Z) (m : Msg.Message)
  | EvAccept (now : Z) (m : Msg.Message)
  | EvAccepted (m : Msg.Message)
  | EvNodeFailure (id : Z)
  | EvNodeRecovery (id : Z)
  | EvUpdateQuorumNodes (nodes : list Z)
  | EvAdjustQuorumSize
  | EvStoreWrite (k v : string)
  | EvStoreDelete (k : string).

Definition step (e : Event) (qn : QuorumReplication * NodeM.Node)
  : QuorumReplication * NodeM.Node :=
  let '(q, n) := qn in
  match e with
  | EvPrepare now m => handle_prepare now m q n
  | EvPromise now m => handle_promise now m q n
  | EvAccept now m => handle_accept now m q n
  | EvAccepted m => handle_accepted m q n
  | EvNodeFailure id => (handle_node_failure id q, n)
  | EvNodeRecovery id => (handle_node_recovery id q, n)
  | EvUpdateQuorumNodes nodes => (update_quorum_nodes nodes q, n)
  | EvAdjustQuorumSize => (adjust_quorum_size_based_on_load q, n)
  | EvStoreWrite k v => (q, snd (NodeM.write k v n))
  | EvStoreDelete k => (q, snd (NodeM.delete_key k n))
  end.

Definition run (evs : list Event) (qn : QuorumReplication * NodeM.Node)
  : QuorumReplication * NodeM.Node :=
  fold_left (fun acc e => step e acc) evs qn.

(** An answer from an acceptor to this proposer. *)
Definition is_response (e : Event) : bool :=
  match e with
  | EvPromise _ _ | EvAccepted _ => true
  | _ => false
  end.

(** The run of a proposer: [rounds] lists, for every poll made before the
    deadline, the calls of the other threads since the previous poll (or
    since the proposal was stored); [late] are the calls between the last
    poll and the final clean-up; [t_end] is the clock at completion. *)
Record Schedule := mkSchedule {
  rounds : list (list Event);
  late : list Event;
  t_end : Z
}.

Definition response_header (ty : Msg.MessageType) (now : Z)
    (request response : Msg.Message) (n : NodeM.Node) : Msg.Message :=
  let r1 := Msg.set_type ty response in
  let r2 := Msg.set_sender_id (NodeM.get_node_id n) r1 in
  let r3 := Msg.set_timestamp now r2 in
  let r4 := Msg.set_key (Msg.key request) r3 in
  Msg.set_sequence_number (Msg.sequence_number request) r4.

(** The polling loop of [process_read].  [inl] is a return from inside the
    loop; [inr] leaves the loop, by [break] or at the deadline. *)
Fixpoint read_poll (rs : list (list Event)) (sch : Schedule) (now proposal_num : Z)
    (request response : Msg.Message) (qn : QuorumReplication * NodeM.Node)
  : (bool * Msg.Message * QuorumReplication * NodeM.Node)
    + (Msg.Message * QuorumReplication * NodeM.Node) :=
  match rs with
  | [] => inr (response, fst qn, snd qn)
  | evs :: rs' =>
      let '(q, n) := run evs qn in
      match active_proposals_ q !! proposal_num with
      | Some p =>
          if has_majority p (vsize (quorum_nodes_ q)) then
            match NodeM.read (Msg.key request) n with
            | (Some v, n1) =>
                let r := Msg.set_success true (Msg.set_value v response) in
                let q1 := record_time (t_end sch - now) (successful q) in
                inl (true, r,
                     set_active_proposals (delete proposal_num (active_proposals_ q1)) q1,
                     n1)
            | (None, n1) => inr (response, q, n1)
            end
          else read_poll rs' sch now proposal_num request response (q, n)
      | None => read_poll rs' sch now proposal_num request response (q, n)
      end
  end.

(** [process_read]; [now] is the clock at entry. *)
Definition process_read (now : Z) (sch : Schedule) (request response : Msg.Message)
    (q : QuorumReplication) (n : NodeM.Node)
  : bool * Msg.Message * QuorumReplication * NodeM.Node :=
  let r0 := response_header Msg.READ_RESPONSE now request response n in
  if vsize (quorum_nodes_ q) =? 1 then
    match NodeM.read (Msg.key request) n with
    | (Some v, n1) =>
        (true, Msg.set_success true (Msg.set_value v r0), successful q, n1)
    | (None, n1) =>
        (false, Msg.set_success false r0, failed q, n1)
    end
  else
    let fast :=
      if read_optimization_enabled_ q && can_use_fast_path request q
      then
        match NodeM.read (Msg.key request) n with
        | (Some v, n1) => inl (v, n1)
        | (None, n1) => inr n1
        end
      else inr n in
    match fast with
    | inl (v, n1) => (true, Msg.set_success true (Msg.set_value v r0), q, n1)
    | inr n1 =>
        let '(proposal_num, q1) := generate_proposal_number q in
        let read_state :=
          mkQuorumState proposal_num PREPARE (Msg.key request) "" ∅ ∅ now in
        let q2 := set_active_proposals
                    (<[proposal_num := read_state]> (active_proposals_ q1)) q1 in
        let '(sent, n2) := send_prepare_messages now proposal_num (Msg.key request) q2 n1 in
        if sent then
          match read_poll (rounds sch) sch now proposal_num request r0 (q2, n2) with
          | inl res => res
          | inr (r, q3, n3) =>
              let '(q4, n4) := run (late sch) (q3, n3) in
              let q5 := set_active_proposals
                          (delete proposal_num (active_proposals_ q4)) q4 in
              (false, Msg.set_success false r, failed q5, n4)
          end
        else (false, Msg.set_success false r0, failed q2, n2)
    end.

(** The polling loop of [initiate_consensus]. *)
Fixpoint write_poll (rs : list (list Event)) (proposal_num : Z) (k v : string)
    (qn : QuorumReplication * NodeM.Node)
  : bool * QuorumReplication * NodeM.Node :=
  match rs with
  | [] => (false, fst qn, snd qn)
  | evs :: rs' =>
      let '(q, n) := run evs qn in
      match active_proposals_ q !! proposal_num with
      | Some p =>
          if phase_eqb (phase p) COMMIT
             && has_accept_majority p (vsize (quorum_nodes_ q))
          then
            let n1 := snd (NodeM.write k v n) in
            (true,
             set_active_proposals (delete proposal_num (active_proposals_ q)) q,
             n1)
          else write_poll rs' proposal_num k v (q, n)
      | None => write_poll rs' proposal_num k v (q, n)
      end
  end.

(** [initiate_consensus] *)
Definition initiate_consensus (now : Z) (sch : Schedule) (k v : string)
    (q : QuorumReplication) (n : NodeM.Node)
  : bool * QuorumReplication * NodeM.Node :=
  let '(proposal_num, q1) := generate_proposal_number q in
  let write_state := mkQuorumState proposal_num PREPARE k v ∅ ∅ now in
  let q2 := set_active_proposals
              (<[proposal_num := write_state]> (active_proposals_ q1)) q1 in
  let '(sent, n1) := send_prepare_messages now proposal_num k q2 n in
  if negb sent then
    (false, set_active_proposals (delete proposal_num (active_proposals_ q2)) q2, n1)
  else
    match write_poll (rounds sch) proposal_num k v (q2, n1) with
    | (true, q3, n3) => (true, q3, n3)
    | (false, q3, n3) =>
        let '(q4, n4) := run (late sch) (q3, n3) in
        (false,
         set_active_proposals (delete proposal_num (active_proposals_ q4)) q4,
         n4)
    end.

(** [process_write] *)
Definition process_write (now : Z) (sch : Schedule) (request response : Msg.Message)
    (q : QuorumReplication) (n : NodeM.Node)
  : bool * Msg.Message * QuorumReplication * NodeM.Node :=
  let r0 := response_header Msg.WRITE_RESPONSE now request response n in
  if vsize (quorum_nodes_ q) =? 1 then
    let '(success, n1) := NodeM.write (Msg.key request) (Msg.value request) n in
    (success, Msg.set_success success r0,
     (if success then successful q else failed q), n1)
  else
    let '(success, q1, n1) :=
      initiate_consensus now sch (Msg.key request) (Msg.value request) q n in
    if success then
      (true, Msg.set_success true r0,
       successful (record_time (t_end sch - now) q1), n1)
    else
      (false, Msg.set_success false r0, failed q1, n1).

End Quorum.

(** ** The hybrid dispatcher (include/protocols/hybrid_protocol.h,
       src/protocols/hybrid_protocol.cpp) *)

Module Hybrid.

Inductive WorkloadPattern := READ_HEAVY | WRITE_HEAVY | BALANCED | BURSTY | UNKNOWN.

Definition pattern_eqb (a b : WorkloadPattern) : bool :=
  match a, b with
  | READ_HEAVY, READ_HEAVY | WRITE_HEAVY, WRITE_HEAVY | BALANCED, BALANCED
  | BURSTY, BURSTY | UNKNOWN, UNKNOWN => true
  | _, _ => false
  end.

Record AdaptiveMetrics := mkAdaptiveMetrics {
  read_write_ratio : Q;
  average_latency : Q;
  throughput : Q;
  network_partition_probability : Q;
  active_nodes : Z;
  pattern : WorkloadPattern
}.

Definition new_metrics : AdaptiveMetrics :=
  mkAdaptiveMetrics 1 0 0 0 0 UNKNOWN.

(** The dispatcher.  [node_] is the one [Node] object that the dispatcher
    and its two coordinators share; [read_count] and [write_count] are the
    function-local statics of [update_performance_metrics].  The fields
    that neither request path reads or writes (switching threshold, load
    balancing and request batching flags, the pending request vectors and
    the mode-switching times) are left out. *)
Record HybridProtocol := mkHybrid {
  node_ : NodeM.Node;
  chain_protocol_ : Chain.ChainReplication;
  quorum_protocol_ : Quorum.QuorumReplication;
  adaptive_switching_enabled_ : bool;
  current_metrics_ : AdaptiveMetrics;
  current_mode_ : Msg.ReplicationMode;
  read_preference_ : Msg.ReplicationMode;
  write_preference_ : Msg.ReplicationMode;
  intelligent_routing_enabled_ : bool;
  caching_enabled_ : bool;
  speculative_execution_enabled_ : bool;
  cache_ : gmap string (string * Z);
  cache_ttl_ : Z;
  chain_operations_ : Z;
  quorum_operations_ : Z;
  cache_hits_ : Z;
  cache_misses_ : Z;
  read_count : Z;
  write_count : Z
}.

(** The constructor: both coordinators are built on the node, then the
    optimisations of each are switched on. *)
Definition new_hybrid (node : NodeM.Node) (chain_order quorum_nodes : list Z)
  : HybridProtocol :=
  mkHybrid node
    (Chain.enable_pipelining true
       (Chain.enable_batching true (Chain.new_chain node chain_order)))
    (Quorum.enable_adaptive_quorum true
       (Quorum.enable_read_optimization true
          (Quorum.enable_fast_quorum true (Quorum.new_quorum quorum_nodes))))
    true new_metrics Msg.HYBRID_AUTO Msg.CHAIN_ONLY Msg.QUORUM_ONLY
    true true false ∅ 30000000 0 0 0 0 0 0.

Definition with_protocols (n : NodeM.Node) (c : Chain.ChainReplication)
    (q : Quorum.QuorumReplication) (h : HybridProtocol) : HybridProtocol :=
  mkHybrid n c q (adaptive_switching_enabled_ h) (current_metrics_ h)
    (current_mode_ h) (read_preference_ h) (write_preference_ h)
    (intelligent_routing_enabled_ h) (caching_enabled_ h)
    (speculative_execution_enabled_ h) (cache_ h) (cache_ttl_ h)
    (chain_operations_ h) (quorum_operations_ h) (cache_hits_ h)
    (cache_misses_ h) (read_count h) (write_count h).
Definition with_cache (c : gmap string (string * Z)) (h : HybridProtocol) :=
  mkHybrid (node_ h) (chain_protocol_ h) (quorum_protocol_ h)
    (adaptive_switching_enabled_ h) (current_metrics_ h) (current_mode_ h)
    (read_preference_ h) (write_preference_ h) (intelligent_routing_enabled_ h)
    (caching_enabled_ h) (speculative_execution_enabled_ h) c (cache_ttl_ h)
    (chain_operations_ h) (quorum_operations_ h) (cache_hits_ h)
    (cache_misses_ h) (read_count h) (write_count h).
Definition with_counters (chain_ops quorum_ops hits misses : Z) (h : HybridProtocol) :=
  mkHybrid (node_ h) (chain_protocol_ h) (quorum_protocol_ h)
    (adaptive_switching_enabled_ h) (current_metrics_ h) (current_mode_ h)
    (read_preference_ h) (write_preference_ h) (intelligent_routing_enabled_ h)
    (caching_enabled_ h) (speculative_execution_enabled_ h) (cache_ h)
    (cache_ttl_ h) chain_ops quorum_ops hits misses (read_count h) (write_count h).
Definition with_metrics (m : AdaptiveMetrics) (reads writes : Z) (h : HybridProtocol) :=
  mkHybrid (node_ h) (chain_protocol_ h) (quorum_protocol_ h)
    (adaptive_switching_enabled_ h) m (current_mode_ h)
    (read_preference_ h) (write_preference_ h) (intelligent_routing_enabled_ h)
    (caching_enabled_ h) (speculative_execution_enabled_ h) (cache_ h)
    (cache_ttl_ h) (chain_operations_ h) (quorum_operations_ h) (cache_hits_ h)
    (cache_misses_ h) reads writes.
Definition with_settings (adaptive : bool) (rp wp : Msg.ReplicationMode)
    (routing caching : bool) (h : HybridProtocol) :=
  mkHybrid (node_ h) (chain_protocol_ h) (quorum_protocol_ h)
    adaptive (current_metrics_ h) (current_mode_ h) rp wp routing caching
    (speculative_execution_enabled_ h) (cache_ h)
    (cache_ttl_ h) (chain_operations_ h) (quorum_operations_ h) (cache_hits_ h)
    (cache_misses_ h) (read_count h) (write_count h).

Definition enable_adaptive_switching (b : bool) (h : HybridProtocol) :=
  with_settings b (read_preference_ h) (write_preference_ h)
    (intelligent_routing_enabled_ h) (caching_enabled_ h) h.
Definition enable_intelligent_routing (b : bool) (h : HybridProtocol) :=
  with_settings (adaptive_switching_enabled_ h) (read_preference_ h)
    (write_preference_ h) b (caching_enabled_ h) h.
Definition enable_caching (b : bool) (h : HybridProtocol) :=
  with_settings (adaptive_switching_enabled_ h) (read_preference_ h)
    (write_preference_ h) (intelligent_routing_enabled_ h) b h.
Definition set_read_preference (m : Msg.ReplicationMode) (h : HybridProtocol) :=
  with_settings (adaptive_switching_enabled_ h) m (write_preference_ h)
    (intelligent_routing_enabled_ h) (caching_enabled_ h) h.
Definition set_write_preference (m : Msg.ReplicationMode) (h : HybridProtocol) :=
  with_settings (adaptive_switching_enabled_ h) (read_preference_ h) m
    (intelligent_routing_enabled_ h) (caching_enabled_ h) h.

(** [decide_protocol_for_read] *)
Definition decide_protocol_for_read (h : HybridProtocol) : Msg.ReplicationMode :=
  if intelligent_routing_enabled_ h then
    if Quorum.Qltb (2 # 10) (network_partition_probability (current_metrics_ h))
    then Msg.CHAIN_ONLY
    else if pattern_eqb (pattern (current_metrics_ h)) READ_HEAVY
    then Msg.CHAIN_ONLY
    else read_preference_ h
  else read_preference_ h.

(** [decide_protocol_for_write] *)
Definition decide_protocol_for_write (h : HybridProtocol) : Msg.ReplicationMode :=
  if intelligent_routing_enabled_ h then
    if pattern_eqb (pattern (current_metrics_ h)) WRITE_HEAVY
    then Msg.QUORUM_ONLY
    else if pattern_eqb (pattern (current_metrics_ h)) BURSTY
    then Msg.CHAIN_ONLY
    else write_preference_ h
  else write_preference_ h.

(** [try_cache_read]: the age is computed on unsigned 64-bit values. *)
Definition try_cache_read (now : Z) (k : string) (h : HybridProtocol)
  : option string * HybridProtocol :=
  match cache_ h !! k with
  | Some (v, stored_at) =>
      if wrap64 (now - stored_at) <? cache_ttl_ h then (Some v, h)
      else (None, with_cache (delete k (cache_ h)) h)
  | None => (None, h)
  end.

(** The scan of [update_cache] for the entry to evict: the first entry,
    in iteration order, with the smallest time. *)
Definition oldest_entry (entries : list (string * (string * Z))) : option string :=
  match entries with
  | [] => None
  | e :: rest =>
      Some (fst (fold_left (fun oldest it =>
                              if snd (snd it) <? snd (snd oldest) then it else oldest)
                           rest e))
  end.

(** [update_cache] *)
Definition update_cache (now : Z) (k v : string) (h : HybridProtocol) : HybridProtocol :=
  let c1 := <[k := (v, now)]> (cache_ h) in
  let c2 :=
    if Z.of_nat (size c1) >? 1000 then
      match oldest_entry (map_to_list c1) with
      | Some old => delete old c1
      | None => c1
      end
    else c1 in
  with_cache c2 h.

(** [update_performance_metrics]; [latency] is in microseconds. *)
Definition update_performance_metrics (request : Msg.Message) (latency : Z)
    (h : HybridProtocol) : HybridProtocol :=
  let m := current_metrics_ h in
  let avg := (average_latency m * (9 # 10) + (inject_Z latency / 1000) * (1 # 10))%Q in
  let reads :=
    if Msg.is_read_operation request then wrap64 (read_count h + 1)
    else read_count h in
  let writes :=
    if Msg.is_read_operation request then write_count h
    else if Msg.is_write_operation request then wrap64 (write_count h + 1)
    else write_count h in
  let ratio :=
    if writes >? 0 then Qmake reads (Z.to_pos writes)
    else read_write_ratio m in
  with_metrics
    (mkAdaptiveMetrics ratio avg (throughput m)
       (network_partition_probability m) (active_nodes m) (pattern m))
    reads writes h.

(** [process_read]; [now] is the clock at entry and [t_end sch] the clock
    when the selected coordinator has answered. *)
Definition process_read (now : Z) (sch : Quorum.Schedule)
    (request response : Msg.Message) (h : HybridProtocol)
  : bool * Msg.Message * HybridProtocol :=
  let lookup :=
    if caching_enabled_ h then
      match try_cache_read now (Msg.key request) h with
      | (Some cached_value, h1) => inl (cached_value, h1)
      | (None, h1) =>
          inr (with_counters (chain_operations_ h1) (quorum_operations_ h1)
                 (cache_hits_ h1) (wrap64 (cache_misses_ h1 + 1)) h1)
      end
    else inr h in
  match lookup with
  | inl (cached_value, h1) =>
      let r1 := Msg.set_type Msg.READ_RESPONSE response in
      let r2 := Msg.set_sender_id (NodeM.get_node_id (node_ h1)) r1 in
      let r3 := Msg.set_timestamp now r2 in
      let r4 := Msg.set_key (Msg.key request) r3 in
      let r5 := Msg.set_value cached_value r4 in
      (true, Msg.set_success true r5,
       with_counters (chain_operations_ h1) (quorum_operations_ h1)
         (wrap64 (cache_hits_ h1 + 1)) (cache_misses_ h1) h1)
  | inr h1 =>
      let mode :=
        if adaptive_switching_enabled_ h1 then decide_protocol_for_read h1
        else read_preference_ h1 in
      let '(success, r, h2) :=
        if Msg.mode_eqb mode Msg.CHAIN_ONLY
           || (Msg.mode_eqb mode Msg.HYBRID_AUTO
               && Quorum.Qltb 2 (read_write_ratio (current_metrics_ h1)))
        then
          let '(ok, r, c, n) :=
            Chain.process_read now request response (chain_protocol_ h1) (node_ h1) in
          (ok, r,
           with_counters (wrap64 (chain_operations_ h1 + 1)) (quorum_operations_ h1)
             (cache_hits_ h1) (cache_misses_ h1)
             (with_protocols n c (quorum_protocol_ h1) h1))
        else if Msg.mode_eqb mode Msg.QUORUM_ONLY || Msg.mode_eqb mode Msg.HYBRID_AUTO
        then
          let '(ok, r, q, n) :=
            Quorum.process_read now sch request response (quorum_protocol_ h1) (node_ h1) in
          (ok, r,
           with_counters (chain_operations_ h1) (wrap64 (quorum_operations_ h1 + 1))
             (cache_hits_ h1) (cache_misses_ h1)
             (with_protocols n (chain_protocol_ h1) q h1))
        else (false, response, h1) in
      let h3 :=
        if success && caching_enabled_ h2
        then update_cache (Quorum.t_end sch) (Msg.key request) (Msg.value r) h2
        else h2 in
      (success, r, update_performance_metrics request (Quorum.t_end sch - now) h3)
  end.

(** [process_write] *)
Definition process_write (now : Z) (sch : Quorum.Schedule)
    (request response : Msg.Message) (h : HybridProtocol)
  : bool * Msg.Message * HybridProtocol :=
  let h1 :=
    if caching_enabled_ h then with_cache (delete (Msg.key request) (cache_ h)) h
    else h in
  let mode :=
    if adaptive_switching_enabled_ h1 then decide_protocol_for_write h1
    else write_preference_ h1 in
  let '(success, r, h2) :=
    if Msg.mode_eqb mode Msg.CHAIN_ONLY
       || (Msg.mode_eqb mode Msg.HYBRID_AUTO
           && Quorum.Qltb (3 # 10) (network_partition_probability (current_metrics_ h1)))
    then
      let '(ok, r, c, n) :=
        Chain.process_write now request response (chain_protocol_ h1) (node_ h1) in
      (ok, r,
       with_counters (wrap64 (chain_operations_ h1 + 1)) (quorum_operations_ h1)
         (cache_hits_ h1) (cache_misses_ h1)
         (with_protocols n c (quorum_protocol_ h1) h1))
    else if Msg.mode_eqb mode Msg.QUORUM_ONLY || Msg.mode_eqb mode Msg.HYBRID_AUTO
    then
      let '(ok, r, q, n) :=
        Quorum.process_write now sch request response (quorum_protocol_ h1) (node_ h1) in
      (ok, r,
       with_counters (chain_operations_ h1) (wrap64 (quorum_operations_ h1 + 1))
         (cache_hits_ h1) (cache_misses_ h1)
         (with_protocols n (chain_protocol_ h1) q h1))
    else (false, response, h1) in
  (success, r, update_performance_metrics request (Quorum.t_end sch - now) h2).

End Hybrid.

(** ** The metrics pipeline (include/performance/metrics.h,
       src/performance/metrics.cpp) *)

Module Metrics.

(** [value_size] is never assigned nor read by the pipeline and is left
    out. *)
Record OperationMetrics := mkOperationMetrics {
  start_time : Z;
  end_time : Z;
  operation_type : Msg.MessageType;
  success : bool;
  key : string;
  hops : Z;
  mode_used : Msg.ReplicationMode
}.

(** [OperationMetrics::get_latency_ms] *)
Definition get_latency_ms (op : OperationMetrics) : Z :=
  wrap64 (end_time op - start_time op) / 1000.

(** The counters are [atomic<uint64_t>]; the latency sums are doubles that
    only ever receive whole numbers of milliseconds.  The resource gauges
    and the alert thresholds play no part in operation tracking and are
    left out. *)
Record PerformanceMonitor := mkMonitor {
  active_operations_ : gmap Z OperationMetrics;
  completed_operations_ : list OperationMetrics;
  total_operations_ : Z;
  successful_operations_ : Z;
  failed_operations_ : Z;
  cumulative_latency_ : Z;
  chain_operations_ : Z;
  quorum_operations_ : Z;
  hybrid_operations_ : Z;
  chain_latency_ : Z;
  quorum_latency_ : Z;
  hybrid_latency_ : Z;
  start_time_ : Z
}.

(** The constructor; [now] is the clock it reads. *)
Definition new_monitor (now : Z) : PerformanceMonitor :=
  mkMonitor ∅ [] 0 0 0 0 0 0 0 0 0 0 now.

(** [start_operation] *)
Definition start_operation (now : Z) (operation_id : Z) (ty : Msg.MessageType)
    (k : string) (pm : PerformanceMonitor) : PerformanceMonitor :=
  let metrics := mkOperationMetrics now 0 ty false k 0 Msg.HYBRID_AUTO in
  mkMonitor (<[operation_id := metrics]> (active_operations_ pm))
    (completed_operations_ pm)
    (wrap64 (total_operations_ pm + 1))
    (successful_operations_ pm) (failed_operations_ pm)
    (cumulative_latency_ pm) (chain_operations_ pm) (quorum_operations_ pm)
    (hybrid_operations_ pm) (chain_latency_ pm) (quorum_latency_ pm)
    (hybrid_latency_ pm) (start_time_ pm).

(** [end_operation] *)
Definition end_operation (now : Z) (operation_id : Z) (ok : bool)
    (mode : Msg.ReplicationMode) (nhops : Z) (pm : PerformanceMonitor)
  : PerformanceMonitor :=
  match active_operations_ pm !! operation_id with
  | Some op =>
      let op1 := mkOperationMetrics (start_time op) now (operation_type op)
                   ok (key op) nhops mode in
      let latency := get_latency_ms op1 in
      let completed := completed_operations_ pm ++ [op1] in
      mkMonitor (delete operation_id (active_operations_ pm))
        (if vsize completed >? 10000 then tl completed else completed)
        (total_operations_ pm)
        (if ok then wrap64 (successful_operations_ pm + 1)
         else successful_operations_ pm)
        (if ok then failed_operations_ pm
         else wrap64 (failed_operations_ pm + 1))
        (cumulative_latency_ pm + latency)
        (match mode with
         | Msg.CHAIN_ONLY => wrap64 (chain_operations_ pm + 1)
         | _ => chain_operations_ pm end)
        (match mode with
         | Msg.QUORUM_ONLY => wrap64 (quorum_operations_ pm + 1)
         | _ => quorum_operations_ pm end)
        (match mode with
         | Msg.HYBRID_AUTO => wrap64 (hybrid_operations_ pm + 1)
         | _ => hybrid_operations_ pm end)
        (match mode with
         | Msg.CHAIN_ONLY => chain_latency_ pm + latency
         | _ => chain_latency_ pm end)
        (match mode with
         | Msg.QUORUM_ONLY => quorum_latency_ pm + latency
         | _ => quorum_latency_ pm end)
        (match mode with
         | Msg.HYBRID_AUTO => hybrid_latency_ pm + latency
         | _ => hybrid_latency_ pm end)
        (start_time_ pm)
  | None => pm
  end.

(** [get_success_rate] *)
Definition get_success_rate (pm : PerformanceMonitor) : Q :=
  if total_operations_ pm >? 0
  then Qmake (successful_operations_ pm) (Z.to_pos (total_operations_ pm))
  else 0%Q.

(** The calls that drive the pipeline, each with the clock it reads. *)
Inductive Call :=
  | StartOperation (now : Z) (operation_id : Z) (ty : Msg.MessageType) (k : string)
  | EndOperation (now : Z) (operation_id : Z) (ok : bool)
      (mode : Msg.ReplicationMode) (nhops : Z).

Definition apply_call (pm : PerformanceMonitor) (c : Call) : PerformanceMonitor :=
  match c with
  | StartOperation now id ty k => start_operation now id ty k pm
  | EndOperation now id ok mode nhops => end_operation now id ok mode nhops pm
  end.

(** The state after a sequence of calls on a fresh monitor. *)
Definition after_calls (t0 : Z) (cs : list Call) : PerformanceMonitor :=
  fold_left apply_call cs (new_monitor t0).

End Metrics.


(** ** Call sequences and sample states *)

(** The fault-tolerance calls of the quorum coordinator. *)
Inductive FaultCall :=
  | NodeFailure (id : Z)
  | NodeRecovery (id : Z).

(** The calls that change the quorum membership. *)
Inductive MembershipCall :=
  | Fault (f : FaultCall)
  | UpdateNodes (nodes : list Z).

Definition apply_fault (q : Quorum.QuorumReplication) (f : FaultCall)
  : Quorum.QuorumReplication :=
  match f with
  | NodeFailure id => Quorum.handle_node_failure id q
  | NodeRecovery id => Quorum.handle_node_recovery id q
  end.

Definition apply_membership (q : Quorum.QuorumReplication) (c : MembershipCall)
  : Quorum.QuorumReplication :=
  match c with
  | Fault f => apply_fault q f
  | UpdateNodes nodes => Quorum.update_quorum_nodes nodes q
  end.

(** The natural majority of the current members. *)
Definition natural_majority (q : Quorum.QuorumReplication) : Z :=
  vsize (Quorum.quorum_nodes_ q) / 2 + 1.

Definition majority_sized (q : Quorum.QuorumReplication) : Prop :=
  Quorum.quorum_size_ q = natural_majority q.



(** A schedule in which no other thread does anything. *)
Definition idle (polls : nat) (t_end : Z) : Quorum.Schedule :=
  Quorum.mkSchedule (repeat [] polls) [] t_end.

Definition write_request (k v : string) : Msg.Message :=
  Msg.set_value v (Msg.set_key k (Msg.set_type Msg.WRITE_REQUEST Msg.new_message)).

Definition read_request (k : string) : Msg.Message :=
  Msg.set_key k (Msg.set_type Msg.READ_REQUEST Msg.new_message).

(** A single-member coordinator after one successful write. *)
Definition one_node_after_write : Quorum.QuorumReplication :=
  let '(_, _, q, _) :=
    Quorum.process_write 0 (idle 0 0) (write_request "k" "v") Msg.new_message
      (Quorum.new_quorum [1]) (NodeM.new_node 1) in
  q.

(** The same coordinator after node 2 has joined. *)
Definition two_nodes_after_write : Quorum.QuorumReplication :=
  Quorum.handle_node_recovery 2 one_node_after_write.

(** Seven members with seven successful and three failed rounds. *)
Definition seven_at_70_percent : Quorum.QuorumReplication :=
  Quorum.set_counters 7 3 [] (Quorum.new_quorum [1; 2; 3; 4; 5; 6; 7]).

(** A chain coordinator on node 1 whose only member, node 1, has failed. *)
Definition chain_after_all_failed : Chain.ChainReplication :=
  Chain.handle_node_failure (NodeM.new_node 1) 1
    (Chain.new_chain (NodeM.new_node 1) [1]).

(** The number of [start_operation] calls of a sequence that store an id
    which is still active, each overwriting an operation that was counted
    but can no longer be ended. *)
Fixpoint reused_ids (pm : Metrics.PerformanceMonitor) (cs : list Metrics.Call) : Z :=
  match cs with
  | [] => 0
  | c :: cs' =>
      (match c with
       | Metrics.StartOperation _ id _ _ =>
           match Metrics.active_operations_ pm !! id with
           | Some _ => 1
           | None => 0
           end
       | Metrics.EndOperation _ _ _ _ _ => 0
       end) + reused_ids (Metrics.apply_call pm c) cs'
  end.

(** The state of [Quorum.process_read] when its polling loop starts: the
    proposal number drawn, and the coordinator and node once the fast-path
    lookup (when attempted) has missed, the read proposal is stored and
    the prepare messages are sent. *)
Definition read_proposal_stored (now : Z) (request : Msg.Message)
    (q : Quorum.QuorumReplication) (n : NodeM.Node)
  : Z * (Quorum.QuorumReplication * NodeM.Node) :=
  let n1 :=
    if Quorum.read_optimization_enabled_ q && Quorum.can_use_fast_path request q
    then snd (NodeM.read (Msg.key request) n) else n in
  let '(proposal_num, q1) := Quorum.generate_proposal_number q in
  let read_state :=
    Quorum.mkQuorumState proposal_num Quorum.PREPARE (Msg.key request) "" ∅ ∅ now in
  let q2 := Quorum.set_active_proposals
              (<[proposal_num := read_state]> (Quorum.active_proposals_ q1)) q1 in
  (proposal_num,
   (q2, snd (Quorum.send_prepare_messages now proposal_num (Msg.key request) q2 n1))).

(** What a proposer keeps to itself: the proposal table, the counters and
    the recorded times. *)
Definition proposer_view (q : Quorum.QuorumReplication) :=
  (Quorum.active_proposals_ q, Quorum.next_proposal_number_ q,
   Quorum.successful_consensus_ q, Quorum.failed_consensus_ q,
   Quorum.consensus_times_ q).

(** Two members, read optimisation and fast quorum as the constructor
    leaves them, and a store that holds the key. *)
Definition two_member_quorum : Quorum.QuorumReplication := Quorum.new_quorum [1; 2].

Definition node_with_k : NodeM.Node :=
  snd (NodeM.write "k" "v" (NodeM.new_node 1)).

(** The dispatcher of the caching scenario: built by the constructor on a
    cluster whose only member is the node itself. *)
Definition single_node_dispatcher (n : NodeM.Node) : Hybrid.HybridProtocol :=
  Hybrid.new_hybrid n [NodeM.node_id_ n] [NodeM.node_id_ n].

(** What the caching scenario relies on and every request preserves:
    caching on, reads by CHAIN_ONLY preference, writes routed to the quorum
    coordinator, and both coordinators on the single member. *)
Record single_node_setup (h : Hybrid.HybridProtocol) : Prop := {
  sn_caching : Hybrid.caching_enabled_ h = true;
  sn_read_preference : Hybrid.read_preference_ h = Msg.CHAIN_ONLY;
  sn_write_preference : Hybrid.write_preference_ h = Msg.QUORUM_ONLY;
  sn_pattern : Hybrid.pattern (Hybrid.current_metrics_ h) <> Hybrid.BURSTY;
  sn_chain :
    Chain.chain_order_ (Hybrid.chain_protocol_ h) = [NodeM.node_id_ (Hybrid.node_ h)];
  sn_position : Chain.my_position_ (Hybrid.chain_protocol_ h) = 0;
  sn_quorum :
    Quorum.quorum_nodes_ (Hybrid.quorum_protocol_ h) = [NodeM.node_id_ (Hybrid.node_ h)]
}.

(** The dispatcher of the repository's caching test: a single member,
    caching on, adaptive switching off, reads and writes by CHAIN_ONLY
    preference; the chain coordinator batches writes. *)
Definition chain_write_dispatcher : Hybrid.HybridProtocol :=
  Hybrid.set_read_preference Msg.CHAIN_ONLY
    (Hybrid.set_write_preference Msg.CHAIN_ONLY
       (Hybrid.enable_adaptive_switching false
          (Hybrid.enable_caching true (single_node_dispatcher node_with_k)))).

(** Every character of a string passes a test. *)
Fixpoint all_chars (P : ascii -> bool) (s : string) : bool :=
  match s with
  | EmptyString => true
  | String c s' => P c && all_chars P s'
  end.

Definition differs (d : ascii) (c : ascii) : bool := negb (Ascii.eqb c d).

(** The accumulator of [Msg.get_digits] as a number. *)
Definition acc_val (acc : option Z) : Z :=
  match acc with Some a => a | None => 0 end.

(** What the counters of a monitor satisfy when no counter has wrapped:
    every counted operation has succeeded, failed, is still active, or
    was overwritten by a later start with the same id ([lost]). *)
Record counted (pm : Metrics.PerformanceMonitor) (lost : Z) : Prop := {
  counted_ok : 0 <= Metrics.successful_operations_ pm;
  counted_failed : 0 <= Metrics.failed_operations_ pm;
  counted_lost : 0 <= lost;
  counted_total :
    Metrics.successful_operations_ pm + Metrics.failed_operations_ pm
    + Z.of_nat (size (Metrics.active_operations_ pm)) + lost
    = Metrics.total_operations_ pm
}.

(** A promise, or an accepted message, from [sender] for proposal [pn]. *)
Definition promise_from (sender pn : Z) : Msg.Message :=
  Msg.set_success true
    (Msg.set_sequence_number pn
       (Msg.set_sender_id sender (Msg.set_type Msg.QUORUM_PROMISE Msg.new_message))).

Definition accepted_from (sender pn : Z) : Msg.Message :=
  Msg.set_success true
    (Msg.set_sequence_number pn
       (Msg.set_sender_id sender (Msg.set_type Msg.QUORUM_ACCEPTED Msg.new_message))).

(** Three members with the read fast path switched off. *)
Definition three_member_quorum : Quorum.QuorumReplication :=
  Quorum.enable_read_optimization false (Quorum.new_quorum [1; 2; 3]).

(** Both other members promise before the first poll and accept before
    the second. *)
Definition answered : Quorum.Schedule :=
  Quorum.mkSchedule
    [[Quorum.EvPromise 1 (promise_from 2 1); Quorum.EvPromise 2 (promise_from 3 1)];
     [Quorum.EvAccepted (accepted_from 2 1); Quorum.EvAccepted (accepted_from 3 1)]]
    [] 30.

(** ** The dispatcher's membership calls (src/protocols/hybrid_protocol.cpp) *)

Module HybridMore.

Definition set_active_nodes (a : Z) (m : Hybrid.AdaptiveMetrics) : Hybrid.AdaptiveMetrics :=
  Hybrid.mkAdaptiveMetrics (Hybrid.read_write_ratio m) (Hybrid.average_latency m)
    (Hybrid.throughput m) (Hybrid.network_partition_probability m) a
    (Hybrid.pattern m).

(** [HybridProtocol::handle_node_failure]: both coordinators are told, then
    [active_nodes], a [size_t], is decremented with a floor of one. *)
Definition handle_node_failure (failed_node : Z) (h : Hybrid.HybridProtocol)
  : Hybrid.HybridProtocol :=
  let c := Chain.handle_node_failure (Hybrid.node_ h) failed_node (Hybrid.chain_protocol_ h) in
  let q := Quorum.handle_node_failure failed_node (Hybrid.quorum_protocol_ h) in
  let h1 := Hybrid.with_protocols (Hybrid.node_ h) c q h in
  Hybrid.with_metrics
    (set_active_nodes
       (Z.max 1 (wrap64 (Hybrid.active_nodes (Hybrid.current_metrics_ h1) - 1)))
       (Hybrid.current_metrics_ h1))
    (Hybrid.read_count h1) (Hybrid.write_count h1) h1.

(** [HybridProtocol::handle_node_recovery] *)
Definition handle_node_recovery (recovered_node : Z) (h : Hybrid.HybridProtocol)
  : Hybrid.HybridProtocol :=
  let c := Chain.handle_node_recovery (Hybrid.node_ h) recovered_node (Hybrid.chain_protocol_ h) in
  let q := Quorum.handle_node_recovery recovered_node (Hybrid.quorum_protocol_ h) in
  let h1 := Hybrid.with_protocols (Hybrid.node_ h) c q h in
  Hybrid.with_metrics
    (set_active_nodes
       (wrap64 (Hybrid.active_nodes (Hybrid.current_metrics_ h1) + 1))
       (Hybrid.current_metrics_ h1))
    (Hybrid.read_count h1) (Hybrid.write_count h1) h1.

(** [update_chain_configuration] and [update_quorum_configuration] *)
Definition update_chain_configuration (new_chain : list Z) (h : Hybrid.HybridProtocol) :=
  Hybrid.with_protocols (Hybrid.node_ h)
    (Chain.update_chain_order (Hybrid.node_ h) new_chain (Hybrid.chain_protocol_ h))
    (Hybrid.quorum_protocol_ h) h.

Definition update_quorum_configuration (new_quorum : list Z) (h : Hybrid.HybridProtocol) :=
  Hybrid.with_protocols (Hybrid.node_ h) (Hybrid.chain_protocol_ h)
    (Quorum.update_quorum_nodes new_quorum (Hybrid.quorum_protocol_ h)) h.

End HybridMore.

(** ** The peer directory and the send path
       (include/network/network_manager.h, src/network/network_manager.cpp) *)

Module Network.

Record NodeEndpoint := mkEndpoint {
  hostname : string;
  port : Z;                               (* uint16_t *)
  is_active : bool;
  last_heartbeat : Z
}.

(** The constructor with a host and a port: the peer starts active. *)
Definition new_endpoint (host : string) (p : Z) : NodeEndpoint :=
  mkEndpoint host p true 0.

(** The registry, the per-peer batches and the per-peer statistics.  The
    threads, the connection pool and the tuning scalars that no modelled
    function reads are left out. *)
Record NetworkManager := mkNetwork {
  node_id_ : Z;
  running_ : bool;
  message_batching_enabled_ : bool;
  known_nodes_ : gmap Z NodeEndpoint;
  pending_batches_ : gmap Z (list Msg.Message);
  latency_history_ : gmap Z (list Z);
  message_counts_ : gmap Z Z;
  failed_sends_ : gmap Z Z
}.


Definition enable_message_batching (b : bool) (nm : NetworkManager) :=
  mkNetwork (node_id_ nm) (running_ nm) b (known_nodes_ nm)
    (pending_batches_ nm) (latency_history_ nm) (message_counts_ nm)
    (failed_sends_ nm).
Definition set_known_nodes (k : gmap Z NodeEndpoint) (nm : NetworkManager) :=
  mkNetwork (node_id_ nm) (running_ nm) (message_batching_enabled_ nm) k
    (pending_batches_ nm) (latency_history_ nm) (message_counts_ nm)
    (failed_sends_ nm).
Definition set_pending_batches (p : gmap Z (list Msg.Message)) (nm : NetworkManager) :=
  mkNetwork (node_id_ nm) (running_ nm) (message_batching_enabled_ nm)
    (known_nodes_ nm) p (latency_history_ nm) (message_counts_ nm)
    (failed_sends_ nm).
Definition set_stats (h : gmap Z (list Z)) (c f : gmap Z Z) (nm : NetworkManager) :=
  mkNetwork (node_id_ nm) (running_ nm) (message_batching_enabled_ nm)
    (known_nodes_ nm) (pending_batches_ nm) h c f.

(** [add_node] *)
Definition add_node (id : Z) (host : string) (p : Z) (nm : NetworkManager) :=
  set_known_nodes (<[id := new_endpoint host p]> (known_nodes_ nm)) nm.

(** [remove_node] *)
Definition remove_node (id : Z) (nm : NetworkManager) :=
  set_known_nodes (delete id (known_nodes_ nm)) nm.

(** [is_node_reachable] *)
Definition is_node_reachable (id : Z) (nm : NetworkManager) : bool :=
  match known_nodes_ nm !! id with
  | Some e => is_active e
  | None => false
  end.

(** [update_node_status]; [now] is the clock in milliseconds. *)
Definition update_node_status (now : Z) (id : Z) (active : bool) (nm : NetworkManager) :=
  match known_nodes_ nm !! id with
  | Some e =>
      set_known_nodes
        (<[id := mkEndpoint (hostname e) (port e) active
                   (if active then now else last_heartbeat e)]> (known_nodes_ nm))
        nm
  | None => nm
  end.

(** [handle_heartbeat] *)
Definition handle_heartbeat (now : Z) (sender_node : Z) (nm : NetworkManager) :=
  update_node_status now sender_node true nm.

(** [process_message_batch]: a non-empty batch is cleared; the test for
    emptiness goes through [operator[]], which creates an empty entry for
    a target that has none. *)
Definition process_message_batch (target : Z) (nm : NetworkManager) :=
  match pending_batches_ nm !! target with
  | Some [] => nm
  | _ => set_pending_batches (<[target := []]> (pending_batches_ nm)) nm
  end.

(** [send_message] *)
Definition send_message (target : Z) (m : Msg.Message) (nm : NetworkManager)
  : bool * NetworkManager :=
  if negb (running_ nm) then (false, nm)
  else if message_batching_enabled_ nm then
    let batch := default [] (pending_batches_ nm !! target) ++ [m] in
    let nm1 := set_pending_batches (<[target := batch]> (pending_batches_ nm)) nm in
    (true, if vsize batch >=? 10 then process_message_batch target nm1 else nm1)
  else
    (true,
     set_stats (latency_history_ nm)
       (<[target := wrap64 (default 0 (message_counts_ nm !! target) + 1)]> (message_counts_ nm))
       (failed_sends_ nm) nm).

(** [broadcast_message] *)
Definition broadcast_message (targets : list Z) (m : Msg.Message) (nm : NetworkManager)
  : bool * NetworkManager :=
  fold_left (fun acc id =>
               if negb (id =? node_id_ (snd acc)) then
                 let '(ok, nm') := send_message id m (snd acc) in
                 (if negb ok then false else fst acc, nm')
               else acc)
            targets (true, nm).

(** [update_network_stats] *)
Definition update_network_stats (target : Z) (latency : Z) (ok : bool)
    (nm : NetworkManager) : NetworkManager :=
  let h1 := default [] (latency_history_ nm !! target) ++ [latency] in
  let h2 := if vsize h1 >? 100 then tl h1 else h1 in
  set_stats (<[target := h2]> (latency_history_ nm))
    (<[target := wrap64 (default 0 (message_counts_ nm !! target) + 1)]> (message_counts_ nm))
    (if ok then failed_sends_ nm
     else <[target := wrap64 (default 0 (failed_sends_ nm !! target) + 1)]> (failed_sends_ nm))
    nm.

(** The calls on the send path. *)
Inductive Call :=
  | Send (target : Z) (m : Msg.Message)
  | Broadcast (targets : list Z) (m : Msg.Message)
  | Flush (target : Z)
  | Stats (target : Z) (latency : Z) (ok : bool).

Definition apply_call (nm : NetworkManager) (c : Call) : NetworkManager :=
  match c with
  | Send target m => snd (send_message target m nm)
  | Broadcast targets m => snd (broadcast_message targets m nm)
  | Flush target => process_message_batch target nm
  | Stats target latency ok => update_network_stats target latency ok nm
  end.

End Network.

(** ** Cluster membership of a node (src/core/node.cpp) *)

Module Cluster.

Record Membership := mkMembership {
  leader_id_ : Z;
  cluster_nodes_ : list Z
}.

(** The constructor: the first listed node leads. *)
Definition new_membership (cluster_nodes : list Z) : Membership :=
  mkMembership (match cluster_nodes with x :: _ => x | [] => 0 end) cluster_nodes.

(** [Node::handle_node_failure] *)
Definition handle_node_failure (failed_node : Z) (m : Membership) : Membership :=
  let nodes :=
    if Chain.contains failed_node (cluster_nodes_ m)
    then Chain.erase_first failed_node (cluster_nodes_ m)
    else cluster_nodes_ m in
  match nodes with
  | first :: _ =>
      if failed_node =? leader_id_ m then mkMembership first nodes
      else mkMembership (leader_id_ m) nodes
  | [] => mkMembership (leader_id_ m) nodes
  end.

(** Insertion into an ascending list; [std::sort] on integers has one
    possible result, the ascending arrangement. *)
Fixpoint insert_sorted (x : Z) (l : list Z) : list Z :=
  match l with
  | [] => [x]
  | y :: l' => if x <=? y then x :: l else y :: insert_sorted x l'
  end.

Definition sort (l : list Z) : list Z := fold_right insert_sorted [] l.

(** [Node::handle_node_recovery] *)
Definition handle_node_recovery (recovered_node : Z) (m : Membership) : Membership :=
  if Chain.contains recovered_node (cluster_nodes_ m) then m
  else mkMembership (leader_id_ m) (sort (cluster_nodes_ m ++ [recovered_node])).

End Cluster.

(** ** Ghost views used by the statements *)

(** The senders of the accepted messages for proposal [pn] among the
    calls [evs]. *)
Fixpoint accepted_senders (pn : Z) (evs : list Quorum.Event) : gset Z :=
  match evs with
  | [] => ∅
  | Quorum.EvAccepted m :: evs' =>
      if Msg.sequence_number m =? pn
      then {[Msg.sender_id m]} ∪ accepted_senders pn evs'
      else accepted_senders pn evs'
  | _ :: evs' => accepted_senders pn evs'
  end.

(** The sequence number an answer carries. *)
Definition response_number (e : Quorum.Event) : option Z :=
  match e with
  | Quorum.EvPromise _ m | Quorum.EvAccepted m => Some (Msg.sequence_number m)
  | _ => None
  end.

(** The counters of the quorum coordinator. *)
Definition consensus_counters (q : Quorum.QuorumReplication) :=
  (Quorum.next_proposal_number_ q, Quorum.successful_consensus_ q,
   Quorum.failed_consensus_ q).

(** The state of [Quorum.initiate_consensus] when its polling loop starts. *)
Definition write_proposal_stored (now : Z) (k v : string)
    (q : Quorum.QuorumReplication) (n : NodeM.Node)
  : Z * (Quorum.QuorumReplication * NodeM.Node) :=
  let '(proposal_num, q1) := Quorum.generate_proposal_number q in
  let write_state := Quorum.mkQuorumState proposal_num Quorum.PREPARE k v ∅ ∅ now in
  let q2 := Quorum.set_active_proposals
              (<[proposal_num := write_state]> (Quorum.active_proposals_ q1)) q1 in
  (proposal_num, (q2, snd (Quorum.send_prepare_messages now proposal_num k q2 n))).

(** The position that [Chain.find_my_position] leaves is the first index
    of the node in a chain shorter than 2^32. *)
Record positioned (id : Z) (c : Chain.ChainReplication) : Prop := {
  pos_range : 0 <= Chain.my_position_ c <= vsize (Chain.chain_order_ c);
  pos_short : vsize (Chain.chain_order_ c) < 2 ^ 32;
  pos_found :
    Chain.my_position_ c < vsize (Chain.chain_order_ c) ->
    nth (Z.to_nat (Chain.my_position_ c)) (Chain.chain_order_ c) 0 = id /\
    ~ In id (firstn (Z.to_nat (Chain.my_position_ c)) (Chain.chain_order_ c));
  pos_absent :
    Chain.my_position_ c = vsize (Chain.chain_order_ c) ->
    ~ In id (Chain.chain_order_ c)
}.



(** The leader of a non-empty cluster is one of its members. *)
Definition leader_is_member (m : Cluster.Membership) : Prop :=
  In (Cluster.leader_id_ m) (Cluster.cluster_nodes_ m).

(** What the polling loop of [Quorum.process_read] leaves: a return from
    inside the loop is a counted success; leaving the loop counts
    nothing. *)
Definition read_poll_outcome (response : Msg.Message) (q : Quorum.QuorumReplication)
    (res : (bool * Msg.Message * Quorum.QuorumReplication * NodeM.Node)
           + (Msg.Message * Quorum.QuorumReplication * NodeM.Node)) : Prop :=
  match res with
  | inl (ok, r, q', _) =>
      ok = true /\ Msg.success r = true /\ Msg.type r = Msg.type response /\
      Quorum.next_proposal_number_ q' = Quorum.next_proposal_number_ q /\
      Quorum.successful_consensus_ q' = wrap64 (Quorum.successful_consensus_ q + 1) /\
      Quorum.failed_consensus_ q' = Quorum.failed_consensus_ q
  | inr (r, q', _) => r = response /\ consensus_counters q' = consensus_counters q
  end.

(** The calls that change the chain of a chain coordinator on node [n]. *)
Inductive ChainCall :=
  | ChainUpdate (new_chain : list Z)
  | ChainFailure (id : Z)
  | ChainRecovery (id : Z).

Definition apply_chain_call (n : NodeM.Node) (c : Chain.ChainReplication)
    (call : ChainCall) : Chain.ChainReplication :=
  match call with
  | ChainUpdate new_chain => Chain.update_chain_order n new_chain c
  | ChainFailure id => Chain.handle_node_failure n id c
  | ChainRecovery id => Chain.handle_node_recovery n id c
  end.

(** The store after the writes of a batch, applied in order. *)
Definition apply_writes (batch : list Msg.Message) (store : gmap string string)
  : gmap string string :=
  fold_left (fun s m => <[Msg.key m := Msg.value m]> s) batch store.

(** The copy of a write that the head forwards down the chain. *)
Definition forwarded (sender : Z) (m : Msg.Message) : Msg.Message :=
  Msg.set_sender_id sender (Msg.set_type Msg.CHAIN_FORWARD m).

(** The operations on the local store of a node, and [Node::get_success_rate]. *)
Inductive StoreCall :=
  | StoreRead (k : string)
  | StoreWrite (k v : string)
  | StoreDelete (k : string).

Definition apply_store_call (n : NodeM.Node) (c : StoreCall) : NodeM.Node :=
  match c with
  | StoreRead k => snd (NodeM.read k n)
  | StoreWrite k v => snd (NodeM.write k v n)
  | StoreDelete k => snd (NodeM.delete_key k n)
  end.

Definition node_success_rate (n : NodeM.Node) : Q :=
  if NodeM.operation_count_ n =? 0 then 0%Q
  else Qmake (NodeM.success_count_ n) (Z.to_pos (NodeM.operation_count_ n)).

(** The calls that change the cluster list of a node. *)
Inductive ClusterCall :=
  | ClusterFailure (id : Z)
  | ClusterRecovery (id : Z).

Definition apply_cluster_call (m : Cluster.Membership) (c : ClusterCall)
  : Cluster.Membership :=
  match c with
  | ClusterFailure id => Cluster.handle_node_failure id m
  | ClusterRecovery id => Cluster.handle_node_recovery id m
  end.

(** A list in ascending order: every element is at most every later one. *)
Fixpoint ascending (l : list Z) : Prop :=
  match l with
  | [] => True
  | x :: l' => Forall (Z.le x) l' /\ ascending l'
  end.

(** What the fields that [Msg.deserialize] reads after the key leave
    alone: the kind, the sender, the receiver and the key read so far. *)
Definition head_fields (ty : Msg.MessageType) (snd rcv : Z) (k : string)
    (st : option (Msg.Message * Msg.istream)) : Prop :=
  match st with
  | Some (msg, _) =>
      Msg.type msg = ty /\ Msg.sender_id msg = snd /\
      Msg.receiver_id msg = rcv /\ Msg.key msg = k
  | None => True
  end.

(** What the per-mode counters of a monitor satisfy when no counter has
    wrapped: every ended operation is counted under exactly one mode, with
    its latency, and the completed list holds the ended operations up to
    its bound. *)
Record mode_split (pm : Metrics.PerformanceMonitor) : Prop := {
  ms_chain : 0 <= Metrics.chain_operations_ pm;
  ms_quorum : 0 <= Metrics.quorum_operations_ pm;
  ms_hybrid : 0 <= Metrics.hybrid_operations_ pm;
  ms_count :
    Metrics.chain_operations_ pm + Metrics.quorum_operations_ pm
    + Metrics.hybrid_operations_ pm
    = Metrics.successful_operations_ pm + Metrics.failed_operations_ pm;
  ms_chain_latency : 0 <= Metrics.chain_latency_ pm;
  ms_quorum_latency : 0 <= Metrics.quorum_latency_ pm;
  ms_hybrid_latency : 0 <= Metrics.hybrid_latency_ pm;
  ms_latency :
    Metrics.chain_latency_ pm + Metrics.quorum_latency_ pm + Metrics.hybrid_latency_ pm
    = Metrics.cumulative_latency_ pm;
  ms_completed :
    vsize (Metrics.completed_operations_ pm)
    = Z.min 10000 (Metrics.successful_operations_ pm + Metrics.failed_operations_ pm)
}.

(** * Properties of the quorum coordinator: membership and sizing *)

Section QuorumMembership.

Import Quorum.

Lemma ge_bool_iff (a b : Z) : (a >=? b) = true <-> b <= a.
Proof. rewrite Z.geb_leb. apply Z.leb_le. Qed.

(** Majority detection compares the tally with the natural majority of the
    member count that the caller passes. *)
Lemma has_majority_spec (p : QuorumState) (total : Z) :
  has_majority p total = true <-> total / 2 + 1 <= Z.of_nat (size (promised_nodes p)).
Proof. unfold has_majority. apply ge_bool_iff. Qed.

Lemma has_accept_majority_spec (p : QuorumState) (total : Z) :
  has_accept_majority p total = true <-> total / 2 + 1 <= Z.of_nat (size (accepted_nodes p)).
Proof. unfold has_accept_majority. apply ge_bool_iff. Qed.




(** *** Membership changes *)

Lemma new_quorum_sized (nodes : list Z) : majority_sized (new_quorum nodes).
Proof. reflexivity. Qed.

Lemma update_quorum_nodes_sized (nodes : list Z) (q : QuorumReplication) :
  majority_sized (update_quorum_nodes nodes q).
Proof. reflexivity. Qed.

Lemma recovery_sized (id : Z) (q : QuorumReplication) :
  majority_sized q -> majority_sized (handle_node_recovery id q).
Proof.
  intros H. unfold handle_node_recovery.
  destruct (negb (is_in_quorum id q)); [reflexivity | exact H].
Qed.

Lemma recovery_of_absent_sized (id : Z) (q : QuorumReplication) :
  is_in_quorum id q = false -> majority_sized (handle_node_recovery id q).
Proof. intros H. unfold handle_node_recovery. rewrite H. reflexivity. Qed.

Lemma failure_sized_static (id : Z) (q : QuorumReplication) :
  adaptive_quorum_enabled_ q = false ->
  majority_sized q -> majority_sized (handle_node_failure id q).
Proof.
  intros Had H. unfold handle_node_failure.
  destruct (Chain.contains id (quorum_nodes_ q)); [|exact H].
  cbn [adaptive_quorum_enabled_ set_members]. rewrite Had. reflexivity.
Qed.

Lemma membership_keeps_adaptive_flag (c : MembershipCall) (q : QuorumReplication) :
  adaptive_quorum_enabled_ (apply_membership q c) = adaptive_quorum_enabled_ q.
Proof.
  destruct c as [[id|id]|nodes]; cbn; [| |reflexivity].
  - unfold handle_node_failure.
    destruct (Chain.contains id (quorum_nodes_ q)); [|reflexivity].
    cbn [adaptive_quorum_enabled_ set_members].
    destruct (adaptive_quorum_enabled_ q) eqn:E; [|exact E].
    unfold adjust_quorum_size_based_on_load.
    match goal with |- context [if ?b then _ else _] => destruct b end; exact E.
  - unfold handle_node_recovery.
    destruct (negb (is_in_quorum id q)); reflexivity.
Qed.

Lemma membership_sized_static (calls : list MembershipCall) :
  forall q, adaptive_quorum_enabled_ q = false -> majority_sized q ->
            majority_sized (fold_left apply_membership calls q).
Proof.
  induction calls as [|c calls IH]; intros q Had H; [exact H|].
  cbn [fold_left]. apply IH.
  - rewrite membership_keeps_adaptive_flag. exact Had.
  - destruct c as [[id|id]|nodes]; cbn.
    + apply failure_sized_static; assumption.
    + apply recovery_sized; assumption.
    + apply update_quorum_nodes_sized.
Qed.

(** C2, as stated, fails with adaptive quorum enabled (the default): the
    failure of one of eight members leaves seven members and a quorum size
    of 5, not floor(7/2)+1 = 4. *)
Lemma adaptive_failure_leaves_other_quorum_size :
  adaptive_quorum_enabled_ (new_quorum [1; 2; 3; 4; 5; 6; 7; 8]) = true /\
  vsize (quorum_nodes_ (apply_membership (new_quorum [1; 2; 3; 4; 5; 6; 7; 8])
                          (Fault (NodeFailure 8)))) = 7 /\
  quorum_size_ (apply_membership (new_quorum [1; 2; 3; 4; 5; 6; 7; 8])
                  (Fault (NodeFailure 8))) = 5 /\
  ~ majority_sized (apply_membership (new_quorum [1; 2; 3; 4; 5; 6; 7; 8])
                      (Fault (NodeFailure 8))).
Proof.
  repeat split; try reflexivity.
  intros H. unfold majority_sized, natural_majority in H.
  vm_compute in H. discriminate H.
Qed.

Lemma change_sized_static (c : MembershipCall) (q : QuorumReplication) :
  adaptive_quorum_enabled_ q = false ->
  quorum_nodes_ (apply_membership q c) <> quorum_nodes_ q ->
  majority_sized (apply_membership q c).
Proof.
  intros Had Hchange. destruct c as [[id|id]|nodes]; cbn in *.
  - unfold handle_node_failure in *.
    destruct (Chain.contains id (quorum_nodes_ q)); [|congruence].
    cbn [adaptive_quorum_enabled_ set_members] in *. rewrite Had. reflexivity.
  - unfold handle_node_recovery in *.
    destruct (negb (is_in_quorum id q)); [reflexivity | congruence].
  - reflexivity.
Qed.

(** C2 (amended): with adaptive quorum disabled, every
    handle_node_failure, handle_node_recovery or update_quorum_nodes call
    that changes the member list leaves quorum_size = floor(N/2)+1 for the
    resulting member count N, and every sequence of such calls on a
    coordinator whose quorum size is floor(N/2)+1 (as the constructor
    leaves it) ends in such a state.  With adaptive quorum enabled the
    equation holds after update_quorum_nodes and after a recovery that
    adds a member, while a failure that removes a member leaves the size
    chosen by adjust_quorum_size_based_on_load for the remaining
    members. *)
Theorem quorum_size_after_membership_changes
    (q : QuorumReplication) (calls : list MembershipCall) :
  (adaptive_quorum_enabled_ q = false -> majority_sized q ->
     majority_sized (fold_left apply_membership calls q)) /\
  (adaptive_quorum_enabled_ q = false ->
     forall c, quorum_nodes_ (apply_membership q c) <> quorum_nodes_ q ->
               majority_sized (apply_membership q c)) /\
  (forall nodes, majority_sized (update_quorum_nodes nodes q)) /\
  (forall id, is_in_quorum id q = false ->
              majority_sized (handle_node_recovery id q)) /\
  (forall id, is_in_quorum id q = true -> adaptive_quorum_enabled_ q = true ->
     handle_node_failure id q =
     adjust_quorum_size_based_on_load
       (update_quorum_nodes (Chain.erase_first id (quorum_nodes_ q)) q)).
Proof.
  split; [apply membership_sized_static|].
  split; [intros Had c; apply change_sized_static, Had|].
  split; [intros nodes; apply update_quorum_nodes_sized|].
  split; [intros id; apply recovery_of_absent_sized|].
  intros id Hin Had. unfold handle_node_failure, is_in_quorum in *.
  rewrite Hin. cbn [adaptive_quorum_enabled_ set_members]. rewrite Had.
  reflexivity.
Qed.

Lemma quorum_size_after_membership_changes_witness :
  majority_sized
    (fold_left apply_membership
       [Fault (NodeFailure 2); Fault (NodeFailure 4); Fault (NodeRecovery 2);
        UpdateNodes [1; 2; 3]; Fault (NodeFailure 9)]
       (enable_adaptive_quorum false (new_quorum [1; 2; 3; 4; 5]))).
Proof.
  apply (quorum_size_after_membership_changes
           (enable_adaptive_quorum false (new_quorum [1; 2; 3; 4; 5]))
           [Fault (NodeFailure 2); Fault (NodeFailure 4); Fault (NodeRecovery 2);
            UpdateNodes [1; 2; 3]; Fault (NodeFailure 9)]);
    reflexivity.
Defined.

End QuorumMembership.

(** * Properties of the quorum coordinator: adaptive sizing *)

Section AdaptiveQuorum.

Import Quorum.

Lemma vsize_nonneg {A} (l : list A) : 0 <= vsize l.
Proof. unfold vsize. lia. Qed.

(** Splits on the guard of [adjust_quorum_size_based_on_load] and settles
    the arithmetic of both outcomes. *)
Ltac adjust_guard :=
  match goal with
  | |- context [negb (?a =? ?b) && (?c >=? 3)] =>
      let E := fresh "E" in
      destruct (negb (a =? b) && (c >=? 3)) eqn:E;
      cbn [quorum_size_ set_quorum_size set_members];
      [ try reflexivity
      | apply andb_false_iff in E as [E|E];
        [ apply negb_false_iff, Z.eqb_eq in E
        | rewrite Z.geb_leb in E; apply Z.leb_gt in E ] ];
      try (Z.div_mod_to_equations; lia)
  end.

(** A low success rate moves a natural majority up by one, never beyond
    the member count. *)
Lemma adjust_raises (q : QuorumReplication) :
  1 <= vsize (quorum_nodes_ q) -> majority_sized q ->
  Qltb (get_consensus_success_rate q) (8 # 10) = true ->
  quorum_size_ (adjust_quorum_size_based_on_load q)
  = Z.min (natural_majority q + 1) (vsize (quorum_nodes_ q)).
Proof.
  unfold majority_sized, natural_majority. intros HN Hsz Hrate.
  unfold adjust_quorum_size_based_on_load, calculate_optimal_quorum_size.
  rewrite Hrate.
  adjust_guard.
Qed.

(** A high success rate moves a natural majority down by one but not
    below 3, in a quorum of at least three members. *)
Lemma adjust_lowers (q : QuorumReplication) :
  3 <= vsize (quorum_nodes_ q) -> majority_sized q ->
  Qltb (get_consensus_success_rate q) (8 # 10) = false ->
  Qltb (95 # 100) (get_consensus_success_rate q) = true ->
  quorum_size_ (adjust_quorum_size_based_on_load q)
  = Z.max (natural_majority q - 1) 3.
Proof.
  unfold majority_sized, natural_majority. intros HN Hsz Hlow Hrate.
  unfold adjust_quorum_size_based_on_load, calculate_optimal_quorum_size.
  rewrite Hlow, Hrate.
  adjust_guard.
Qed.

(** In between the size is left alone. *)
Lemma adjust_keeps (q : QuorumReplication) :
  majority_sized q ->
  Qltb (get_consensus_success_rate q) (8 # 10) = false ->
  Qltb (95 # 100) (get_consensus_success_rate q) = false ->
  adjust_quorum_size_based_on_load q = q.
Proof.
  unfold majority_sized, natural_majority. intros Hsz Hlow Hrate.
  unfold adjust_quorum_size_based_on_load, calculate_optimal_quorum_size.
  rewrite Hlow, Hrate, Hsz, Z.eqb_refl. reflexivity.
Qed.

(** With fewer than three members a high success rate still selects 3:
    the lower bound of [std::max] is not capped by the member count. *)
Lemma adjust_small_quorum (q : QuorumReplication) :
  vsize (quorum_nodes_ q) <= 2 -> majority_sized q ->
  Qltb (get_consensus_success_rate q) (8 # 10) = false ->
  Qltb (95 # 100) (get_consensus_success_rate q) = true ->
  quorum_size_ (adjust_quorum_size_based_on_load q) = 3.
Proof.
  unfold majority_sized, natural_majority. intros HN Hsz Hlow Hrate.
  pose proof (vsize_nonneg (quorum_nodes_ q)) as H0.
  unfold adjust_quorum_size_based_on_load, calculate_optimal_quorum_size.
  rewrite Hlow, Hrate.
  adjust_guard.
Qed.

(** The scenario of the specification: seven members at a success rate of
    0.70 go from 4 to 5. *)
Lemma adjust_seven_members_at_70_percent :
  (get_consensus_success_rate seven_at_70_percent == 7 # 10)%Q /\
  quorum_size_ seven_at_70_percent = 4 /\
  quorum_size_ (adjust_quorum_size_based_on_load seven_at_70_percent) = 5.
Proof. repeat split; reflexivity. Qed.

(** C3 (the code at the failing inputs): a coordinator with a single
    member and one successful write has success rate 1 and quorum size 1;
    adjust_quorum_size_based_on_load sets the size to 3, and likewise from
    2 to 3 once a second member has joined, although the claim keeps the
    natural majority for one and two members. *)
Theorem adjust_exceeds_small_quorum :
  (vsize (quorum_nodes_ one_node_after_write) = 1 /\
   quorum_size_ one_node_after_write = 1 /\
   (get_consensus_success_rate one_node_after_write == 1)%Q /\
   quorum_size_ (adjust_quorum_size_based_on_load one_node_after_write) = 3) /\
  (vsize (quorum_nodes_ two_nodes_after_write) = 2 /\
   quorum_size_ two_nodes_after_write = 2 /\
   (get_consensus_success_rate two_nodes_after_write == 1)%Q /\
   quorum_size_ (adjust_quorum_size_based_on_load two_nodes_after_write) = 3).
Proof. repeat split; reflexivity. Qed.

End AdaptiveQuorum.

(** * Properties of the quorum coordinator: recovery and duplicates *)

Section Recovery.

Import Quorum.

Lemma contains_In (x : Z) (l : list Z) : Chain.contains x l = true <-> In x l.
Proof.
  unfold Chain.contains. rewrite existsb_exists. split.
  - intros [y [Hy E]]. apply Z.eqb_eq in E. subst y. exact Hy.
  - intros H. exists x. split; [exact H | apply Z.eqb_refl].
Qed.

Lemma erase_first_In (x y : Z) (l : list Z) :
  In y (Chain.erase_first x l) -> In y l.
Proof.
  induction l as [|z l IH]; cbn; [tauto|].
  destruct (z =? x); cbn; tauto.
Qed.

Lemma erase_first_NoDup (x : Z) (l : list Z) :
  List.NoDup l -> List.NoDup (Chain.erase_first x l).
Proof.
  induction 1 as [|z l Hz Hl IH]; cbn; [constructor|].
  destruct (z =? x); [exact Hl|].
  constructor; [|exact IH].
  intros Hin. apply Hz. eapply erase_first_In. exact Hin.
Qed.

Lemma push_back_NoDup (x : Z) (l : list Z) :
  ~ In x l -> List.NoDup l -> List.NoDup (l ++ [x]).
Proof.
  intros Hx Hl. induction Hl as [|z l Hz Hl IH]; cbn.
  - constructor; [intros []|constructor].
  - constructor.
    + rewrite in_app_iff. cbn. intros [H|[H|[]]]; [tauto|].
      subst z. apply Hx. left. reflexivity.
    + apply IH. intros H. apply Hx. right. exact H.
Qed.

Lemma adjust_keeps_members (q : QuorumReplication) :
  quorum_nodes_ (adjust_quorum_size_based_on_load q) = quorum_nodes_ q.
Proof.
  unfold adjust_quorum_size_based_on_load.
  destruct (negb (_ =? _) && (_ >=? 3)); reflexivity.
Qed.

Lemma failure_members (id : Z) (q : QuorumReplication) :
  quorum_nodes_ (handle_node_failure id q)
  = if Chain.contains id (quorum_nodes_ q)
    then Chain.erase_first id (quorum_nodes_ q) else quorum_nodes_ q.
Proof.
  unfold handle_node_failure.
  destruct (Chain.contains id (quorum_nodes_ q)); [|reflexivity].
  cbn [adaptive_quorum_enabled_ set_members].
  destruct (adaptive_quorum_enabled_ q); [|reflexivity].
  apply adjust_keeps_members.
Qed.

Lemma fault_NoDup (f : FaultCall) (q : QuorumReplication) :
  List.NoDup (quorum_nodes_ q) -> List.NoDup (quorum_nodes_ (apply_fault q f)).
Proof.
  intros H. destruct f as [id|id]; cbn.
  - rewrite failure_members.
    destruct (Chain.contains id (quorum_nodes_ q)); [|exact H].
    apply erase_first_NoDup, H.
  - unfold handle_node_recovery, is_in_quorum.
    destruct (Chain.contains id (quorum_nodes_ q)) eqn:E; cbn; [exact H|].
    apply push_back_NoDup; [|exact H].
    intros Hin. apply contains_In in Hin. congruence.
Qed.

Lemma faults_NoDup (calls : list FaultCall) :
  forall q, List.NoDup (quorum_nodes_ q) ->
            List.NoDup (quorum_nodes_ (fold_left apply_fault calls q)).
Proof.
  induction calls as [|f calls IH]; intros q H; [exact H|].
  cbn [fold_left]. apply IH, fault_NoDup, H.
Qed.

Lemma chain_recovery_appends (n : NodeM.Node) (id : Z) (c : Chain.ChainReplication) :
  Chain.chain_order_ (Chain.handle_node_recovery n id c) = Chain.chain_order_ c ++ [id].
Proof.
  unfold Chain.handle_node_recovery, Chain.find_my_position.
  destruct (Chain.index_from _ _ _); reflexivity.
Qed.

(** C10: handle_node_recovery with an id that is already a quorum member
    returns the coordinator unchanged (member list and quorum size
    included); hence from a member list without duplicates no sequence of
    handle_node_failure and handle_node_recovery calls produces a
    duplicate.  The chain coordinator's recovery appends the id whether or
    not it is present, so there a present id becomes a duplicate. *)
Theorem quorum_recovery_idempotent
    (q : QuorumReplication) (calls : list FaultCall)
    (n : NodeM.Node) (c : Chain.ChainReplication) (id : Z) :
  (is_in_quorum id q = true -> handle_node_recovery id q = q) /\
  (List.NoDup (quorum_nodes_ q) ->
     List.NoDup (quorum_nodes_ (fold_left apply_fault calls q))) /\
  Chain.chain_order_ (Chain.handle_node_recovery n id c) = Chain.chain_order_ c ++ [id] /\
  (In id (Chain.chain_order_ c) ->
     ~ List.NoDup (Chain.chain_order_ (Chain.handle_node_recovery n id c))).
Proof.
  split; [|split; [|split]].
  - intros Hin. unfold handle_node_recovery. rewrite Hin. reflexivity.
  - apply faults_NoDup.
  - apply chain_recovery_appends.
  - intros Hin Hnd. rewrite chain_recovery_appends in Hnd.
    apply List.NoDup_remove_2 in Hnd. rewrite app_nil_r in Hnd.
    exact (Hnd Hin).
Qed.

Lemma quorum_recovery_idempotent_witness :
  handle_node_recovery 2 (new_quorum [1; 2; 3]) = new_quorum [1; 2; 3] /\
  List.NoDup (quorum_nodes_
                (fold_left apply_fault
                   [NodeRecovery 2; NodeFailure 3; NodeRecovery 3; NodeRecovery 3]
                   (new_quorum [1; 2; 3]))) /\
  ~ List.NoDup (Chain.chain_order_
                  (Chain.handle_node_recovery (NodeM.new_node 1) 2
                     (Chain.new_chain (NodeM.new_node 1) [1; 2; 3]))).
Proof.
  pose proof (quorum_recovery_idempotent (new_quorum [1; 2; 3])
                [NodeRecovery 2; NodeFailure 3; NodeRecovery 3; NodeRecovery 3]
                (NodeM.new_node 1) (Chain.new_chain (NodeM.new_node 1) [1; 2; 3]) 2)
    as [H1 [H2 [_ H4]]].
  split; [apply H1; reflexivity|].
  split; [apply H2; repeat constructor; cbn; lia|].
  apply H4. cbn. lia.
Defined.

End Recovery.

(** * Properties of the chain coordinator *)

Section EmptyChain.

Lemma empty_chain_roles (n : NodeM.Node) (c0 : Chain.ChainReplication) :
  Chain.is_head (Chain.update_chain_order n [] c0) = false /\
  Chain.is_tail (Chain.update_chain_order n [] c0) = false.
Proof. split; reflexivity. Qed.

(** A write on an empty chain is answered with success although it is
    neither applied nor forwarded. *)
Lemma empty_chain_write (n : NodeM.Node) (c0 : Chain.ChainReplication)
    (now : Z) (request response : Msg.Message) :
  Chain.process_write now request response (Chain.update_chain_order n [] c0) n
  = (true,
     Msg.set_success true
       (Msg.set_sequence_number (Msg.sequence_number request)
          (Msg.set_key (Msg.key request)
             (Msg.set_timestamp now
                (Msg.set_sender_id (NodeM.get_node_id n)
                   (Msg.set_type Msg.WRITE_RESPONSE response))))),
     Chain.update_chain_order n [] c0, n).
Proof. reflexivity. Qed.

Lemma empty_chain_read (n : NodeM.Node) (c0 : Chain.ChainReplication)
    (now : Z) (request response : Msg.Message) :
  Chain.process_read now request response (Chain.update_chain_order n [] c0) n
  = (false, response, Chain.update_chain_order n [] c0, n).
Proof. reflexivity. Qed.

(** C6 (the code at the failing input): once the only member of the chain
    has failed the chain is empty; process_write then returns true with
    success = true in the response, sends nothing and leaves the store
    alone, where the claim has success = false; process_read returns
    false and sends nothing, as the claim says. *)
Theorem empty_chain_write_reports_success
    (now : Z) (request response : Msg.Message) :
  Chain.chain_order_ chain_after_all_failed = [] /\
  (let '(ok, r, c, n) :=
     Chain.process_write now request response chain_after_all_failed (NodeM.new_node 1) in
   ok = true /\ Msg.success r = true /\
   NodeM.outbox n = [] /\ NodeM.data_store_ n = ∅ /\ c = chain_after_all_failed) /\
  (let '(ok, r, c, n) :=
     Chain.process_read now request response chain_after_all_failed (NodeM.new_node 1) in
   ok = false /\ r = response /\ NodeM.outbox n = [] /\ c = chain_after_all_failed).
Proof. repeat split; reflexivity. Qed.

End EmptyChain.

(** * Properties of the metrics pipeline *)

Section MetricsPipeline.

Import Metrics.

Lemma wrap64_small (z : Z) : 0 <= z < 2 ^ 64 -> wrap64 z = z.
Proof. intros H. unfold wrap64. apply Z.mod_small. exact H. Qed.

Lemma counted_new (t0 : Z) : counted (new_monitor t0) 0.
Proof. split; cbn; try lia. rewrite map_size_empty. reflexivity. Qed.

Lemma counted_step (pm : PerformanceMonitor) (lost : Z) (c : Call) :
  counted pm lost -> total_operations_ pm + 1 < 2 ^ 64 ->
  counted (apply_call pm c) (lost + reused_ids pm [c]).
Proof.
  intros [Hs Hf Hl Ht] Hbound.
  pose proof (Nat2Z.is_nonneg (size (active_operations_ pm))) as Hsz.
  destruct c as [now id ty k | now id ok mode nhops]; cbn [apply_call reused_ids].
  - unfold start_operation. split; cbn; try lia.
    + destruct (active_operations_ pm !! id); lia.
    + rewrite map_size_insert, wrap64_small by lia.
      destruct (active_operations_ pm !! id); cbn; lia.
  - unfold end_operation.
    destruct (active_operations_ pm !! id) as [op|] eqn:E.
    + assert (Hpos : (0 < size (active_operations_ pm))%nat).
      { destruct (size (active_operations_ pm)) eqn:Es; [|lia].
        apply map_size_empty_inv in Es. rewrite Es, lookup_empty in E.
        discriminate E. }
      split; cbn [successful_operations_ failed_operations_ active_operations_
                  total_operations_].
      * destruct ok; [rewrite wrap64_small|]; lia.
      * destruct ok; [|rewrite wrap64_small]; lia.
      * lia.
      * rewrite map_size_delete, E.
        destruct ok; rewrite wrap64_small by lia; cbn; lia.
    + split; cbn; lia.
Qed.

Lemma reused_ids_nonneg (cs : list Call) : forall pm, 0 <= reused_ids pm cs.
Proof.
  induction cs as [|c cs IH]; intros pm; cbn [reused_ids]; [lia|].
  specialize (IH (apply_call pm c)).
  destruct c; [destruct (active_operations_ pm !! _)|]; lia.
Qed.

Lemma total_step (pm : PerformanceMonitor) (c : Call) :
  0 <= total_operations_ pm -> total_operations_ pm + 1 < 2 ^ 64 ->
  total_operations_ pm <= total_operations_ (apply_call pm c) <= total_operations_ pm + 1.
Proof.
  intros H0 Hb. destruct c as [now id ty k | now id ok mode nhops]; cbn.
  - rewrite wrap64_small; lia.
  - unfold end_operation. destruct (active_operations_ pm !! id); cbn; lia.
Qed.

Lemma counted_calls (cs : list Call) :
  forall pm lost,
    counted pm lost ->
    total_operations_ pm + Z.of_nat (length cs) < 2 ^ 64 ->
    counted (fold_left apply_call cs pm) (lost + reused_ids pm cs).
Proof.
  induction cs as [|c cs IH]; intros pm lost Hc Hb.
  - cbn. rewrite Z.add_0_r. exact Hc.
  - cbn [fold_left reused_ids]. cbn [length] in Hb.
    assert (H0 : 0 <= total_operations_ pm).
    { destruct Hc as [Hs Hf Hl Ht]. lia. }
    pose proof (total_step pm c H0 ltac:(lia)) as Hstep.
    pose proof (counted_step pm lost c Hc ltac:(lia)) as Hc'.
    cbn [reused_ids] in Hc'. rewrite Z.add_0_r in Hc'.
    specialize (IH (apply_call pm c) _ Hc' ltac:(lia)).
    rewrite <- Z.add_assoc in IH. exact IH.
Qed.

Lemma success_rate_bounds (pm : PerformanceMonitor) :
  0 <= successful_operations_ pm <= total_operations_ pm ->
  (0 <= get_success_rate pm <= 1)%Q.
Proof.
  intros H. unfold get_success_rate.
  destruct (total_operations_ pm >? 0) eqn:E.
  - apply Z.gtb_lt in E. unfold Qle. cbn.
    rewrite Z2Pos.id by lia. lia.
  - unfold Qle. cbn. lia.
Qed.

(** C9, as stated, fails: an operation that has been started and not yet
    ended is in the total and in neither of the other two counters. *)
Lemma started_operation_counts_in_total_only :
  total_operations_ (after_calls 0 [StartOperation 0 1 Msg.READ_REQUEST "k"]) = 1 /\
  successful_operations_ (after_calls 0 [StartOperation 0 1 Msg.READ_REQUEST "k"])
  + failed_operations_ (after_calls 0 [StartOperation 0 1 Msg.READ_REQUEST "k"]) = 0.
Proof. split; reflexivity. Qed.

(** C9 (amended): after any sequence of fewer than 2^64 start_operation
    and end_operation calls on a fresh monitor, the successful count plus
    the failed count plus the number of operations still active plus the
    number of starts that reused an id still active equals the total
    count; so successful + failed is at most the total, they are equal
    when no operation is active and no id was reused, and
    get_success_rate returns a value in [0,1]. *)
Theorem metrics_counters_consistent (t0 : Z) (cs : list Call) :
  Z.of_nat (length cs) < 2 ^ 64 ->
  successful_operations_ (after_calls t0 cs) + failed_operations_ (after_calls t0 cs)
  + Z.of_nat (size (active_operations_ (after_calls t0 cs)))
  + reused_ids (new_monitor t0) cs
  = total_operations_ (after_calls t0 cs) /\
  successful_operations_ (after_calls t0 cs) + failed_operations_ (after_calls t0 cs)
  <= total_operations_ (after_calls t0 cs) /\
  (active_operations_ (after_calls t0 cs) = ∅ -> reused_ids (new_monitor t0) cs = 0 ->
   successful_operations_ (after_calls t0 cs) + failed_operations_ (after_calls t0 cs)
   = total_operations_ (after_calls t0 cs)) /\
  (0 <= get_success_rate (after_calls t0 cs) <= 1)%Q.
Proof.
  intros Hlen.
  pose proof (counted_calls cs (new_monitor t0) 0 (counted_new t0) ltac:(cbn; lia))
    as [Hs Hf Hl Ht].
  fold (after_calls t0 cs) in *. rewrite Z.add_0_l in Ht, Hl.
  pose proof (Nat2Z.is_nonneg (size (active_operations_ (after_calls t0 cs)))) as Hsz.
  split; [exact Ht|].
  split; [lia|].
  split.
  - intros Hact Hre. rewrite Hact, map_size_empty, Hre in Ht. lia.
  - apply success_rate_bounds. lia.
Qed.

Lemma metrics_counters_consistent_witness :
  successful_operations_
    (after_calls 0 [StartOperation 0 1 Msg.READ_REQUEST "k";
                    StartOperation 1 2 Msg.WRITE_REQUEST "k";
                    EndOperation 5 1 true Msg.CHAIN_ONLY 1;
                    EndOperation 7 2 false Msg.QUORUM_ONLY 1])
  + failed_operations_
      (after_calls 0 [StartOperation 0 1 Msg.READ_REQUEST "k";
                      StartOperation 1 2 Msg.WRITE_REQUEST "k";
                      EndOperation 5 1 true Msg.CHAIN_ONLY 1;
                      EndOperation 7 2 false Msg.QUORUM_ONLY 1])
  = total_operations_
      (after_calls 0 [StartOperation 0 1 Msg.READ_REQUEST "k";
                      StartOperation 1 2 Msg.WRITE_REQUEST "k";
                      EndOperation 5 1 true Msg.CHAIN_ONLY 1;
                      EndOperation 7 2 false Msg.QUORUM_ONLY 1]).
Proof.
  apply (metrics_counters_consistent 0
           [StartOperation 0 1 Msg.READ_REQUEST "k";
            StartOperation 1 2 Msg.WRITE_REQUEST "k";
            EndOperation 5 1 true Msg.CHAIN_ONLY 1;
            EndOperation 7 2 false Msg.QUORUM_ONLY 1]).
  - cbn. lia.
  - vm_compute. reflexivity.
  - vm_compute. reflexivity.
Defined.

End MetricsPipeline.

(** * Properties of the quorum coordinator: the proposer loops *)

Section Proposer.

Import Quorum.

Lemma run_app (a b : list Event) (s : QuorumReplication * NodeM.Node) :
  run (a ++ b) s = run b (run a s).
Proof. unfold run. apply fold_left_app. Qed.

Lemma adjust_proposer_view (q : QuorumReplication) :
  proposer_view (adjust_quorum_size_based_on_load q) = proposer_view q.
Proof.
  unfold adjust_quorum_size_based_on_load.
  destruct (negb (_ =? _) && (_ >=? 3)); reflexivity.
Qed.

(** Anything but an acceptor's answer leaves the proposer's data alone. *)
Lemma step_proposer_view (e : Event) (q : QuorumReplication) (n : NodeM.Node) :
  is_response e = false -> proposer_view (fst (step e (q, n))) = proposer_view q.
Proof.
  destruct e; cbn [is_response]; intros H; try discriminate H;
    cbn [step handle_prepare handle_accept fst]; try reflexivity.
  - unfold handle_node_failure.
    destruct (Chain.contains id (quorum_nodes_ q)); [|reflexivity].
    cbn [adaptive_quorum_enabled_ set_members].
    destruct (adaptive_quorum_enabled_ q); [|reflexivity].
    rewrite adjust_proposer_view. reflexivity.
  - unfold handle_node_recovery.
    destruct (negb (is_in_quorum id q)); reflexivity.
  - apply adjust_proposer_view.
Qed.

Lemma run_proposer_view (evs : list Event) :
  forall q n, Forall (fun e => is_response e = false) evs ->
              proposer_view (fst (run evs (q, n))) = proposer_view q.
Proof.
  induction evs as [|e evs IH]; intros q n H; [reflexivity|].
  inversion H as [|e' evs' He Hevs]; subst.
  cbn [run fold_left]. fold (run evs (step e (q, n))).
  destruct (step e (q, n)) as [q1 n1] eqn:E.
  rewrite IH by exact Hevs.
  replace q1 with (fst (step e (q, n))) by (rewrite E; reflexivity).
  apply step_proposer_view, He.
Qed.

Lemma proposer_view_active (q q' : QuorumReplication) :
  proposer_view q' = proposer_view q -> active_proposals_ q' = active_proposals_ q.
Proof. unfold proposer_view. intros H. congruence. Qed.

(** Without answers a proposal in its prepare phase is never committed:
    the write loop polls until the deadline. *)
Lemma write_poll_no_response (rs : list (list Event)) (pn : Z) (k v : string) :
  forall q n p,
    active_proposals_ q !! pn = Some p -> phase p = PREPARE ->
    Forall (Forall (fun e => is_response e = false)) rs ->
    exists q' n',
      write_poll rs pn k v (q, n) = (false, q', n') /\
      proposer_view q' = proposer_view q.
Proof.
  induction rs as [|evs rs IH]; intros q n p Hp Hph H.
  - exists q, n. split; reflexivity.
  - inversion H as [|evs' rs' Hevs Hrs]; subst.
    cbn [write_poll].
    pose proof (run_proposer_view evs q n Hevs) as Hv.
    destruct (run evs (q, n)) as [q1 n1]. cbn [fst] in Hv.
    rewrite (proposer_view_active _ _ Hv), Hp, Hph. cbn [phase_eqb andb].
    destruct (IH q1 n1 p) as [q' [n' [E Hv']]]; [|exact Hph|exact Hrs|].
    + rewrite (proposer_view_active _ _ Hv). exact Hp.
    + exists q', n'. split; [exact E|]. rewrite Hv'. exact Hv.
Qed.

(** C5: on a quorum of at least two members, when no promise and no
    accepted message reaches the proposer (whatever else the other
    threads do), process_write returns false with success = false in the
    response, the proposal it created is no longer in the active-proposals
    table, which is the table of before without that number, the
    failed_consensus counter has advanced by one (in 64-bit arithmetic)
    and successful_consensus is unchanged. *)
Theorem write_without_responses_fails
    (now : Z) (sch : Schedule) (request response : Msg.Message)
    (q : QuorumReplication) (n : NodeM.Node) :
  2 <= vsize (quorum_nodes_ q) ->
  Forall (Forall (fun e => is_response e = false)) (rounds sch) ->
  Forall (fun e => is_response e = false) (late sch) ->
  let '(ok, r, q', n') := process_write now sch request response q n in
  ok = false /\ Msg.success r = false /\
  active_proposals_ q' !! next_proposal_number_ q = None /\
  active_proposals_ q' = delete (next_proposal_number_ q) (active_proposals_ q) /\
  failed_consensus_ q' = wrap64 (failed_consensus_ q + 1) /\
  (0 <= failed_consensus_ q < 2 ^ 64 - 1 ->
   failed_consensus_ q' = failed_consensus_ q + 1) /\
  successful_consensus_ q' = successful_consensus_ q.
Proof.
  intros HN Hrounds Hlate.
  unfold process_write.
  destruct (vsize (quorum_nodes_ q) =? 1) eqn:E1; [apply Z.eqb_eq in E1; lia|].
  unfold initiate_consensus, generate_proposal_number, send_prepare_messages.
  cbn [negb].
  set (pn := next_proposal_number_ q).
  set (q2 := set_active_proposals _ _).
  set (n1 := send_to_others _ _ _).
  destruct (write_poll_no_response (rounds sch) pn (Msg.key request)
              (Msg.value request) q2 n1
              (mkQuorumState pn PREPARE (Msg.key request) (Msg.value request) ∅ ∅ now))
    as [q3 [n3 [Epoll Hv3]]]; [apply lookup_insert_eq | reflexivity | exact Hrounds |].
  rewrite Epoll.
  pose proof (run_proposer_view (late sch) q3 n3 Hlate) as Hv4.
  destruct (run (late sch) (q3, n3)) as [q4 n4]. cbn [fst] in Hv4.
  rewrite Hv3 in Hv4. unfold proposer_view in Hv4.
  injection Hv4 as Ha Hnext Hok Hfail Htimes.
  cbn. rewrite Ha, Hok, Hfail.
  repeat split.
  - apply lookup_delete_eq.
  - subst q2. cbn. apply delete_insert_eq.
  - intros Hb. apply wrap64_small. lia.
Qed.

Lemma write_without_responses_fails_witness :
  let '(ok, r, q', n') :=
    process_write 0
      (mkSchedule [[EvStoreWrite "a" "b"]; [EvNodeFailure 3]; []] [EvPrepare 9 Msg.new_message] 100)
      (write_request "t" "x") Msg.new_message
      (set_timeout 100 (new_quorum [1; 2; 3])) (NodeM.new_node 1) in
  ok = false /\ Msg.success r = false /\
  active_proposals_ q' !! 1 = None /\
  active_proposals_ q' = delete 1 ∅ /\
  failed_consensus_ q' = wrap64 (0 + 1) /\
  (0 <= 0 < 2 ^ 64 - 1 -> failed_consensus_ q' = 0 + 1) /\
  successful_consensus_ q' = 0.
Proof.
  apply (write_without_responses_fails 0
           (mkSchedule [[EvStoreWrite "a" "b"]; [EvNodeFailure 3]; []]
              [EvPrepare 9 Msg.new_message] 100)
           (write_request "t" "x") Msg.new_message
           (set_timeout 100 (new_quorum [1; 2; 3])) (NodeM.new_node 1)).
  - vm_compute. intros H. discriminate H.
  - repeat constructor.
  - repeat constructor.
Defined.

(** *** Reads *)

Lemma node_read_Some (k v : string) (n n1 : NodeM.Node) :
  NodeM.read k n = (Some v, n1) ->
  NodeM.data_store_ n !! k = Some v /\ NodeM.outbox n1 = NodeM.outbox n.
Proof.
  unfold NodeM.read. destruct (NodeM.data_store_ n !! k) as [w|]; intros H;
    inversion H; subst; split; reflexivity.
Qed.

(** A return from inside the read loop happens at a poll that found the
    proposal with a majority of promises. *)
Lemma read_poll_success (rs : list (list Event)) (sch : Schedule)
    (now pn : Z) (request response : Msg.Message) :
  forall q n res,
    read_poll rs sch now pn request response (q, n) = inl res ->
    exists i q_i n_i p,
      (i < length rs)%nat /\
      run (concat (firstn (S i) rs)) (q, n) = (q_i, n_i) /\
      active_proposals_ q_i !! pn = Some p /\
      has_majority p (vsize (quorum_nodes_ q_i)) = true /\
      NodeM.data_store_ n_i !! Msg.key request = Some (Msg.value (snd (fst (fst res)))) /\
      fst (fst (fst res)) = true.
Proof.
  induction rs as [|evs rs IH]; intros q n res H; [discriminate H|].
  cbn [read_poll] in H.
  destruct (run evs (q, n)) as [q1 n1] eqn:Erun.
  assert (Hlater :
    read_poll rs sch now pn request response (q1, n1) = inl res ->
    exists i q_i n_i p,
      (i < length (evs :: rs))%nat /\
      run (concat (firstn (S i) (evs :: rs))) (q, n) = (q_i, n_i) /\
      active_proposals_ q_i !! pn = Some p /\
      has_majority p (vsize (quorum_nodes_ q_i)) = true /\
      NodeM.data_store_ n_i !! Msg.key request = Some (Msg.value (snd (fst (fst res)))) /\
      fst (fst (fst res)) = true).
  { intros H'. destruct (IH q1 n1 res H') as [i [q_i [n_i [p [Hi [Hr Hrest]]]]]].
    exists (S i), q_i, n_i, p. split; [cbn; lia|]. split; [|exact Hrest].
    change (firstn (S (S i)) (evs :: rs)) with (evs :: firstn (S i) rs).
    cbn [concat]. rewrite run_app, Erun. exact Hr. }
  destruct (active_proposals_ q1 !! pn) as [p|] eqn:Ep; [|exact (Hlater H)].
  destruct (has_majority p (vsize (quorum_nodes_ q1))) eqn:Hm; [|exact (Hlater H)].
  destruct (NodeM.read (Msg.key request) n1) as [[v|] n2] eqn:Eread; [|discriminate H].
  apply node_read_Some in Eread as [Hstore _].
  inversion H; subst res. cbn [fst snd].
  exists 0%nat, q1, n1, p. split; [cbn; lia|].
  split; [cbn [firstn concat]; rewrite app_nil_r; exact Erun|].
  repeat split; assumption.
Qed.

(** C4, as stated, fails: with the settings the constructor chooses, a
    two-member quorum answers a read of a stored key from the local store
    at once; no proposal number is drawn, no proposal is stored, no
    prepare message leaves the node. *)
Lemma fast_path_read_skips_prepare :
  vsize (quorum_nodes_ two_member_quorum) = 2 /\
  (let '(ok, r, q', n') :=
     process_read 0 (idle 3 0) (read_request "k") Msg.new_message
       two_member_quorum node_with_k in
   ok = true /\ Msg.value r = "v" /\
   next_proposal_number_ q' = next_proposal_number_ two_member_quorum /\
   active_proposals_ q' = ∅ /\
   NodeM.outbox n' = []).
Proof. vm_compute. repeat split; reflexivity. Qed.

(** C4 (amended): on a quorum whose member count is not 1, process_read
    answers at once from the local store, without a proposal and without
    sending anything, when read optimisation and fast quorum are enabled
    and the request is a read operation with a non-empty key that the
    local store holds; in every other case a successful return means that
    at one of the polls the read proposal held promises from a majority of
    the current members and the value returned is the local store's at
    that poll (the accept phase is not awaited). *)
Theorem read_success_by_fast_path_or_majority
    (now : Z) (sch : Schedule) (request response : Msg.Message)
    (q : QuorumReplication) (n : NodeM.Node) :
  vsize (quorum_nodes_ q) <> 1 ->
  (forall v,
     read_optimization_enabled_ q && can_use_fast_path request q = true ->
     NodeM.data_store_ n !! Msg.key request = Some v ->
     let '(ok, r, q', n') := process_read now sch request response q n in
     ok = true /\ Msg.value r = v /\ q' = q /\ NodeM.outbox n' = NodeM.outbox n) /\
  ((read_optimization_enabled_ q && can_use_fast_path request q = false
    \/ NodeM.data_store_ n !! Msg.key request = None) ->
   let '(ok, r, q', n') := process_read now sch request response q n in
   ok = true ->
   exists i q_i n_i p,
     (i < length (rounds sch))%nat /\
     run (concat (firstn (S i) (rounds sch)))
         (snd (read_proposal_stored now request q n)) = (q_i, n_i) /\
     active_proposals_ q_i !! fst (read_proposal_stored now request q n) = Some p /\
     has_majority p (vsize (quorum_nodes_ q_i)) = true /\
     NodeM.data_store_ n_i !! Msg.key request = Some (Msg.value r)).
Proof.
  intros HN. apply Z.eqb_neq in HN. split.
  - intros v Hfast Hstore. unfold process_read. rewrite HN, Hfast.
    unfold NodeM.read. rewrite Hstore. cbn. repeat split.
  - intros Hslow. unfold process_read. rewrite HN.
    set (fast := if read_optimization_enabled_ q && can_use_fast_path request q
                 then _ else _).
    assert (Hfast :
      fast = inr (if read_optimization_enabled_ q && can_use_fast_path request q
                  then snd (NodeM.read (Msg.key request) n) else n)).
    { subst fast.
      destruct (read_optimization_enabled_ q && can_use_fast_path request q);
        [|reflexivity].
      destruct Hslow as [Hoff|Hmiss]; [discriminate Hoff|].
      unfold NodeM.read. rewrite Hmiss. reflexivity. }
    rewrite Hfast. clear Hfast fast.
    unfold read_proposal_stored, generate_proposal_number, send_prepare_messages.
    cbn [fst snd].
    set (n1 := if read_optimization_enabled_ q && can_use_fast_path request q
               then _ else _).
    set (pn := next_proposal_number_ q).
    set (q2 := set_active_proposals _ _).
    set (n2 := send_to_others _ _ n1).
    set (r0 := response_header _ _ _ _ _).
    destruct (read_poll (rounds sch) sch now pn request r0 (q2, n2))
      as [[[[ok r] q'] n']|[[r q3] n3]] eqn:Epoll.
    + intros Hok.
      apply read_poll_success in Epoll
        as [i [q_i [n_i [p [Hi [Hr [Hp [Hm [Hs _]]]]]]]]].
      cbn [fst snd] in Hs.
      exists i, q_i, n_i, p. repeat split; assumption.
    + destruct (run (late sch) (q3, n3)) as [q4 n4].
      intros Hok. discriminate Hok.
Qed.

Lemma read_success_by_fast_path_or_majority_witness :
  let '(ok, r, q', n') :=
    process_read 0 (idle 3 0) (read_request "k") Msg.new_message
      two_member_quorum node_with_k in
  ok = true /\ Msg.value r = "v" /\ q' = two_member_quorum
  /\ NodeM.outbox n' = NodeM.outbox node_with_k.
Proof.
  apply (read_success_by_fast_path_or_majority 0 (idle 3 0) (read_request "k")
           Msg.new_message two_member_quorum node_with_k).
  - vm_compute. intros H. discriminate H.
  - reflexivity.
  - reflexivity.
Defined.

End Proposer.

(** * The proposer loops on answered proposals *)

Section AnsweredProposals.

Import Quorum.

(** With promises and accepts from the two other members a write on three
    members is committed at the second poll and applied locally. *)
Example write_with_responses_commits :
  let '(ok, r, q', n') :=
    process_write 0 answered (write_request "t" "x") Msg.new_message
      three_member_quorum (NodeM.new_node 1) in
  ok = true /\ Msg.success r = true /\
  NodeM.data_store_ n' !! "t" = Some "x" /\
  active_proposals_ q' = ∅ /\
  successful_consensus_ q' = 1 /\ failed_consensus_ q' = 0.
Proof. vm_compute. repeat split; reflexivity. Qed.

(** With the fast path off, a read on three members succeeds at the poll
    that finds the two promises. *)
Example read_with_promises_succeeds :
  let '(ok, r, q', n') :=
    process_read 0 answered (read_request "k") Msg.new_message
      three_member_quorum node_with_k in
  ok = true /\ Msg.value r = "v" /\ active_proposals_ q' = ∅ /\
  successful_consensus_ q' = 1.
Proof. vm_compute. repeat split; reflexivity. Qed.

(** Without any answer the same read fails at the deadline. *)
Example read_without_promises_fails :
  let '(ok, r, q', n') :=
    process_read 0 (idle 3 30) (read_request "k") Msg.new_message
      three_member_quorum node_with_k in
  ok = false /\ Msg.success r = false /\ active_proposals_ q' = ∅ /\
  failed_consensus_ q' = 1.
Proof. vm_compute. repeat split; reflexivity. Qed.

End AnsweredProposals.

(** * Properties of the hybrid dispatcher: the read cache *)

Section DispatcherCache.

Import Hybrid.

Lemma index_from_head (i x : Z) (l : list Z) : Chain.index_from i x (x :: l) = Some i.
Proof. cbn. rewrite Z.eqb_refl. reflexivity. Qed.

Lemma single_node_dispatcher_setup (n : NodeM.Node) :
  single_node_setup (single_node_dispatcher n).
Proof.
  split; try reflexivity.
  - cbn. discriminate.
  - cbn. unfold Chain.new_chain, Chain.find_my_position. cbn [Chain.chain_order_].
    unfold NodeM.get_node_id. rewrite index_from_head. reflexivity.
  - cbn. unfold Chain.new_chain, Chain.find_my_position. cbn [Chain.chain_order_].
    unfold NodeM.get_node_id. rewrite index_from_head. reflexivity.
Qed.

Lemma read_mode_chain (h : HybridProtocol) :
  read_preference_ h = Msg.CHAIN_ONLY ->
  (if adaptive_switching_enabled_ h then decide_protocol_for_read h
   else read_preference_ h) = Msg.CHAIN_ONLY.
Proof.
  intros H. unfold decide_protocol_for_read. rewrite H.
  destruct (adaptive_switching_enabled_ h), (intelligent_routing_enabled_ h);
    try reflexivity.
  destruct (Quorum.Qltb _ _); [reflexivity|].
  destruct (pattern_eqb _ _); reflexivity.
Qed.

Lemma write_mode_quorum (h : HybridProtocol) :
  write_preference_ h = Msg.QUORUM_ONLY ->
  pattern (current_metrics_ h) <> BURSTY ->
  (if adaptive_switching_enabled_ h then decide_protocol_for_write h
   else write_preference_ h) = Msg.QUORUM_ONLY.
Proof.
  intros H Hp. unfold decide_protocol_for_write. rewrite H.
  destruct (adaptive_switching_enabled_ h), (intelligent_routing_enabled_ h);
    try reflexivity.
  destruct (pattern (current_metrics_ h)); try reflexivity. congruence.
Qed.

(** The only member of a chain is its tail and reads locally. *)
Lemma chain_read_single (now : Z) (request response : Msg.Message)
    (c : Chain.ChainReplication) (n : NodeM.Node) (v : string) :
  Chain.chain_order_ c = [NodeM.node_id_ n] -> Chain.my_position_ c = 0 ->
  NodeM.data_store_ n !! Msg.key request = Some v ->
  Chain.process_read now request response c n
  = (true,
     Msg.set_success true
       (Msg.set_value v
          (Msg.set_sequence_number (Msg.sequence_number request)
             (Msg.set_key (Msg.key request)
                (Msg.set_timestamp now
                   (Msg.set_sender_id (NodeM.node_id_ n)
                      (Msg.set_type Msg.READ_RESPONSE response)))))),
     c, snd (NodeM.read (Msg.key request) n)).
Proof.
  intros Hch Hpos Hstore.
  unfold Chain.process_read, Chain.is_tail. rewrite Hch, Hpos.
  change (vsize [NodeM.node_id_ n]) with 1.
  change (negb ((0 =? wrap64 (1 - 1)) && negb (1 =? 0))) with false.
  cbn match. unfold NodeM.read. rewrite Hstore. reflexivity.
Qed.

(** A quorum of one member writes locally. *)
Lemma quorum_write_single (now : Z) (sch : Quorum.Schedule)
    (request response : Msg.Message) (q : Quorum.QuorumReplication) (n : NodeM.Node) :
  Quorum.quorum_nodes_ q = [NodeM.node_id_ n] ->
  Quorum.process_write now sch request response q n
  = (true,
     Msg.set_success true (Quorum.response_header Msg.WRITE_RESPONSE now request response n),
     Quorum.successful q,
     snd (NodeM.write (Msg.key request) (Msg.value request) n)).
Proof.
  intros Hq. unfold Quorum.process_write. rewrite Hq.
  change (vsize [NodeM.node_id_ n] =? 1) with true. reflexivity.
Qed.

Lemma node_read_store (k : string) (n : NodeM.Node) :
  NodeM.data_store_ (snd (NodeM.read k n)) = NodeM.data_store_ n /\
  NodeM.node_id_ (snd (NodeM.read k n)) = NodeM.node_id_ n.
Proof. unfold NodeM.read. destruct (NodeM.data_store_ n !! k); split; reflexivity. Qed.

(** Below its bound the cache keeps every entry. *)
Lemma update_cache_small (now : Z) (k v : string) (h : HybridProtocol) :
  Z.of_nat (size (cache_ h)) < 1000 ->
  cache_ (update_cache now k v h) = <[k := (v, now)]> (cache_ h).
Proof.
  intros H. unfold update_cache. cbn [cache_ with_cache].
  assert (Hle : Z.of_nat (size (<[k := (v, now)]> (cache_ h))) <= 1000).
  { rewrite map_size_insert. destruct (cache_ h !! k); cbn; lia. }
  destruct (Z.of_nat (size (<[k := (v, now)]> (cache_ h))) >? 1000) eqn:E;
    [|reflexivity].
  apply Z.gtb_lt in E. lia.
Qed.

(** A read of a key that the cache does not hold is served by the chain
    coordinator, which is its own tail, and the value is cached. *)
Lemma read_miss (now : Z) (sch : Quorum.Schedule) (request response : Msg.Message)
    (h : HybridProtocol) (v : string) :
  single_node_setup h ->
  cache_ h !! Msg.key request = None -> Z.of_nat (size (cache_ h)) < 1000 ->
  NodeM.data_store_ (node_ h) !! Msg.key request = Some v ->
  exists r h',
    process_read now sch request response h = (true, r, h') /\
    Msg.value r = v /\
    single_node_setup h' /\
    cache_ h' = <[Msg.key request := (v, Quorum.t_end sch)]> (cache_ h) /\
    cache_ttl_ h' = cache_ttl_ h /\
    cache_misses_ h' = wrap64 (cache_misses_ h + 1) /\
    cache_hits_ h' = cache_hits_ h /\
    NodeM.data_store_ (node_ h') = NodeM.data_store_ (node_ h).
Proof.
  intros [Hc Hrp Hwp Hpat Hch Hpos Hq] Hnone Hsmall Hstore.
  unfold process_read. rewrite Hc.
  unfold try_cache_read. rewrite Hnone.
  set (h1 := with_counters _ _ _ _ h).
  rewrite (read_mode_chain h1) by exact Hrp.
  cbn [Msg.mode_eqb orb].
  rewrite (chain_read_single now request response (chain_protocol_ h1) (node_ h1) v)
    by assumption.
  cbn [fst snd andb caching_enabled_ with_counters with_protocols h1]. rewrite Hc.
  destruct (node_read_store (Msg.key request) (node_ h)) as [Hst Hid].
  eexists. eexists. split; [reflexivity|].
  split; [reflexivity|].
  split; [split; cbn; try assumption; rewrite Hid; assumption|].
  split.
  { cbn [update_performance_metrics with_metrics cache_].
    rewrite update_cache_small; [reflexivity | exact Hsmall]. }
  repeat split. exact Hst.
Qed.

(** A read within the time to live of the cached entry is a hit. *)
Lemma read_hit (now : Z) (sch : Quorum.Schedule) (request response : Msg.Message)
    (h : HybridProtocol) (v : string) (stored_at : Z) :
  single_node_setup h ->
  cache_ h !! Msg.key request = Some (v, stored_at) ->
  wrap64 (now - stored_at) < cache_ttl_ h ->
  exists r h',
    process_read now sch request response h = (true, r, h') /\
    Msg.value r = v /\
    single_node_setup h' /\
    cache_ h' = cache_ h /\
    cache_hits_ h' = wrap64 (cache_hits_ h + 1) /\
    cache_misses_ h' = cache_misses_ h /\
    NodeM.data_store_ (node_ h') = NodeM.data_store_ (node_ h).
Proof.
  intros Hs Hcached Hfresh. pose proof Hs as [Hc Hrp Hwp Hpat Hch Hpos Hq].
  unfold process_read. rewrite Hc.
  unfold try_cache_read. rewrite Hcached.
  apply Z.ltb_lt in Hfresh. rewrite Hfresh.
  eexists. eexists. split; [reflexivity|].
  repeat split; assumption.
Qed.

(** A write drops the cached entry and is applied by the quorum
    coordinator, which has a single member. *)
Lemma write_invalidates (now : Z) (sch : Quorum.Schedule)
    (request response : Msg.Message) (h : HybridProtocol) :
  single_node_setup h ->
  exists r h',
    process_write now sch request response h = (true, r, h') /\
    single_node_setup h' /\
    cache_ h' = delete (Msg.key request) (cache_ h) /\
    cache_hits_ h' = cache_hits_ h /\
    cache_misses_ h' = cache_misses_ h /\
    NodeM.data_store_ (node_ h')
    = <[Msg.key request := Msg.value request]> (NodeM.data_store_ (node_ h)).
Proof.
  intros [Hc Hrp Hwp Hpat Hch Hpos Hq].
  unfold process_write. rewrite Hc.
  set (h1 := with_cache _ h).
  rewrite (write_mode_quorum h1) by assumption.
  cbn [Msg.mode_eqb orb].
  rewrite (quorum_write_single now sch request response (quorum_protocol_ h1) (node_ h1))
    by assumption.
  eexists. eexists. split; [reflexivity|].
  split; [split; cbn; assumption|].
  repeat split.
Qed.

(** C8, as stated, fails for the dispatcher of the repository's caching
    test, which has caching on, read preference CHAIN_ONLY, a single
    member and k -> v in the store, and routes writes to the chain
    coordinator: the write is acknowledged and removes k from the cache,
    but it waits in the write batch, so the next read returns the old
    value. *)
Lemma batched_chain_write_leaves_old_value :
  let h0 := chain_write_dispatcher in
  let '(ok1, r1, h1) := process_read 10 (idle 0 20) (read_request "k") Msg.new_message h0 in
  let '(ok2, r2, h2) := process_read 30 (idle 0 40) (read_request "k") Msg.new_message h1 in
  let '(ok3, r3, h3) := process_write 50 (idle 0 60) (write_request "k" "w") Msg.new_message h2 in
  let '(ok4, r4, h4) := process_read 70 (idle 0 80) (read_request "k") Msg.new_message h3 in
  caching_enabled_ h0 = true /\ read_preference_ h0 = Msg.CHAIN_ONLY /\
  Chain.chain_order_ (chain_protocol_ h0) = [1] /\
  Quorum.quorum_nodes_ (quorum_protocol_ h0) = [1] /\
  NodeM.data_store_ (node_ h0) !! "k" = Some "v" /\
  (ok1 = true /\ Msg.value r1 = "v" /\ cache_misses_ h1 = 1) /\
  (ok2 = true /\ Msg.value r2 = "v" /\ cache_hits_ h2 = 1) /\
  (ok3 = true /\ cache_ h3 !! "k" = None /\
   Chain.write_batch_ (chain_protocol_ h3) = [write_request "k" "w"] /\
   NodeM.data_store_ (node_ h3) !! "k" = Some "v") /\
  (ok4 = true /\ Msg.value r4 = "v" /\ Msg.value r4 <> "w" /\ cache_misses_ h4 = 2).
Proof. vm_compute. repeat split; try reflexivity. intros H. discriminate H. Qed.

(** C8 (amended): on a dispatcher with caching enabled, read preference
    CHAIN_ONLY, writes routed to the quorum coordinator (write preference
    QUORUM_ONLY and a workload pattern other than BURSTY, as the
    constructor leaves them), a cache with no entry for k and fewer than
    1000 entries, a cluster whose only member is the node itself and
    k -> v in the local store: the first process_read(k) returns v and
    advances cache_misses by one; a second process_read(k) issued less
    than cache_ttl after the first one completed returns v and advances
    cache_hits by one; process_write(k, v') removes k from the cache; the
    next process_read(k) returns v' and advances cache_misses by one. *)
Theorem cache_miss_hit_invalidate
    (h0 : HybridProtocol) (k v v' : string)
    (now1 now2 now3 now4 : Z) (s1 s2 s3 s4 : Quorum.Schedule)
    (read1 read2 write3 read4 resp1 resp2 resp3 resp4 : Msg.Message) :
  single_node_setup h0 ->
  cache_ h0 !! k = None -> Z.of_nat (size (cache_ h0)) < 1000 ->
  NodeM.data_store_ (node_ h0) !! k = Some v ->
  Msg.key read1 = k -> Msg.key read2 = k -> Msg.key read4 = k ->
  Msg.key write3 = k -> Msg.value write3 = v' ->
  wrap64 (now2 - Quorum.t_end s1) < cache_ttl_ h0 ->
  let '(ok1, r1, h1) := process_read now1 s1 read1 resp1 h0 in
  let '(ok2, r2, h2) := process_read now2 s2 read2 resp2 h1 in
  let '(ok3, r3, h3) := process_write now3 s3 write3 resp3 h2 in
  let '(ok4, r4, h4) := process_read now4 s4 read4 resp4 h3 in
  (ok1 = true /\ Msg.value r1 = v /\
   cache_misses_ h1 = wrap64 (cache_misses_ h0 + 1) /\ cache_hits_ h1 = cache_hits_ h0) /\
  (ok2 = true /\ Msg.value r2 = v /\
   cache_hits_ h2 = wrap64 (cache_hits_ h1 + 1) /\ cache_misses_ h2 = cache_misses_ h1) /\
  (ok3 = true /\ cache_ h3 !! k = None) /\
  (ok4 = true /\ Msg.value r4 = v' /\
   cache_misses_ h4 = wrap64 (cache_misses_ h3 + 1) /\ cache_hits_ h4 = cache_hits_ h3).
Proof.
  intros S0 Hnone Hsmall Hstore Hk1 Hk2 Hk4 Hk3 Hv3 Hfresh.
  destruct (read_miss now1 s1 read1 resp1 h0 v S0)
    as [r1 [h1 [E1 [V1 [S1 [C1 [T1 [M1 [H1 D1]]]]]]]]];
    [rewrite Hk1; exact Hnone | exact Hsmall | rewrite Hk1; exact Hstore|].
  rewrite E1. rewrite Hk1 in C1.
  destruct (read_hit now2 s2 read2 resp2 h1 v (Quorum.t_end s1) S1)
    as [r2 [h2 [E2 [V2 [S2 [C2 [H2 [M2 D2]]]]]]]].
  { rewrite Hk2, C1. apply lookup_insert_eq. }
  { rewrite T1. exact Hfresh. }
  rewrite E2.
  destruct (write_invalidates now3 s3 write3 resp3 h2 S2)
    as [r3 [h3 [E3 [S3 [C3 [H3 [M3 D3]]]]]]].
  rewrite E3.
  assert (C3' : cache_ h3 = cache_ h0).
  { rewrite C3, Hk3, C2, C1. apply delete_insert_id, Hnone. }
  destruct (read_miss now4 s4 read4 resp4 h3 v' S3)
    as [r4 [h4 [E4 [V4 [S4 [C4 [T4 [M4 [H4 D4]]]]]]]]].
  { rewrite Hk4, C3'. exact Hnone. }
  { rewrite C3'. exact Hsmall. }
  { rewrite D3, Hk4, Hk3, Hv3. apply lookup_insert_eq. }
  rewrite E4.
  split; [repeat split; assumption|].
  split; [repeat split; assumption|].
  split; [split; [reflexivity | rewrite C3'; exact Hnone]|].
  repeat split; assumption.
Qed.

Lemma cache_miss_hit_invalidate_witness :
  let '(ok1, r1, h1) :=
    process_read 10 (idle 0 20) (read_request "k") Msg.new_message
      (single_node_dispatcher node_with_k) in
  let '(ok2, r2, h2) := process_read 30 (idle 0 40) (read_request "k") Msg.new_message h1 in
  let '(ok3, r3, h3) := process_write 50 (idle 0 60) (write_request "k" "w") Msg.new_message h2 in
  let '(ok4, r4, h4) := process_read 70 (idle 0 80) (read_request "k") Msg.new_message h3 in
  (ok1 = true /\ Msg.value r1 = "v" /\
   cache_misses_ h1 = wrap64 (cache_misses_ (single_node_dispatcher node_with_k) + 1) /\
   cache_hits_ h1 = cache_hits_ (single_node_dispatcher node_with_k)) /\
  (ok2 = true /\ Msg.value r2 = "v" /\
   cache_hits_ h2 = wrap64 (cache_hits_ h1 + 1) /\ cache_misses_ h2 = cache_misses_ h1) /\
  (ok3 = true /\ cache_ h3 !! "k" = None) /\
  (ok4 = true /\ Msg.value r4 = "w" /\
   cache_misses_ h4 = wrap64 (cache_misses_ h3 + 1) /\ cache_hits_ h4 = cache_hits_ h3).
Proof.
  apply (cache_miss_hit_invalidate (single_node_dispatcher node_with_k) "k" "v" "w"
           10 30 50 70 (idle 0 20) (idle 0 40) (idle 0 60) (idle 0 80)
           (read_request "k") (read_request "k") (write_request "k" "w") (read_request "k")
           Msg.new_message Msg.new_message Msg.new_message Msg.new_message);
    try reflexivity.
  apply single_node_dispatcher_setup.
Defined.

End DispatcherCache.

(** * The wire codec of the message envelope *)

Section WireCodec.

Import Msg.

Local Open Scope string_scope.

(** *** Characters *)

Lemma digit_char_spec (d : Z) :
  0 <= d < 10 -> is_digit (digit_char d) = true /\ digit_val (digit_char d) = d.
Proof.
  intros H.
  assert (E : d = 0 \/ d = 1 \/ d = 2 \/ d = 3 \/ d = 4 \/ d = 5 \/ d = 6
              \/ d = 7 \/ d = 8 \/ d = 9) by lia.
  repeat (destruct E as [E|E]; [subst d; split; reflexivity|]).
  subst d; split; reflexivity.
Qed.

Lemma is_digit_range (c : ascii) :
  is_digit c = true -> (48 <= nat_of_ascii c <= 57)%nat.
Proof.
  unfold is_digit. intros H. apply andb_true_iff in H as [H1 H2].
  apply Nat.leb_le in H1, H2. lia.
Qed.

Lemma digit_differs (d c : ascii) :
  is_digit d = false -> is_digit c = true -> differs d c = true.
Proof.
  intros Hd Hc. unfold differs. destruct (Ascii.eqb c d) eqn:E; [|reflexivity].
  apply Ascii.eqb_eq in E. subst c. congruence.
Qed.

Lemma digit_not_space (c : ascii) : is_digit c = true -> is_space c = false.
Proof.
  intros H. apply is_digit_range in H. unfold is_space.
  apply orb_false_iff. split.
  - apply Nat.eqb_neq. lia.
  - apply andb_false_iff. right. apply Nat.leb_gt. lia.
Qed.

(** *** Strings *)

Lemma all_chars_app (P : ascii -> bool) (a b : string) :
  all_chars P (a ++ b) = all_chars P a && all_chars P b.
Proof.
  induction a as [|c a IH]; [reflexivity|].
  change (String c a ++ b) with (String c (a ++ b)).
  cbn [all_chars]. rewrite IH. apply andb_assoc.
Qed.

Lemma all_chars_impl (P R : ascii -> bool) (s : string) :
  (forall c, P c = true -> R c = true) ->
  all_chars P s = true -> all_chars R s = true.
Proof.
  intros HPR. induction s as [|c s IH]; [reflexivity|].
  cbn [all_chars]. intros H. apply andb_true_iff in H as [Hc Hs].
  rewrite (HPR c Hc), (IH Hs). reflexivity.
Qed.

Lemma no_pipe_differs (s : string) : no_pipe s = all_chars (differs "|") s.
Proof.
  induction s as [|c s IH]; [reflexivity|].
  cbn [no_pipe all_chars]. rewrite IH. reflexivity.
Qed.

Lemma digits_differ (d : ascii) (s : string) :
  is_digit d = false -> all_chars is_digit s = true -> all_chars (differs d) s = true.
Proof. intros Hd. apply all_chars_impl. intros c. apply digit_differs, Hd. Qed.

(** *** Reading up to a delimiter *)

Lemma read_until_found (d : ascii) (t rest : string) :
  all_chars (differs d) t = true ->
  read_until d (t ++ String d rest) = (t, Some rest).
Proof.
  induction t as [|c t IH].
  - intros _. change ("" ++ String d rest) with (String d rest).
    cbn [read_until]. rewrite Ascii.eqb_refl. reflexivity.
  - change (String c t ++ String d rest) with (String c (t ++ String d rest)).
    cbn [all_chars read_until].
    intros H. apply andb_true_iff in H as [Hc Ht].
    unfold differs in Hc. apply negb_true_iff in Hc. rewrite Hc, (IH Ht).
    reflexivity.
Qed.

Lemma read_until_end (d : ascii) (t : string) :
  all_chars (differs d) t = true -> read_until d t = (t, None).
Proof.
  induction t as [|c t IH]; [reflexivity|].
  cbn [all_chars read_until].
  intros H. apply andb_true_iff in H as [Hc Ht].
  unfold differs in Hc. apply negb_true_iff in Hc. rewrite Hc, (IH Ht).
  reflexivity.
Qed.

Lemma getline_found (d : ascii) (t rest : string) :
  all_chars (differs d) t = true ->
  getline (istringstream (t ++ String d rest)) d
  = (Some t, istringstream rest).
Proof.
  intros H. unfold getline, istringstream. cbn [eofbit failbit unread orb].
  rewrite (read_until_found d t rest H). destruct t; reflexivity.
Qed.

Lemma getline_last (d : ascii) (c : ascii) (t : string) :
  all_chars (differs d) (String c t) = true ->
  getline (istringstream (String c t)) d
  = (Some (String c t), mkIstream "" true false).
Proof.
  intros H. unfold getline, istringstream. cbn [eofbit failbit unread orb].
  rewrite (read_until_end d _ H). reflexivity.
Qed.

Lemma getline_nothing (d : ascii) :
  getline (istringstream "") d = (None, mkIstream "" true true).
Proof. reflexivity. Qed.

Lemma getline_at_eof (d : ascii) (f : bool) :
  fst (getline (mkIstream "" true f) d) = None.
Proof. reflexivity. Qed.

(** *** Printing and reading numbers *)

Lemma put_digits_shape (fuel : nat) :
  forall n acc, (0 <= n)%Z ->
    exists c s, put_digits (S fuel) n acc = String c s /\ is_digit c = true.
Proof.
  induction fuel as [|fuel IH]; intros n acc Hn.
  - cbn. destruct (n / 10 =? 0)%Z; eexists; eexists; (split; [reflexivity|]);
      apply digit_char_spec, Z.mod_pos_bound; lia.
  - change (put_digits (S (S fuel)) n acc)
      with (if (n / 10 =? 0)%Z then String (digit_char (n mod 10)) acc
            else put_digits (S fuel) (n / 10) (String (digit_char (n mod 10)) acc)).
    destruct (n / 10 =? 0)%Z.
    + eexists; eexists; (split; [reflexivity|]).
      apply digit_char_spec, Z.mod_pos_bound; lia.
    + apply IH. apply Z.div_pos; lia.
Qed.

Lemma put_digits_all_digits (fuel : nat) :
  forall n acc, (0 <= n)%Z -> all_chars is_digit acc = true ->
                all_chars is_digit (put_digits fuel n acc) = true.
Proof.
  induction fuel as [|fuel IH]; intros n acc Hn Hacc; [exact Hacc|].
  assert (Hd : all_chars is_digit (String (digit_char (n mod 10)) acc) = true).
  { cbn. rewrite Hacc.
    rewrite (proj1 (digit_char_spec (n mod 10) ltac:(apply Z.mod_pos_bound; lia))).
    reflexivity. }
  cbn [put_digits]. destruct (n / 10 =? 0)%Z; [exact Hd|].
  apply IH; [apply Z.div_pos; lia | exact Hd].
Qed.

Lemma get_digits_step (c : ascii) (s : string) (acc : option Z) :
  is_digit c = true ->
  get_digits (String c s) acc = get_digits s (Some (acc_val acc * 10 + digit_val c)%Z).
Proof. intros H. cbn. rewrite H. reflexivity. Qed.

(** Reading back what [put_digits] wrote continues from the accumulator
    shifted by the number of digits written. *)
Lemma get_digits_put_digits (fuel : nat) :
  forall n, (0 <= n < 2 ^ Z.of_nat (S fuel))%Z ->
    exists k, (0 <= k)%Z /\
      forall rest acc,
        get_digits (put_digits (S fuel) n rest) acc
        = get_digits rest (Some (acc_val acc * 10 ^ k + n)%Z).
Proof.
  induction fuel as [|fuel IH]; intros n Hn;
    assert (Hmod : (0 <= n mod 10 < 10)%Z) by (apply Z.mod_pos_bound; lia);
    destruct (digit_char_spec _ Hmod) as [Hdig Hval];
    pose proof (Z.div_mod n 10 ltac:(lia)) as Hdm.
  - assert (E : n / 10 = 0) by (apply Z.div_small; cbn in Hn; lia).
    exists 1%Z. split; [lia|]. intros rest acc.
    cbn [put_digits]. rewrite E. cbn [Z.eqb].
    rewrite get_digits_step, Hval by exact Hdig. f_equal. f_equal. lia.
  - change (put_digits (S (S fuel)) n)
      with (fun acc => if (n / 10 =? 0)%Z then String (digit_char (n mod 10)) acc
            else put_digits (S fuel) (n / 10) (String (digit_char (n mod 10)) acc)).
    cbv beta.
    destruct (n / 10 =? 0)%Z eqn:E.
    + apply Z.eqb_eq in E. exists 1%Z. split; [lia|]. intros rest acc.
      rewrite get_digits_step, Hval by exact Hdig. f_equal. f_equal. lia.
    + assert (Hq : (0 <= n / 10 < 2 ^ Z.of_nat (S fuel))%Z).
      { split; [apply Z.div_pos; lia|].
        rewrite (Nat2Z.inj_succ (S fuel)), Z.pow_succ_r in Hn by lia.
        apply Z.div_lt_upper_bound; lia. }
      destruct (IH _ Hq) as [k [Hk Hget]].
      exists (k + 1)%Z. split; [lia|]. intros rest acc.
      rewrite Hget, get_digits_step, Hval by exact Hdig. cbn [acc_val].
      f_equal. f_equal.
      rewrite Z.pow_add_r, Z.pow_1_r by lia. lia.
Qed.

Lemma digit_fuel_enough (n : Z) : (0 <= n -> n < 2 ^ Z.of_nat (digit_fuel n))%Z.
Proof.
  intros Hn. unfold digit_fuel.
  rewrite Nat2Z.inj_succ, Z2Nat.id by apply Z.log2_nonneg.
  destruct (Z.eq_dec n 0) as [->|Hne]; [reflexivity|].
  apply Z.log2_spec. lia.
Qed.

Lemma put_unsigned_digits (n : Z) :
  (0 <= n)%Z -> all_chars is_digit (put_unsigned n) = true.
Proof. intros Hn. apply put_digits_all_digits; [exact Hn | reflexivity]. Qed.

Lemma put_unsigned_shape (n : Z) :
  (0 <= n)%Z -> exists c s, put_unsigned n = String c s /\ is_digit c = true.
Proof. intros Hn. apply put_digits_shape, Hn. Qed.

Lemma get_digits_put_unsigned (n : Z) :
  (0 <= n)%Z -> get_digits (put_unsigned n) None = Some n.
Proof.
  intros Hn.
  destruct (get_digits_put_digits (Z.to_nat (Z.log2 n)) n) as [k [Hk Hget]].
  { split; [exact Hn | apply digit_fuel_enough, Hn]. }
  unfold put_unsigned, digit_fuel. rewrite Hget. cbn. reflexivity.
Qed.

(** A string that starts with a digit has no blanks to skip and no sign. *)
Lemma scan_number_digits (c : ascii) (s : string) :
  is_digit c = true ->
  scan_number (String c s)
  = match get_digits (String c s) None with
    | Some v => Some (false, v)
    | None => None
    end.
Proof.
  intros H. unfold scan_number. cbn [skip_space].
  rewrite (digit_not_space c H).
  apply is_digit_range in H.
  destruct c as [[] [] [] [] [] [] [] []]; vm_compute in H; try lia; reflexivity.
Qed.

Lemma scan_number_put_unsigned (n : Z) :
  (0 <= n)%Z -> scan_number (put_unsigned n) = Some (false, n).
Proof.
  intros Hn. destruct (put_unsigned_shape n Hn) as [c [s [E Hc]]].
  pose proof (get_digits_put_unsigned n Hn) as Hget.
  rewrite E in *. rewrite (scan_number_digits c s Hc), Hget. reflexivity.
Qed.

Lemma stoul_put_unsigned (n : Z) :
  (0 <= n < 2 ^ 64)%Z -> stoul (put_unsigned n) = Some n.
Proof.
  intros Hn. unfold stoul. rewrite scan_number_put_unsigned by lia.
  destruct (n <=? ULONG_MAX)%Z eqn:E; [reflexivity|].
  apply Z.leb_gt in E. unfold ULONG_MAX in E. lia.
Qed.

Lemma stoi_put_int (i : Z) :
  (INT_MIN <= i <= INT_MAX)%Z -> stoi (put_int i) = Some i.
Proof.
  intros Hi. unfold stoi, put_int.
  assert (Hrange : ((INT_MIN <=? i) && (i <=? INT_MAX))%Z = true).
  { apply andb_true_iff. split; apply Z.leb_le; lia. }
  destruct (i <? 0)%Z eqn:E.
  - apply Z.ltb_lt in E.
    unfold scan_number.
    change (skip_space (String "-" (put_unsigned (- i))))
      with (String "-" (put_unsigned (- i))).
    cbn match. rewrite get_digits_put_unsigned by lia.
    rewrite Z.opp_involutive, Hrange. reflexivity.
  - apply Z.ltb_ge in E. rewrite scan_number_put_unsigned by lia.
    rewrite Hrange. reflexivity.
Qed.

Lemma put_int_no_pipe (i : Z) : all_chars (differs "|") (put_int i) = true.
Proof.
  unfold put_int. destruct (i <? 0)%Z eqn:E.
  - apply Z.ltb_lt in E. cbn.
    apply digits_differ; [reflexivity | apply put_unsigned_digits; lia].
  - apply Z.ltb_ge in E.
    apply digits_differ; [reflexivity | apply put_unsigned_digits; lia].
Qed.

(** *** The node list *)

Lemma append_empty_r (s : string) : s ++ "" = s.
Proof.
  induction s as [|c s IH]; [reflexivity|].
  change (String c s ++ "") with (String c (s ++ "")). rewrite IH. reflexivity.
Qed.

Lemma length_append (a b : string) :
  String.length (a ++ b) = (String.length a + String.length b)%nat.
Proof.
  induction a as [|c a IH]; [reflexivity|].
  change (String c a ++ b) with (String c (a ++ b)). cbn [String.length].
  rewrite IH. reflexivity.
Qed.

Lemma put_targets_first (x : Z) (l : list Z) :
  put_targets true (x :: l) = put_unsigned x ++ put_targets false l.
Proof. reflexivity. Qed.

Lemma put_targets_next (y : Z) (l : list Z) :
  put_targets false (y :: l) = String "," (put_targets true (y :: l)).
Proof. reflexivity. Qed.

Lemma put_targets_no_pipe (l : list Z) :
  Forall (fun x => 0 <= x < 2 ^ 32) l ->
  forall first, all_chars (differs "|") (put_targets first l) = true.
Proof.
  induction 1 as [|x l Hx Hl IH]; intros first; [reflexivity|].
  cbn [put_targets]. rewrite !all_chars_app, (IH false).
  rewrite (digits_differ "|" (put_unsigned x)) by
    (try reflexivity; apply put_unsigned_digits; lia).
  destruct first; reflexivity.
Qed.

Lemma put_targets_length (l : list Z) :
  Forall (fun x => 0 <= x < 2 ^ 32) l ->
  forall first, (length l <= String.length (put_targets first l))%nat.
Proof.
  induction 1 as [|x l Hx Hl IH]; intros first; [cbn; lia|].
  cbn [put_targets length]. rewrite !length_append.
  specialize (IH false).
  destruct (put_unsigned_shape x ltac:(lia)) as [c [s [E _]]]. rewrite E.
  cbn [String.length]. lia.
Qed.

Lemma wrap32_small (z : Z) : 0 <= z < 2 ^ 32 -> wrap32 z = z.
Proof. intros H. unfold wrap32. apply Z.mod_small. exact H. Qed.

(** The inner loop reads back the list that the printing loop wrote. *)
Lemma get_targets_put_targets (l : list Z) :
  forall x acc fuel,
    Forall (fun x => 0 <= x < 2 ^ 32) (x :: l) ->
    (length (x :: l) < fuel)%nat ->
    get_targets fuel (istringstream (put_targets true (x :: l))) acc
    = Some (acc ++ x :: l)%list.
Proof.
  induction l as [|y l IH]; intros x acc fuel Hall Hfuel;
    inversion Hall as [|x' l' Hx Hl]; subst;
    (destruct fuel as [|fuel]; [cbn in Hfuel; lia|]);
    assert (Hcomma : all_chars (differs ",") (put_unsigned x) = true)
      by (apply digits_differ; [reflexivity | apply put_unsigned_digits; lia]);
    rewrite put_targets_first.
  - cbn [put_targets]. rewrite append_empty_r.
    destruct (put_unsigned_shape x ltac:(lia)) as [c [s [E _]]].
    cbn [get_targets]. rewrite E in *. rewrite (getline_last "," c s Hcomma).
    rewrite <- E, stoul_put_unsigned, wrap32_small by lia.
    destruct fuel; reflexivity.
  - rewrite put_targets_next. cbn [get_targets].
    rewrite (getline_found "," _ _ Hcomma).
    rewrite stoul_put_unsigned, wrap32_small by lia.
    rewrite IH; [|exact Hl|cbn in Hfuel |- *; lia].
    rewrite <- app_assoc. reflexivity.
Qed.

(** *** The envelope *)

Lemma field_found (conv : string -> Message -> option Message)
    (msg : Message) (t rest : string) :
  all_chars (differs "|") t = true ->
  field conv (Some (msg, istringstream (t ++ String "|" rest)))
  = match conv t msg with
    | Some msg' => Some (msg', istringstream rest)
    | None => None
    end.
Proof. intros H. unfold field. rewrite (getline_found "|" t rest H). reflexivity. Qed.

Lemma type_of_int_of_type (t : MessageType) :
  type_ok t -> type_of_int (int_of_type t) = t.
Proof.
  destruct t; try reflexivity.
  cbn. intros [_ [H|H]].
  - destruct code as [|p|p]; try lia. reflexivity.
  - destruct code as [|p|p]; try lia.
    do 5 (try (destruct p as [p|p|]; try lia; try reflexivity)).
Qed.

Lemma int_of_type_range (t : MessageType) :
  type_ok t -> INT_MIN <= int_of_type t <= INT_MAX.
Proof.
  destruct t; cbn; try (intros _; unfold INT_MIN, INT_MAX; lia).
  intros [H _]. exact H.
Qed.

(** C7: for every message whose integer fields lie in the ranges of their
    C++ types and whose key, value, correlation and metadata strings
    contain no pipe character, deserialize (serialize m) returns m: all
    eleven fields are recovered, also when string fields are empty and
    when the target list is empty. *)
Theorem deserialize_serialize (m : Message) :
  well_formed m ->
  no_pipe (key m) = true -> no_pipe (value m) = true ->
  no_pipe (correlation_id m) = true -> no_pipe (metadata m) = true ->
  deserialize (serialize m) = Some m.
Proof.
  intros [Hty Hsnd Hrcv Hts Hseq Htg] Hk Hv Hc Hm.
  destruct m as [ty snd rcv k v ok ts seq corr tgs meta].
  cbn [type sender_id receiver_id key value success timestamp sequence_number
       correlation_id target_nodes metadata] in *.
  rewrite no_pipe_differs in Hk, Hv, Hc, Hm.
  assert (Hdig : forall n, 0 <= n -> all_chars (differs "|") (put_unsigned n) = true).
  { intros n Hn. apply digits_differ; [reflexivity | apply put_unsigned_digits, Hn]. }
  unfold deserialize, serialize.
  cbn [type sender_id receiver_id key value success timestamp sequence_number
       correlation_id target_nodes metadata].
  repeat match goal with
         | |- context [String "|" EmptyString ++ ?x] =>
             change (String "|" EmptyString ++ x) with (String "|" x)
         end.
  cbv zeta.
  rewrite field_found by apply put_int_no_pipe.
  rewrite stoi_put_int, type_of_int_of_type by (try apply int_of_type_range; exact Hty).
  rewrite field_found by (apply Hdig; lia).
  rewrite stoul_put_unsigned, wrap32_small by lia.
  rewrite field_found by (apply Hdig; lia).
  rewrite stoul_put_unsigned, wrap32_small by lia.
  rewrite field_found by exact Hk.
  rewrite field_found by exact Hv.
  rewrite field_found by (destruct ok; reflexivity).
  rewrite field_found by (apply Hdig; lia).
  unfold stoull. rewrite stoul_put_unsigned by lia.
  rewrite field_found by (apply Hdig; lia).
  rewrite stoul_put_unsigned, wrap32_small by lia.
  rewrite field_found by exact Hc.
  rewrite field_found by (apply put_targets_no_pipe; exact Htg).
  assert (Htargets :
    (if String.eqb (put_targets true tgs) ""
     then Some []
     else get_targets (S (String.length (put_targets true tgs)))
            (istringstream (put_targets true tgs)) []) = Some tgs).
  { destruct tgs as [|x l]; [reflexivity|].
    destruct (String.eqb (put_targets true (x :: l)) "") eqn:E.
    - apply String.eqb_eq in E. rewrite put_targets_first in E.
      destruct (put_unsigned_shape x) as [c [s [Ex _]]].
      { inversion Htg; lia. }
      rewrite Ex in E. discriminate E.
    - apply get_targets_put_targets; [exact Htg|].
      pose proof (put_targets_length (x :: l) Htg true). lia. }
  cbn [set_type set_sender_id set_receiver_id set_key set_value set_success
       set_timestamp set_sequence_number set_correlation_id new_message
       type sender_id receiver_id key value success timestamp sequence_number
       correlation_id target_nodes metadata].
  destruct (String.eqb (put_targets true tgs) "") eqn:E.
  - injection Htargets as <-.
    assert (Hok : String.eqb (if ok then "1" else "0") "1" = ok) by (destruct ok; reflexivity).
    rewrite Hok.
    destruct meta as [|c meta]; [reflexivity|].
    unfold field. rewrite (getline_last "|" c meta Hm). reflexivity.
  - rewrite Htargets.
    assert (Hok : String.eqb (if ok then "1" else "0") "1" = ok) by (destruct ok; reflexivity).
    rewrite Hok.
    destruct meta as [|c meta]; [reflexivity|].
    unfold field. rewrite (getline_last "|" c meta Hm). reflexivity.
Qed.

Lemma deserialize_serialize_witness :
  deserialize
    (serialize (mkMessage QUORUM_PROMISE 3 1 "k" "" true 1700000000000000 42 ""
                  [2; 17; 4000000000] ""))
  = Some (mkMessage QUORUM_PROMISE 3 1 "k" "" true 1700000000000000 42 ""
            [2; 17; 4000000000] "").
Proof.
  apply (deserialize_serialize
           (mkMessage QUORUM_PROMISE 3 1 "k" "" true 1700000000000000 42 ""
              [2; 17; 4000000000] "")); try reflexivity.
  split; cbn; first [exact I | lia | repeat constructor; lia].
Defined.

End WireCodec.

(** * Further properties of the quorum coordinator *)

Section ProposerSafety.

Import Quorum.

Lemma accepted_senders_app (pn : Z) (a b : list Event) :
  accepted_senders pn (a ++ b) = accepted_senders pn a ∪ accepted_senders pn b.
Proof.
  induction a as [|e a IH]; cbn [app accepted_senders].
  - set_solver.
  - destruct e; try exact IH.
    destruct (Msg.sequence_number m =? pn); rewrite IH; set_solver.
Qed.

(** A handler call never creates a proposal, and it adds to the accepted
    set of proposal [pn] only the sender of an accepted message that
    carries [pn]. *)
Lemma step_accepted (e : Event) (pn : Z) (q : QuorumReplication) (n : NodeM.Node)
    (p' : QuorumState) :
  active_proposals_ (fst (step e (q, n))) !! pn = Some p' ->
  exists p, active_proposals_ q !! pn = Some p /\
            accepted_nodes p' ⊆ accepted_nodes p ∪ accepted_senders pn [e].
Proof.
  destruct (is_response e) eqn:R.
  - destruct e; try discriminate R; cbn [step fst accepted_senders].
    + unfold handle_promise.
      destruct (active_proposals_ q !! Msg.sequence_number m) as [p|] eqn:Ep.
      * destruct (has_majority _ _);
          cbn [fst snd active_proposals_ set_active_proposals send_accept_messages];
          (destruct (decide (Msg.sequence_number m = pn)) as [E|Hne];
           [ rewrite <- E, lookup_insert_eq; intros H; inversion H; subst p';
             exists p; split; [exact Ep | cbn [accepted_nodes]; set_solver]
           | rewrite lookup_insert_ne by exact Hne; intros H;
             exists p'; split; [exact H | set_solver] ]).
      * cbn [fst]. intros H. exists p'. split; [exact H | set_solver].
    + unfold handle_accepted.
      destruct (active_proposals_ q !! Msg.sequence_number m) as [p|] eqn:Ep.
      * cbn [fst active_proposals_ set_active_proposals].
        destruct (decide (Msg.sequence_number m = pn)) as [E|Hne].
        -- rewrite <- E, lookup_insert_eq, Z.eqb_refl.
           intros H. inversion H; subst p'.
           exists p. split; [exact Ep|].
           destruct (has_accept_majority _ _); cbn [accepted_nodes]; set_solver.
        -- rewrite lookup_insert_ne by exact Hne. intros H.
           exists p'. split; [exact H | set_solver].
      * cbn [fst]. intros H. exists p'. split; [exact H | set_solver].
  - intros H.
    rewrite (proposer_view_active _ _ (step_proposer_view e q n R)) in H.
    exists p'. split; [exact H | set_solver].
Qed.

Lemma run_accepted (evs : list Event) (pn : Z) :
  forall q n p',
    active_proposals_ (fst (run evs (q, n))) !! pn = Some p' ->
    exists p, active_proposals_ q !! pn = Some p /\
              accepted_nodes p' ⊆ accepted_nodes p ∪ accepted_senders pn evs.
Proof.
  induction evs as [|e evs IH]; intros q n p' H.
  - exists p'. split; [exact H | set_solver].
  - cbn [run fold_left] in H. fold (run evs (step e (q, n))) in H.
    destruct (step e (q, n)) as [q1 n1] eqn:E.
    destruct (IH q1 n1 p' H) as [p1 [Hp1 Hsub]].
    replace q1 with (fst (step e (q, n))) in Hp1 by (rewrite E; reflexivity).
    destruct (step_accepted e pn q n p1 Hp1) as [p [Hp Hsub']].
    exists p. split; [exact Hp|].
    change (e :: evs) with ([e] ++ evs). rewrite accepted_senders_app.
    set_solver.
Qed.

(** The write loop returns true only at a poll that finds the proposal
    committed with a majority of accepts; it then writes locally and
    erases the proposal. *)
Lemma write_poll_commit (rs : list (list Event)) (pn : Z) (k v : string) :
  forall q n q' n',
    write_poll rs pn k v (q, n) = (true, q', n') ->
    exists i q_i n_i p,
      (i < length rs)%nat /\
      run (concat (firstn (S i) rs)) (q, n) = (q_i, n_i) /\
      active_proposals_ q_i !! pn = Some p /\
      phase p = COMMIT /\
      has_accept_majority p (vsize (quorum_nodes_ q_i)) = true /\
      n' = snd (NodeM.write k v n_i) /\
      q' = set_active_proposals (delete pn (active_proposals_ q_i)) q_i.
Proof.
  induction rs as [|evs rs IH]; intros q n q' n' H; [discriminate H|].
  cbn [write_poll] in H.
  destruct (run evs (q, n)) as [q1 n1] eqn:Erun.
  assert (Hlater :
    write_poll rs pn k v (q1, n1) = (true, q', n') ->
    exists i q_i n_i p,
      (i < length (evs :: rs))%nat /\
      run (concat (firstn (S i) (evs :: rs))) (q, n) = (q_i, n_i) /\
      active_proposals_ q_i !! pn = Some p /\
      phase p = COMMIT /\
      has_accept_majority p (vsize (quorum_nodes_ q_i)) = true /\
      n' = snd (NodeM.write k v n_i) /\
      q' = set_active_proposals (delete pn (active_proposals_ q_i)) q_i).
  { intros H'. destruct (IH q1 n1 q' n' H') as [i [q_i [n_i [p [Hi [Hr Hrest]]]]]].
    exists (S i), q_i, n_i, p. split; [cbn; lia|]. split; [|exact Hrest].
    change (firstn (S (S i)) (evs :: rs)) with (evs :: firstn (S i) rs).
    cbn [concat]. rewrite run_app, Erun. exact Hr. }
  destruct (active_proposals_ q1 !! pn) as [p|] eqn:Ep; [|exact (Hlater H)].
  destruct (phase_eqb (phase p) COMMIT) eqn:Hph; cbn [andb] in H; [|exact (Hlater H)].
  destruct (has_accept_majority p (vsize (quorum_nodes_ q1))) eqn:Hm; [|exact (Hlater H)].
  inversion H; subst q' n'.
  exists 0%nat, q1, n1, p. split; [cbn; lia|].
  split; [cbn [firstn concat]; rewrite app_nil_r; exact Erun|].
  repeat split; try assumption.
  destruct (phase p); try discriminate Hph; reflexivity.
Qed.

(** A committed poll has seen accepted messages for the proposal from a
    majority of distinct senders, when the proposal started without
    accepts. *)
Lemma write_poll_senders (rs : list (list Event)) (pn : Z) (k v : string)
    (q : QuorumReplication) (n : NodeM.Node) (p0 : QuorumState) (q' : QuorumReplication)
    (n' : NodeM.Node) :
  active_proposals_ q !! pn = Some p0 -> accepted_nodes p0 = ∅ ->
  write_poll rs pn k v (q, n) = (true, q', n') ->
  exists i q_i n_i,
    (i < length rs)%nat /\
    run (concat (firstn (S i) rs)) (q, n) = (q_i, n_i) /\
    vsize (quorum_nodes_ q_i) / 2 + 1
    <= Z.of_nat (size (accepted_senders pn (concat (firstn (S i) rs)))) /\
    n' = snd (NodeM.write k v n_i) /\
    q' = set_active_proposals (delete pn (active_proposals_ q_i)) q_i.
Proof.
  intros Hp0 Hempty H.
  destruct (write_poll_commit rs pn k v q n q' n' H)
    as [i [q_i [n_i [p [Hi [Hr [Hp [_ [Hm [Hn Hq]]]]]]]]]].
  exists i, q_i, n_i. split; [exact Hi|]. split; [exact Hr|].
  split; [|split; assumption].
  apply has_accept_majority_spec in Hm.
  destruct (run_accepted (concat (firstn (S i) rs)) pn q n p) as [p1 [Hp1 Hsub]].
  { rewrite Hr. exact Hp. }
  rewrite Hp0 in Hp1. inversion Hp1; subst p1. rewrite Hempty in Hsub.
  assert (Hsize : (size (accepted_nodes p)
                   <= size (accepted_senders pn (concat (firstn (S i) rs))))%nat).
  { apply subseteq_size. set_solver. }
  lia.
Qed.

(** Calls that carry no accepted message for [pn] contribute no sender. *)
Lemma accepted_senders_none (pn : Z) (evs : list Event) :
  Forall (fun e => response_number e <> Some pn) evs ->
  accepted_senders pn evs = ∅.
Proof.
  induction 1 as [|e evs He Hevs IH]; [reflexivity|].
  destruct e; cbn [accepted_senders]; try exact IH.
  destruct (Msg.sequence_number m =? pn) eqn:E; [|exact IH].
  apply Z.eqb_eq in E. exfalso. apply He. cbn. rewrite E. reflexivity.
Qed.

(** No handler call touches the proposal counter or the two tallies. *)
Lemma step_counters (e : Event) (q : QuorumReplication) (n : NodeM.Node) :
  consensus_counters (fst (step e (q, n))) = consensus_counters q.
Proof.
  destruct (is_response e) eqn:R.
  - destruct e; try discriminate R; cbn [step].
    + unfold handle_promise.
      destruct (active_proposals_ q !! Msg.sequence_number m); [|reflexivity].
      destruct (has_majority _ _); reflexivity.
    + unfold handle_accepted.
      destruct (active_proposals_ q !! Msg.sequence_number m); reflexivity.
  - pose proof (step_proposer_view e q n R) as H.
    unfold proposer_view in H. unfold consensus_counters. congruence.
Qed.

Lemma run_counters (evs : list Event) :
  forall q n, consensus_counters (fst (run evs (q, n))) = consensus_counters q.
Proof.
  induction evs as [|e evs IH]; intros q n; [reflexivity|].
  cbn [run fold_left]. fold (run evs (step e (q, n))).
  destruct (step e (q, n)) as [q1 n1] eqn:E.
  rewrite IH.
  replace q1 with (fst (step e (q, n))) by (rewrite E; reflexivity).
  apply step_counters.
Qed.

Lemma write_poll_counters (rs : list (list Event)) (pn : Z) (k v : string) :
  forall q n,
    consensus_counters (snd (fst (write_poll rs pn k v (q, n)))) = consensus_counters q.
Proof.
  induction rs as [|evs rs IH]; intros q n; [reflexivity|].
  cbn [write_poll].
  pose proof (run_counters evs q n) as Hrun.
  destruct (run evs (q, n)) as [q1 n1]. cbn [fst] in Hrun.
  destruct (active_proposals_ q1 !! pn) as [p|].
  - destruct (phase_eqb (phase p) COMMIT && has_accept_majority p _).
    + cbn [fst snd]. rewrite <- Hrun. reflexivity.
    + rewrite IH. exact Hrun.
  - rewrite IH. exact Hrun.
Qed.

(** The read loop counts a success exactly when it returns from inside. *)
Lemma read_poll_counters (rs : list (list Event)) (sch : Schedule) (now pn : Z)
    (request response : Msg.Message) :
  forall q n,
    read_poll_outcome response q (read_poll rs sch now pn request response (q, n)).
Proof.
  induction rs as [|evs rs IH]; intros q n; [split; reflexivity|].
  cbn [read_poll].
  pose proof (run_counters evs q n) as Hrun.
  destruct (run evs (q, n)) as [q1 n1]. cbn [fst] in Hrun.
  assert (Hlater :
    read_poll_outcome response q (read_poll rs sch now pn request response (q1, n1))).
  { specialize (IH q1 n1). unfold read_poll_outcome, consensus_counters in *.
    destruct (read_poll rs sch now pn request response (q1, n1))
      as [[[[ok r] q'] n']|[[r q'] n']].
    - injection Hrun as H1 H2 H3. rewrite <- H1, <- H2, <- H3. exact IH.
    - destruct IH as [Hr IH]. split; [exact Hr|]. rewrite IH. exact Hrun. }
  destruct (active_proposals_ q1 !! pn) as [p|]; [|exact Hlater].
  destruct (has_majority p (vsize (quorum_nodes_ q1))); [|exact Hlater].
  unfold consensus_counters in Hrun. injection Hrun as H1 H2 H3.
  destruct (NodeM.read (Msg.key request) n1) as [[v|] n2].
  - cbn. rewrite H1, H2, H3. repeat split.
  - unfold read_poll_outcome, consensus_counters. split; [reflexivity | congruence].
Qed.

(** A write that finds no accepted message for its proposal number fails
    at the deadline and is counted as failed. *)
Lemma write_unanswered (now : Z) (sch : Schedule) (request response : Msg.Message)
    (q : QuorumReplication) (n : NodeM.Node) :
  vsize (quorum_nodes_ q) <> 1 ->
  Forall (Forall (fun e => response_number e <> Some (next_proposal_number_ q)))
         (rounds sch) ->
  let '(ok, r, q', n') := process_write now sch request response q n in
  ok = false /\ Msg.success r = false /\
  active_proposals_ q' !! next_proposal_number_ q = None /\
  failed_consensus_ q' = wrap64 (failed_consensus_ q + 1) /\
  successful_consensus_ q' = successful_consensus_ q.
Proof.
  intros HN Hrounds. apply Z.eqb_neq in HN.
  unfold process_write. rewrite HN.
  unfold initiate_consensus, generate_proposal_number, send_prepare_messages.
  cbn [negb].
  set (pn := next_proposal_number_ q) in *.
  set (q2 := set_active_proposals _ _).
  set (n1 := send_to_others _ _ _).
  pose proof (write_poll_counters (rounds sch) pn (Msg.key request)
                (Msg.value request) q2 n1) as Hc.
  destruct (write_poll (rounds sch) pn (Msg.key request) (Msg.value request) (q2, n1))
    as [[[|] q3] n3] eqn:Epoll.
  - exfalso.
    destruct (write_poll_senders (rounds sch) pn (Msg.key request) (Msg.value request)
                q2 n1
                (mkQuorumState pn PREPARE (Msg.key request) (Msg.value request) ∅ ∅ now)
                q3 n3)
      as [i [q_i [n_i [_ [_ [Hmaj _]]]]]];
      [apply lookup_insert_eq | reflexivity | exact Epoll |].
    rewrite accepted_senders_none in Hmaj.
    + pose proof (vsize_nonneg (quorum_nodes_ q_i)) as Hnn.
      rewrite size_empty in Hmaj.
      assert (0 <= vsize (quorum_nodes_ q_i) / 2) by (apply Z.div_pos; lia).
      lia.
    + apply Forall_concat. apply Forall_take. exact Hrounds.
  - cbn [fst snd] in Hc.
    pose proof (run_counters (late sch) q3 n3) as Hl.
    destruct (run (late sch) (q3, n3)) as [q4 n4]. cbn [fst] in Hl.
    rewrite Hc in Hl. unfold consensus_counters in Hl.
    injection Hl as Hnext Hok Hfail.
    cbn. rewrite Hok, Hfail.
    repeat split. apply lookup_delete_eq.
Qed.

(** X1: on a quorum of more than one member (or none), process_write
    returns true only if, at one of its polls, accepted messages carrying
    the proposal's number had arrived from at least floor(N/2)+1 distinct
    senders, N being the member count at that poll; the value is then
    written to the local store as it is at that poll, and the proposal is
    gone from the table. *)
Theorem write_success_needs_accepted_majority
    (now : Z) (sch : Schedule) (request response : Msg.Message)
    (q : QuorumReplication) (n : NodeM.Node) :
  vsize (quorum_nodes_ q) <> 1 ->
  let '(ok, r, q', n') := process_write now sch request response q n in
  ok = true ->
  exists i q_i n_i,
    (i < length (rounds sch))%nat /\
    run (concat (firstn (S i) (rounds sch)))
        (snd (write_proposal_stored now (Msg.key request) (Msg.value request) q n))
    = (q_i, n_i) /\
    vsize (quorum_nodes_ q_i) / 2 + 1
    <= Z.of_nat (size (accepted_senders (next_proposal_number_ q)
                         (concat (firstn (S i) (rounds sch))))) /\
    NodeM.data_store_ n'
    = <[Msg.key request := Msg.value request]> (NodeM.data_store_ n_i) /\
    active_proposals_ q' !! next_proposal_number_ q = None.
Proof.
  intros HN. apply Z.eqb_neq in HN.
  unfold process_write. rewrite HN.
  unfold write_proposal_stored, initiate_consensus, generate_proposal_number,
    send_prepare_messages.
  cbn [negb fst snd].
  set (pn := next_proposal_number_ q).
  set (q2 := set_active_proposals _ _).
  set (n1 := send_to_others _ _ _).
  destruct (write_poll (rounds sch) pn (Msg.key request) (Msg.value request) (q2, n1))
    as [[[|] q3] n3] eqn:Epoll.
  - intros _.
    destruct (write_poll_senders (rounds sch) pn (Msg.key request) (Msg.value request)
                q2 n1
                (mkQuorumState pn PREPARE (Msg.key request) (Msg.value request) ∅ ∅ now)
                q3 n3)
      as [i [q_i [n_i [Hi [Hr [Hmaj [Hn Hq]]]]]]];
      [apply lookup_insert_eq | reflexivity | exact Epoll |].
    exists i, q_i, n_i. repeat split; try assumption.
    + subst n3. reflexivity.
    + subst q3. cbn. apply lookup_delete_eq.
  - destruct (run (late sch) (q3, n3)) as [q4 n4]. intros H. discriminate H.
Qed.

Lemma write_success_needs_accepted_majority_witness :
  let '(ok, r, q', n') :=
    process_write 0 answered (write_request "t" "x") Msg.new_message
      three_member_quorum (NodeM.new_node 1) in
  ok = true ->
  exists i q_i n_i,
    (i < length (rounds answered))%nat /\
    run (concat (firstn (S i) (rounds answered)))
        (snd (write_proposal_stored 0 (Msg.key (write_request "t" "x"))
                (Msg.value (write_request "t" "x")) three_member_quorum
                (NodeM.new_node 1)))
    = (q_i, n_i) /\
    vsize (quorum_nodes_ q_i) / 2 + 1
    <= Z.of_nat (size (accepted_senders (next_proposal_number_ three_member_quorum)
                         (concat (firstn (S i) (rounds answered))))) /\
    NodeM.data_store_ n'
    = <[Msg.key (write_request "t" "x") := Msg.value (write_request "t" "x")]>
        (NodeM.data_store_ n_i) /\
    active_proposals_ q' !! next_proposal_number_ three_member_quorum = None.
Proof.
  apply (write_success_needs_accepted_majority 0 answered (write_request "t" "x")
           Msg.new_message three_member_quorum (NodeM.new_node 1)).
  vm_compute. intros H. discriminate H.
Defined.

(** X2: on a quorum of more than one member (or none), answers that all
    carry sequence numbers other than the proposal's never commit the
    write: process_write returns false with success = false, the proposal
    is erased, failed_consensus advances by one (in 64-bit arithmetic) and
    successful_consensus stays. *)
Theorem write_ignores_answers_to_other_proposals
    (now : Z) (sch : Schedule) (request response : Msg.Message)
    (q : QuorumReplication) (n : NodeM.Node) :
  vsize (quorum_nodes_ q) <> 1 ->
  Forall (Forall (fun e => response_number e <> Some (next_proposal_number_ q)))
         (rounds sch) ->
  let '(ok, r, q', n') := process_write now sch request response q n in
  ok = false /\ Msg.success r = false /\
  active_proposals_ q' !! next_proposal_number_ q = None /\
  failed_consensus_ q' = wrap64 (failed_consensus_ q + 1) /\
  successful_consensus_ q' = successful_consensus_ q.
Proof. exact (write_unanswered now sch request response q n). Qed.

Lemma write_ignores_answers_to_other_proposals_witness :
  let '(ok, r, q', n') :=
    process_write 0
      (mkSchedule [[EvPromise 1 (promise_from 2 7); EvPromise 2 (promise_from 3 7)];
                   [EvAccepted (accepted_from 2 7); EvAccepted (accepted_from 3 7)]]
                  [] 30)
      (write_request "t" "x") Msg.new_message three_member_quorum (NodeM.new_node 1) in
  ok = false /\ Msg.success r = false /\
  active_proposals_ q' !! next_proposal_number_ three_member_quorum = None /\
  failed_consensus_ q' = wrap64 (failed_consensus_ three_member_quorum + 1) /\
  successful_consensus_ q' = successful_consensus_ three_member_quorum.
Proof.
  apply (write_ignores_answers_to_other_proposals 0
           (mkSchedule [[EvPromise 1 (promise_from 2 7); EvPromise 2 (promise_from 3 7)];
                        [EvAccepted (accepted_from 2 7); EvAccepted (accepted_from 3 7)]]
                       [] 30)
           (write_request "t" "x") Msg.new_message three_member_quorum
           (NodeM.new_node 1)).
  - vm_compute. intros H. discriminate H.
  - repeat constructor; cbn; intros H; discriminate H.
Defined.

(** X3: once the proposal counter has reached 2^32, a write on a quorum
    of more than one member (or none) cannot succeed whatever answers
    arrive, as long as their sequence numbers fit the 32-bit field of the
    envelope: the 64-bit proposal number is the key of the proposal table
    while the handlers look up the 32-bit sequence number. *)
Theorem write_never_commits_beyond_32_bits
    (now : Z) (sch : Schedule) (request response : Msg.Message)
    (q : QuorumReplication) (n : NodeM.Node) :
  vsize (quorum_nodes_ q) <> 1 ->
  2 ^ 32 <= next_proposal_number_ q ->
  Forall (Forall (fun e => forall s, response_number e = Some s -> 0 <= s < 2 ^ 32))
         (rounds sch) ->
  let '(ok, r, q', n') := process_write now sch request response q n in
  ok = false /\ Msg.success r = false /\
  failed_consensus_ q' = wrap64 (failed_consensus_ q + 1).
Proof.
  intros HN Hbig Hrounds.
  pose proof (write_unanswered now sch request response q n HN) as H.
  destruct (process_write now sch request response q n) as [[[ok r] q'] n'].
  destruct H as [H1 [H2 [_ [H3 _]]]]; [|repeat split; assumption].
  eapply Forall_impl; [exact Hrounds|].
  intros evs Hevs. eapply Forall_impl; [exact Hevs|].
  intros e He Heq. specialize (He _ Heq). lia.
Qed.

Lemma write_never_commits_beyond_32_bits_witness :
  let '(ok, r, q', n') :=
    process_write 0
      (mkSchedule [[EvPromise 1 (promise_from 2 0); EvPromise 2 (promise_from 3 0)];
                   [EvAccepted (accepted_from 2 0); EvAccepted (accepted_from 3 0)]]
                  [] 30)
      (write_request "t" "x") Msg.new_message
      (set_next_proposal_number (2 ^ 32) three_member_quorum) (NodeM.new_node 1) in
  ok = false /\ Msg.success r = false /\
  failed_consensus_ q'
  = wrap64 (failed_consensus_ (set_next_proposal_number (2 ^ 32) three_member_quorum) + 1).
Proof.
  apply (write_never_commits_beyond_32_bits 0
           (mkSchedule [[EvPromise 1 (promise_from 2 0); EvPromise 2 (promise_from 3 0)];
                        [EvAccepted (accepted_from 2 0); EvAccepted (accepted_from 3 0)]]
                       [] 30)
           (write_request "t" "x") Msg.new_message
           (set_next_proposal_number (2 ^ 32) three_member_quorum) (NodeM.new_node 1)).
  - vm_compute. intros H. discriminate H.
  - vm_compute. intros H. discriminate H.
  - cbn [rounds].
    repeat match goal with
           | |- Forall _ _ => constructor
           end;
      intros s H; vm_compute in H; inversion H; lia.
Defined.

(** X4: every call of process_write is counted exactly once: the response
    carries the returned flag and the kind WRITE_RESPONSE;
    successful_consensus advances by one (in 64-bit arithmetic) exactly
    when the call returns true and failed_consensus exactly when it
    returns false; a proposal number is drawn unless the quorum has a
    single member. *)
Theorem process_write_counted_once
    (now : Z) (sch : Schedule) (request response : Msg.Message)
    (q : QuorumReplication) (n : NodeM.Node) :
  let '(ok, r, q', n') := process_write now sch request response q n in
  Msg.success r = ok /\ Msg.type r = Msg.WRITE_RESPONSE /\
  successful_consensus_ q'
  = (if ok then wrap64 (successful_consensus_ q + 1) else successful_consensus_ q) /\
  failed_consensus_ q'
  = (if ok then failed_consensus_ q else wrap64 (failed_consensus_ q + 1)) /\
  next_proposal_number_ q'
  = (if vsize (quorum_nodes_ q) =? 1 then next_proposal_number_ q
     else wrap64 (next_proposal_number_ q + 1)).
Proof.
  unfold process_write.
  destruct (vsize (quorum_nodes_ q) =? 1); [cbn; repeat split|].
  unfold initiate_consensus, generate_proposal_number, send_prepare_messages.
  cbn [negb].
  set (pn := next_proposal_number_ q).
  set (q2 := set_active_proposals _ _).
  set (n1 := send_to_others _ _ _).
  pose proof (write_poll_counters (rounds sch) pn (Msg.key request)
                (Msg.value request) q2 n1) as Hc.
  destruct (write_poll (rounds sch) pn (Msg.key request) (Msg.value request) (q2, n1))
    as [[[|] q3] n3]; cbn [fst snd] in Hc.
  - unfold consensus_counters in Hc. injection Hc as Hnext Hok Hfail.
    cbn. rewrite Hnext, Hok, Hfail. repeat split.
  - pose proof (run_counters (late sch) q3 n3) as Hl.
    destruct (run (late sch) (q3, n3)) as [q4 n4]. cbn [fst] in Hl.
    rewrite Hc in Hl. unfold consensus_counters in Hl.
    injection Hl as Hnext Hok Hfail.
    cbn. rewrite Hnext, Hok, Hfail. repeat split.
Qed.

(** The slow path of process_read, from the drawing of the proposal
    number on: every outcome is counted once. *)
Lemma read_slow_path_counted (now : Z) (sch : Schedule) (request r0 : Msg.Message)
    (q : QuorumReplication) (n1 : NodeM.Node) :
  Msg.type r0 = Msg.READ_RESPONSE ->
  let '(ok, r, q', n') :=
    (let '(proposal_num, q1) := generate_proposal_number q in
     let read_state :=
       mkQuorumState proposal_num PREPARE (Msg.key request) "" ∅ ∅ now in
     let q2 := set_active_proposals
                 (<[proposal_num := read_state]> (active_proposals_ q1)) q1 in
     let '(sent, n2) := send_prepare_messages now proposal_num (Msg.key request) q2 n1 in
     if sent then
       match read_poll (rounds sch) sch now proposal_num request r0 (q2, n2) with
       | inl res => res
       | inr (r, q3, n3) =>
           let '(q4, n4) := run (late sch) (q3, n3) in
           let q5 := set_active_proposals
                       (delete proposal_num (active_proposals_ q4)) q4 in
           (false, Msg.set_success false r, failed q5, n4)
       end
     else (false, Msg.set_success false r0, failed q2, n2)) in
  Msg.success r = ok /\ Msg.type r = Msg.READ_RESPONSE /\
  successful_consensus_ q'
  = (if ok then wrap64 (successful_consensus_ q + 1) else successful_consensus_ q) /\
  failed_consensus_ q'
  = (if ok then failed_consensus_ q else wrap64 (failed_consensus_ q + 1)).
Proof.
  intros Hty.
  unfold generate_proposal_number, send_prepare_messages.
  set (pn := next_proposal_number_ q).
  set (q2 := set_active_proposals _ _).
  set (n2 := send_to_others _ _ _).
  pose proof (read_poll_counters (rounds sch) sch now pn request r0 q2 n2) as Hc.
  unfold read_poll_outcome in Hc.
  destruct (read_poll (rounds sch) sch now pn request r0 (q2, n2))
    as [[[[ok r] q'] n']|[[r q3] n3]].
  - destruct Hc as [Hok [Hs [Ht [_ [Hs1 Hf1]]]]]. subst ok.
    rewrite Hs, Ht, Hs1, Hf1. repeat split. exact Hty.
  - destruct Hc as [Hr Hc]. subst r.
    pose proof (run_counters (late sch) q3 n3) as Hl.
    destruct (run (late sch) (q3, n3)) as [q4 n4]. cbn [fst] in Hl.
    rewrite Hc in Hl. unfold consensus_counters in Hl.
    injection Hl as Hnext Hok Hfail.
    cbn. rewrite Hok, Hfail. repeat split. exact Hty.
Qed.

(** X5: process_read counts a failure for every call that returns false
    and a success for every call that returns true, except that a read
    answered by the fast path of a quorum with more than one member (or
    none) leaves the coordinator as it was: it is not counted at all. *)
Theorem process_read_counted_unless_fast
    (now : Z) (sch : Schedule) (request response : Msg.Message)
    (q : QuorumReplication) (n : NodeM.Node) :
  let fast :=
    negb (vsize (quorum_nodes_ q) =? 1)
    && (read_optimization_enabled_ q && can_use_fast_path request q)
    && bool_decide (is_Some (NodeM.data_store_ n !! Msg.key request)) in
  let '(ok, r, q', n') := process_read now sch request response q n in
  Msg.success r = ok /\ Msg.type r = Msg.READ_RESPONSE /\
  (fast = true -> ok = true /\ q' = q) /\
  (fast = false ->
   successful_consensus_ q'
   = (if ok then wrap64 (successful_consensus_ q + 1) else successful_consensus_ q) /\
   failed_consensus_ q'
   = (if ok then failed_consensus_ q else wrap64 (failed_consensus_ q + 1))).
Proof.
  unfold process_read.
  destruct (vsize (quorum_nodes_ q) =? 1); cbn [negb andb].
  - unfold NodeM.read.
    destruct (NodeM.data_store_ n !! Msg.key request); cbn;
      repeat split; first [reflexivity | congruence].
  - set (r0 := response_header Msg.READ_RESPONSE now request response n).
    assert (Hty : Msg.type r0 = Msg.READ_RESPONSE) by reflexivity.
    destruct (read_optimization_enabled_ q && can_use_fast_path request q) eqn:Hfast;
      cbn [andb].
    + unfold NodeM.read at 1.
      destruct (NodeM.data_store_ n !! Msg.key request) as [v|] eqn:Hs.
      * cbn. repeat split; first [reflexivity | congruence].
      * rewrite bool_decide_eq_false_2 by (intros [x Hx]; discriminate Hx).
        pose proof (read_slow_path_counted now sch request r0 q
                      (NodeM.mkNode (NodeM.node_id_ n) (NodeM.data_store_ n)
                         (wrap64 (NodeM.operation_count_ n + 1))
                         (NodeM.success_count_ n) (NodeM.outbox n)) Hty) as H.
        lazymatch type of H with
        | match ?a with _ => _ end =>
            lazymatch goal with
            | |- match ?b with _ => _ end =>
                change b with a; destruct a as [[[ok r] q'] n']
            end
        end.
        destruct H as [H1 [H2 [H3 H4]]].
        repeat split; first [assumption | congruence].
    + pose proof (read_slow_path_counted now sch request r0 q n Hty) as H.
      lazymatch type of H with
      | match ?a with _ => _ end =>
          lazymatch goal with
          | |- match ?b with _ => _ end =>
              change b with a; destruct a as [[[ok r] q'] n']
          end
      end.
      destruct H as [H1 [H2 [H3 H4]]].
      repeat split; first [assumption | congruence].
Qed.

End ProposerSafety.

(** * The quorum coordinator: fan-out, single member, membership *)

Section QuorumFanOut.

Import Quorum.

(** The sending loop queues one copy for every listed node but the sender,
    in list order, and touches nothing else of the node. *)
Lemma send_to_others_spec (targets : list Z) (m : Msg.Message) :
  forall n,
    send_to_others targets m n
    = NodeM.mkNode (NodeM.node_id_ n) (NodeM.data_store_ n)
        (NodeM.operation_count_ n) (NodeM.success_count_ n)
        (NodeM.outbox n
         ++ map (fun t => (t, m))
              (List.filter (fun t => negb (t =? NodeM.node_id_ n)) targets)).
Proof.
  induction targets as [|t ts IH]; intros n.
  - destruct n. cbn. rewrite app_nil_r. reflexivity.
  - unfold send_to_others. cbn [fold_left List.filter].
    fold (send_to_others ts m
            (if negb (t =? NodeM.get_node_id n) then NodeM.send_message t m n else n)).
    rewrite IH. unfold NodeM.get_node_id.
    destruct (negb (t =? NodeM.node_id_ n)); cbn; [|reflexivity].
    rewrite <- app_assoc. reflexivity.
Qed.

(** With a quorum size that is not negative the selected subset is the
    prefix of that length. *)
Lemma select_optimal_quorum_subset_prefix (q : QuorumReplication) :
  0 <= quorum_size_ q ->
  select_optimal_quorum_subset q
  = firstn (Z.to_nat (quorum_size_ q)) (quorum_nodes_ q).
Proof.
  intros H. unfold select_optimal_quorum_subset.
  destruct (vsize (quorum_nodes_ q) <=? quorum_size_ q) eqn:E; [|reflexivity].
  apply Z.leb_le in E. unfold vsize in E.
  rewrite firstn_all2; [reflexivity | lia].
Qed.

Lemma filter_out_absent (x : Z) (l : list Z) :
  ~ In x l -> List.filter (fun t => negb (t =? x)) l = l.
Proof.
  induction l as [|y l IH]; intros H; [reflexivity|].
  cbn. destruct (y =? x) eqn:E.
  - apply Z.eqb_eq in E. subst y. exfalso. apply H. left. reflexivity.
  - cbn. rewrite IH; [reflexivity|]. intros Hin. apply H. right. exact Hin.
Qed.

Lemma filter_out_one (x : Z) (l : list Z) :
  List.NoDup l -> In x l ->
  S (length (List.filter (fun t => negb (t =? x)) l)) = length l.
Proof.
  induction 1 as [|y l Hy Hl IH]; intros Hin; [destruct Hin|].
  cbn. destruct (y =? x) eqn:E.
  - apply Z.eqb_eq in E. subst y. cbn.
    rewrite filter_out_absent by exact Hy. reflexivity.
  - cbn. destruct Hin as [Hin|Hin]; [apply Z.eqb_neq in E; congruence|].
    rewrite IH by exact Hin. reflexivity.
Qed.

(** X6: with adaptive quorum on and the quorum size at the natural
    majority floor(N/2)+1 of a duplicate-free member list, a proposer that
    is among the first quorum_size members queues its prepare message for
    the other members of that prefix only, one copy each in list order and
    none for itself: floor(N/2) messages, one fewer than the floor(N/2)+1
    promises that has_majority asks for.  Each copy is a QUORUM_PREPARE
    from the node with the proposal number cut to 32 bits. *)
Theorem prepare_sent_to_prefix_without_self
    (now pn : Z) (k : string) (q : QuorumReplication) (n : NodeM.Node) :
  adaptive_quorum_enabled_ q = true ->
  List.NoDup (quorum_nodes_ q) ->
  quorum_size_ q = vsize (quorum_nodes_ q) / 2 + 1 ->
  In (NodeM.node_id_ n) (firstn (Z.to_nat (quorum_size_ q)) (quorum_nodes_ q)) ->
  exists sent,
    NodeM.outbox (snd (send_prepare_messages now pn k q n)) = NodeM.outbox n ++ sent /\
    NodeM.data_store_ (snd (send_prepare_messages now pn k q n)) = NodeM.data_store_ n /\
    map fst sent
    = List.filter (fun t => negb (t =? NodeM.node_id_ n))
        (firstn (Z.to_nat (quorum_size_ q)) (quorum_nodes_ q)) /\
    Forall (fun tm => fst tm <> NodeM.node_id_ n /\
                      Msg.type (snd tm) = Msg.QUORUM_PREPARE /\
                      Msg.sender_id (snd tm) = NodeM.node_id_ n /\
                      Msg.sequence_number (snd tm) = wrap32 pn /\
                      Msg.key (snd tm) = k) sent /\
    vsize sent = vsize (quorum_nodes_ q) / 2 /\
    vsize sent < vsize (quorum_nodes_ q) / 2 + 1.
Proof.
  intros Had Hnd Hsize Hin.
  assert (Hnn : 0 <= vsize (quorum_nodes_ q) / 2).
  { apply Z.div_pos; [apply vsize_nonneg | lia]. }
  unfold send_prepare_messages. cbn [snd]. rewrite Had.
  rewrite select_optimal_quorum_subset_prefix by lia.
  rewrite send_to_others_spec. cbn [NodeM.outbox NodeM.data_store_].
  set (pre := firstn (Z.to_nat (quorum_size_ q)) (quorum_nodes_ q)) in *.
  set (m := Msg.set_key k _).
  exists (map (fun t => (t, m))
            (List.filter (fun t => negb (t =? NodeM.node_id_ n)) pre)).
  split; [reflexivity|]. split; [reflexivity|].
  split.
  { rewrite map_map. cbn [fst]. apply map_id. }
  split.
  { apply List.Forall_forall. intros [t m'] Ht.
    apply in_map_iff in Ht as [t' [Et Ht']].
    inversion Et; subst t' m'.
    apply filter_In in Ht' as [_ Hne].
    apply negb_true_iff, Z.eqb_neq in Hne.
    cbn [fst snd]. repeat split. exact Hne. }
  assert (Hlen : vsize (map (fun t => (t, m))
                          (List.filter (fun t => negb (t =? NodeM.node_id_ n)) pre))
                 = vsize (quorum_nodes_ q) / 2).
  { unfold vsize. rewrite length_map.
    assert (Hpre : List.NoDup pre).
    { subst pre. rewrite <- (firstn_skipn (Z.to_nat (quorum_size_ q)) (quorum_nodes_ q)) in Hnd.
      apply NoDup_app_remove_r in Hnd. exact Hnd. }
    pose proof (filter_out_one _ _ Hpre Hin) as Hone.
    assert (Hplen : length pre = Z.to_nat (quorum_size_ q)).
    { subst pre. apply firstn_length_le.
      assert (Hpos : (0 < length (quorum_nodes_ q))%nat).
      { destruct (quorum_nodes_ q); [|cbn; lia].
        rewrite firstn_nil in Hin. destruct Hin. }
      unfold vsize in *. rewrite Hsize.
      assert (Z.of_nat (length (quorum_nodes_ q)) / 2 + 1
              <= Z.of_nat (length (quorum_nodes_ q))).
      { pose proof (Z.div_mod (Z.of_nat (length (quorum_nodes_ q))) 2 ltac:(lia)).
        pose proof (Z.mod_pos_bound (Z.of_nat (length (quorum_nodes_ q))) 2 ltac:(lia)).
        lia. }
      lia. }
    unfold vsize in Hsize, Hnn. lia. }
  split; [exact Hlen | lia].
Qed.

Lemma prepare_sent_to_prefix_without_self_witness :
  exists sent,
    NodeM.outbox (snd (send_prepare_messages 0 1 "k" (new_quorum [1; 2; 3; 4; 5])
                         (NodeM.new_node 1)))
    = NodeM.outbox (NodeM.new_node 1) ++ sent /\
    NodeM.data_store_ (snd (send_prepare_messages 0 1 "k" (new_quorum [1; 2; 3; 4; 5])
                              (NodeM.new_node 1)))
    = NodeM.data_store_ (NodeM.new_node 1) /\
    map fst sent
    = List.filter (fun t => negb (t =? NodeM.node_id_ (NodeM.new_node 1)))
        (firstn (Z.to_nat (quorum_size_ (new_quorum [1; 2; 3; 4; 5])))
           (quorum_nodes_ (new_quorum [1; 2; 3; 4; 5]))) /\
    Forall (fun tm => fst tm <> NodeM.node_id_ (NodeM.new_node 1) /\
                      Msg.type (snd tm) = Msg.QUORUM_PREPARE /\
                      Msg.sender_id (snd tm) = NodeM.node_id_ (NodeM.new_node 1) /\
                      Msg.sequence_number (snd tm) = wrap32 1 /\
                      Msg.key (snd tm) = "k") sent /\
    vsize sent = vsize (quorum_nodes_ (new_quorum [1; 2; 3; 4; 5])) / 2 /\
    vsize sent < vsize (quorum_nodes_ (new_quorum [1; 2; 3; 4; 5])) / 2 + 1.
Proof.
  apply (prepare_sent_to_prefix_without_self 0 1 "k" (new_quorum [1; 2; 3; 4; 5])
           (NodeM.new_node 1)).
  - reflexivity.
  - cbn. repeat constructor; cbn; lia.
  - reflexivity.
  - cbn. left. reflexivity.
Defined.

(** X7: a quorum with a single member never proposes: process_write
    stores the value locally and a following process_read of the same key
    returns it; both return true, no message is queued, no proposal number
    is drawn, the proposal table is untouched, and each call counts one
    success. *)
Theorem single_member_write_then_read
    (now1 now2 : Z) (sch1 sch2 : Schedule)
    (wreq wresp rreq rresp : Msg.Message)
    (q : QuorumReplication) (n : NodeM.Node) :
  vsize (quorum_nodes_ q) = 1 ->
  Msg.key rreq = Msg.key wreq ->
  let '(ok1, r1, q1, n1) := process_write now1 sch1 wreq wresp q n in
  let '(ok2, r2, q2, n2) := process_read now2 sch2 rreq rresp q1 n1 in
  ok1 = true /\ Msg.success r1 = true /\
  ok2 = true /\ Msg.success r2 = true /\ Msg.value r2 = Msg.value wreq /\
  NodeM.data_store_ n2 = <[Msg.key wreq := Msg.value wreq]> (NodeM.data_store_ n) /\
  NodeM.outbox n2 = NodeM.outbox n /\
  active_proposals_ q2 = active_proposals_ q /\
  next_proposal_number_ q2 = next_proposal_number_ q /\
  successful_consensus_ q2 = wrap64 (wrap64 (successful_consensus_ q + 1) + 1) /\
  failed_consensus_ q2 = failed_consensus_ q.
Proof.
  intros HN Hk. apply Z.eqb_eq in HN.
  unfold process_write. rewrite HN. cbn [NodeM.write].
  unfold process_read. cbn [quorum_nodes_ successful set_counters]. rewrite HN.
  unfold NodeM.read. cbn [NodeM.data_store_]. rewrite Hk, lookup_insert_eq.
  cbn. repeat split.
Qed.

Lemma single_member_write_then_read_witness :
  let '(ok1, r1, q1, n1) :=
    process_write 0 (idle 0 1) (write_request "k" "v") Msg.new_message
      (new_quorum [1]) (NodeM.new_node 1) in
  let '(ok2, r2, q2, n2) :=
    process_read 2 (idle 0 3) (read_request "k") Msg.new_message q1 n1 in
  ok1 = true /\ Msg.success r1 = true /\
  ok2 = true /\ Msg.success r2 = true /\
  Msg.value r2 = Msg.value (write_request "k" "v") /\
  NodeM.data_store_ n2
  = <[Msg.key (write_request "k" "v") := Msg.value (write_request "k" "v")]>
      (NodeM.data_store_ (NodeM.new_node 1)) /\
  NodeM.outbox n2 = NodeM.outbox (NodeM.new_node 1) /\
  active_proposals_ q2 = active_proposals_ (new_quorum [1]) /\
  next_proposal_number_ q2 = next_proposal_number_ (new_quorum [1]) /\
  successful_consensus_ q2
  = wrap64 (wrap64 (successful_consensus_ (new_quorum [1]) + 1) + 1) /\
  failed_consensus_ q2 = failed_consensus_ (new_quorum [1]).
Proof.
  apply (single_member_write_then_read 0 2 (idle 0 1) (idle 0 3)
           (write_request "k" "v") Msg.new_message (read_request "k") Msg.new_message
           (new_quorum [1]) (NodeM.new_node 1)).
  - reflexivity.
  - reflexivity.
Defined.

Lemma erase_first_absent (x : Z) (l : list Z) :
  List.NoDup l -> ~ In x (Chain.erase_first x l).
Proof.
  induction 1 as [|y l Hy Hl IH]; cbn; [tauto|].
  destruct (y =? x) eqn:E.
  - apply Z.eqb_eq in E. subst y. exact Hy.
  - cbn. apply Z.eqb_neq in E. tauto.
Qed.

Lemma erase_first_Permutation (x : Z) (l : list Z) :
  In x l -> Permutation (x :: Chain.erase_first x l) l.
Proof.
  induction l as [|y l IH]; intros Hin; [destruct Hin|].
  cbn. destruct (y =? x) eqn:E.
  - apply Z.eqb_eq in E. subst y. reflexivity.
  - destruct Hin as [Hin|Hin]; [apply Z.eqb_neq in E; congruence|].
    rewrite perm_swap. constructor. apply IH, Hin.
Qed.

Lemma erase_first_length (x : Z) (l : list Z) :
  In x l -> S (length (Chain.erase_first x l)) = length l.
Proof.
  intros H. apply erase_first_Permutation, Permutation_length in H. exact H.
Qed.

(** X8: when a member of a duplicate-free quorum fails and then recovers,
    the member list is the old one with that member moved to the end, the
    member count is restored and the quorum size is the natural majority
    of it, whether adaptive quorum is on or off. *)
Theorem failure_then_recovery_restores_quorum (id : Z) (q : QuorumReplication) :
  List.NoDup (quorum_nodes_ q) ->
  In id (quorum_nodes_ q) ->
  let q' := handle_node_recovery id (handle_node_failure id q) in
  quorum_nodes_ q' = Chain.erase_first id (quorum_nodes_ q) ++ [id] /\
  Permutation (quorum_nodes_ q') (quorum_nodes_ q) /\
  vsize (quorum_nodes_ q') = vsize (quorum_nodes_ q) /\
  quorum_size_ q' = vsize (quorum_nodes_ q) / 2 + 1 /\
  is_in_quorum id q' = true.
Proof.
  intros Hnd Hin. cbn zeta.
  pose proof (failure_members id q) as Hf.
  rewrite (proj2 (contains_In id (quorum_nodes_ q)) Hin) in Hf.
  assert (Habs : is_in_quorum id (handle_node_failure id q) = false).
  { unfold is_in_quorum. rewrite Hf.
    destruct (Chain.contains id (Chain.erase_first id (quorum_nodes_ q))) eqn:E;
      [|reflexivity].
    apply contains_In in E. exfalso. exact (erase_first_absent id _ Hnd E). }
  unfold handle_node_recovery. rewrite Habs. cbn [negb].
  cbn [quorum_nodes_ quorum_size_ set_members]. rewrite Hf.
  assert (Hperm : Permutation (Chain.erase_first id (quorum_nodes_ q) ++ [id])
                              (quorum_nodes_ q)).
  { rewrite <- Permutation_cons_append. apply erase_first_Permutation, Hin. }
  assert (Hlen : vsize (Chain.erase_first id (quorum_nodes_ q) ++ [id])
                 = vsize (quorum_nodes_ q)).
  { unfold vsize. rewrite (Permutation_length Hperm). reflexivity. }
  split; [reflexivity|]. split; [exact Hperm|]. split; [exact Hlen|].
  split; [rewrite Hlen; reflexivity|].
  unfold is_in_quorum. cbn [quorum_nodes_ set_members].
  apply contains_In, in_app_iff. right. left. reflexivity.
Qed.

Lemma failure_then_recovery_restores_quorum_witness :
  let q' := handle_node_recovery 2 (handle_node_failure 2 (new_quorum [1; 2; 3; 4; 5])) in
  quorum_nodes_ q'
  = Chain.erase_first 2 (quorum_nodes_ (new_quorum [1; 2; 3; 4; 5])) ++ [2] /\
  Permutation (quorum_nodes_ q') (quorum_nodes_ (new_quorum [1; 2; 3; 4; 5])) /\
  vsize (quorum_nodes_ q') = vsize (quorum_nodes_ (new_quorum [1; 2; 3; 4; 5])) /\
  quorum_size_ q' = vsize (quorum_nodes_ (new_quorum [1; 2; 3; 4; 5])) / 2 + 1 /\
  is_in_quorum 2 q' = true.
Proof.
  apply (failure_then_recovery_restores_quorum 2 (new_quorum [1; 2; 3; 4; 5])).
  - cbn. repeat constructor; cbn; lia.
  - cbn. right. left. reflexivity.
Defined.

End QuorumFanOut.

(** * Further properties of the chain coordinator *)

Section ChainRoles.

Import Chain.

Lemma index_from_Some (x : Z) (l : list Z) :
  forall i j,
    index_from i x l = Some j ->
    exists k : nat,
      j = i + Z.of_nat k /\ (k < length l)%nat /\
      nth k l 0 = x /\ ~ In x (firstn k l).
Proof.
  induction l as [|y l IH]; intros i j H; [discriminate H|].
  cbn [index_from] in H. destruct (y =? x) eqn:E.
  - inversion H; subst j. apply Z.eqb_eq in E. subst y.
    exists 0%nat. cbn. repeat split; [lia | lia | tauto].
  - destruct (IH _ _ H) as [k [Hj [Hk [Hn Hf]]]].
    exists (S k). cbn [nth firstn length]. repeat split; [lia | lia | exact Hn |].
    intros [Hy|Hin]; [apply Z.eqb_neq in E; congruence | exact (Hf Hin)].
Qed.

Lemma index_from_None (x : Z) (l : list Z) :
  forall i, index_from i x l = None -> ~ In x l.
Proof.
  induction l as [|y l IH]; intros i H; [intros []|].
  cbn [index_from] in H. destruct (y =? x) eqn:E; [discriminate H|].
  intros [Hy|Hin]; [apply Z.eqb_neq in E; congruence | exact (IH _ H Hin)].
Qed.

Lemma find_my_position_chain (n : NodeM.Node) (c : ChainReplication) :
  chain_order_ (find_my_position n c) = chain_order_ c.
Proof. unfold find_my_position. destruct (index_from _ _ _); reflexivity. Qed.

(** The search leaves the first index of the node, or the chain length. *)
Lemma find_my_position_positioned (n : NodeM.Node) (c : ChainReplication) :
  vsize (chain_order_ c) < 2 ^ 32 ->
  positioned (NodeM.node_id_ n) (find_my_position n c).
Proof.
  intros Hshort. unfold find_my_position, NodeM.get_node_id, vsize in *.
  destruct (index_from 0 (NodeM.node_id_ n) (chain_order_ c)) as [j|] eqn:E.
  - apply index_from_Some in E as [k [Hj [Hk [Hn Hf]]]].
    assert (Hw : wrap32 j = Z.of_nat k) by (rewrite wrap32_small; lia).
    split; cbn [chain_order_ my_position_ set_chain]; unfold vsize; rewrite ?Hw.
    + lia.
    + exact Hshort.
    + intros _. rewrite Nat2Z.id. split; assumption.
    + lia.
  - apply index_from_None in E.
    assert (Hw : wrap32 (Z.of_nat (length (chain_order_ c)))
                 = Z.of_nat (length (chain_order_ c))) by (apply wrap32_small; lia).
    split; cbn [chain_order_ my_position_ set_chain]; unfold vsize; rewrite ?Hw.
    + lia.
    + exact Hshort.
    + lia.
    + intros _. exact E.
Qed.

(** X9: the position of a chain coordinator follows its chain through
    every change: after update_chain_order, handle_node_failure or
    handle_node_recovery on a coordinator whose position is the first
    index of its node in the chain (or the chain length when the node is
    not in it), and with a resulting chain shorter than 2^32, the position
    is again the first index of the node in the new chain, or its
    length. *)
Theorem chain_position_invariant
    (n : NodeM.Node) (c : ChainReplication) (call : ChainCall) :
  positioned (NodeM.node_id_ n) c ->
  vsize (chain_order_ (apply_chain_call n c call)) < 2 ^ 32 ->
  positioned (NodeM.node_id_ n) (apply_chain_call n c call).
Proof.
  intros Hpos Hshort. destruct call as [l|id|id]; cbn [apply_chain_call] in *.
  - unfold update_chain_order in *. rewrite find_my_position_chain in Hshort.
    apply find_my_position_positioned. exact Hshort.
  - unfold handle_node_failure in *.
    destruct (contains id (chain_order_ c)); [|exact Hpos].
    rewrite find_my_position_chain in Hshort.
    apply find_my_position_positioned. exact Hshort.
  - unfold handle_node_recovery in *. rewrite find_my_position_chain in Hshort.
    apply find_my_position_positioned. exact Hshort.
Qed.

Lemma chain_position_invariant_witness :
  positioned (NodeM.node_id_ (NodeM.new_node 2))
    (apply_chain_call (NodeM.new_node 2)
       (new_chain (NodeM.new_node 2) [1; 2; 3]) (ChainFailure 1)).
Proof.
  apply (chain_position_invariant (NodeM.new_node 2)
           (new_chain (NodeM.new_node 2) [1; 2; 3]) (ChainFailure 1)).
  - apply find_my_position_positioned. vm_compute. reflexivity.
  - vm_compute. reflexivity.
Defined.

Lemma split_at_last (l : list Z) :
  forall k, S k = length l -> l = firstn k l ++ [nth k l 0].
Proof.
  induction l as [|a l IH]; intros k H; [discriminate H|].
  destruct k as [|k].
  - destruct l; [reflexivity | discriminate H].
  - cbn [firstn nth app]. f_equal. apply IH. cbn in H. lia.
Qed.

Lemma positioned_head (id : Z) (c : ChainReplication) :
  positioned id c ->
  (is_head c = true <-> exists rest, chain_order_ c = id :: rest).
Proof.
  intros [Hr Hs Hf Ha]. unfold is_head, vsize in *. split.
  - intros H. apply andb_true_iff in H as [H0 Hne].
    apply Z.eqb_eq in H0. apply negb_true_iff, Z.eqb_neq in Hne.
    destruct (chain_order_ c) as [|x rest]; [cbn in Hne; lia|].
    rewrite H0 in Hf. destruct Hf as [Hn _]; [cbn; lia|].
    rewrite Z2Nat.inj_0 in Hn. cbn in Hn. subst x. exists rest. reflexivity.
  - intros [rest E]. rewrite E in *. cbn [length] in *.
    apply andb_true_iff. split; [|apply negb_true_iff, Z.eqb_neq; lia].
    apply Z.eqb_eq.
    destruct (Z.eq_dec (my_position_ c) (Z.of_nat (S (length rest)))) as [Hl|Hl].
    + exfalso. apply (Ha Hl). left. reflexivity.
    + destruct Hf as [_ Hnot]; [lia|].
      destruct (Z.to_nat (my_position_ c)) as [|k] eqn:Ek; [lia|].
      exfalso. apply Hnot. cbn. left. reflexivity.
Qed.

Lemma positioned_tail (id : Z) (c : ChainReplication) :
  positioned id c ->
  (is_tail c = true
   <-> exists front, chain_order_ c = front ++ [id] /\ ~ In id front).
Proof.
  intros [Hr Hs Hf Ha]. unfold is_tail, vsize in *. split.
  - intros H. apply andb_true_iff in H as [H0 Hne].
    apply Z.eqb_eq in H0. apply negb_true_iff, Z.eqb_neq in Hne.
    rewrite wrap64_small in H0 by lia.
    destruct Hf as [Hn Hnot]; [lia|].
    exists (firstn (Z.to_nat (my_position_ c)) (chain_order_ c)).
    split; [|exact Hnot].
    rewrite <- Hn. apply split_at_last. lia.
  - intros [front [E Hnot]]. rewrite E in *.
    rewrite length_app in *. cbn [length] in *.
    apply andb_true_iff. split; [|apply negb_true_iff, Z.eqb_neq; lia].
    apply Z.eqb_eq. rewrite wrap64_small by lia.
    destruct (Z.eq_dec (my_position_ c) (Z.of_nat (length front + 1))) as [Hl|Hl].
    + exfalso. apply (Ha Hl). apply in_app_iff. right. left. reflexivity.
    + destruct Hf as [Hn _]; [lia|].
      destruct (Nat.lt_ge_cases (Z.to_nat (my_position_ c)) (length front)) as [Hlt|Hge];
        [|lia].
      exfalso. apply Hnot. rewrite <- Hn.
      rewrite app_nth1 by exact Hlt. apply nth_In. exact Hlt.
Qed.

(** X10: for a coordinator whose position is the first index of its node
    in the chain (as every chain change leaves it), is_head holds exactly
    when the chain starts with the node, and is_tail exactly when the
    chain ends with the node and the node occurs nowhere before: a node
    listed twice is never the tail. *)
Theorem chain_roles_follow_the_chain (id : Z) (c : ChainReplication) :
  positioned id c ->
  (is_head c = true <-> exists rest, chain_order_ c = id :: rest) /\
  (is_tail c = true
   <-> exists front, chain_order_ c = front ++ [id] /\ ~ In id front).
Proof.
  intros H. split; [apply positioned_head | apply positioned_tail]; exact H.
Qed.

Lemma chain_roles_follow_the_chain_witness :
  (is_head (new_chain (NodeM.new_node 1) [1; 2; 1]) = true
   <-> exists rest, chain_order_ (new_chain (NodeM.new_node 1) [1; 2; 1]) = 1 :: rest) /\
  (is_tail (new_chain (NodeM.new_node 1) [1; 2; 1]) = true
   <-> exists front,
        chain_order_ (new_chain (NodeM.new_node 1) [1; 2; 1]) = front ++ [1]
        /\ ~ In 1 front).
Proof.
  apply (chain_roles_follow_the_chain 1 (new_chain (NodeM.new_node 1) [1; 2; 1])).
  apply (find_my_position_positioned (NodeM.new_node 1)).
  vm_compute. reflexivity.
Defined.

(** X11: the chain coordinator answers a read from the local store only
    as the tail: process_read returns true only if the chain ends with the
    node (which occurs nowhere before) and the store holds the key, and
    the response then carries the stored value; in every case the store
    and the coordinator are unchanged; a node that is not the tail returns
    false, leaves the response and its counters alone and queues the
    request for the last member of a non-empty chain. *)
Theorem chain_read_served_by_tail_only
    (now : Z) (request response : Msg.Message) (c : ChainReplication) (n : NodeM.Node) :
  positioned (NodeM.node_id_ n) c ->
  let '(ok, r, c', n') := process_read now request response c n in
  c' = c /\ NodeM.data_store_ n' = NodeM.data_store_ n /\
  (ok = true ->
   (exists front, chain_order_ c = front ++ [NodeM.node_id_ n]
                  /\ ~ In (NodeM.node_id_ n) front) /\
   NodeM.data_store_ n !! Msg.key request = Some (Msg.value r) /\
   Msg.success r = true /\ NodeM.outbox n' = NodeM.outbox n) /\
  (is_tail c = false ->
   ok = false /\ r = response /\
   NodeM.operation_count_ n' = NodeM.operation_count_ n /\
   NodeM.outbox n'
   = NodeM.outbox n
     ++ (if vsize (chain_order_ c) >? 0
         then [(List.last (chain_order_ c) 0, request)] else [])).
Proof.
  intros Hpos. unfold process_read.
  destruct (is_tail c) eqn:Ht; cbn [negb].
  - apply (positioned_tail _ _ Hpos) in Ht.
    unfold NodeM.read.
    destruct (NodeM.data_store_ n !! Msg.key request) as [v|] eqn:Hs; cbn.
    + repeat split; first [assumption | congruence].
    + repeat split; first [assumption | congruence].
  - split; [reflexivity|].
    destruct (vsize (chain_order_ c) >? 0); cbn.
    + repeat split; first [reflexivity | congruence].
    + rewrite app_nil_r. repeat split; first [reflexivity | congruence].
Qed.

Lemma chain_read_served_by_tail_only_witness :
  let '(ok, r, c', n') :=
    process_read 0 (read_request "k") Msg.new_message
      (new_chain node_with_k [2; 1]) node_with_k in
  c' = new_chain node_with_k [2; 1] /\
  NodeM.data_store_ n' = NodeM.data_store_ node_with_k /\
  (ok = true ->
   (exists front, chain_order_ (new_chain node_with_k [2; 1])
                  = front ++ [NodeM.node_id_ node_with_k]
                  /\ ~ In (NodeM.node_id_ node_with_k) front) /\
   NodeM.data_store_ node_with_k !! Msg.key (read_request "k") = Some (Msg.value r) /\
   Msg.success r = true /\ NodeM.outbox n' = NodeM.outbox node_with_k) /\
  (is_tail (new_chain node_with_k [2; 1]) = false ->
   ok = false /\ r = Msg.new_message /\
   NodeM.operation_count_ n' = NodeM.operation_count_ node_with_k /\
   NodeM.outbox n'
   = NodeM.outbox node_with_k
     ++ (if vsize (chain_order_ (new_chain node_with_k [2; 1])) >? 0
         then [(List.last (chain_order_ (new_chain node_with_k [2; 1])) 0,
                read_request "k")] else [])).
Proof.
  apply (chain_read_served_by_tail_only 0 (read_request "k") Msg.new_message
           (new_chain node_with_k [2; 1]) node_with_k).
  apply (find_my_position_positioned node_with_k).
  vm_compute. reflexivity.
Defined.

End ChainRoles.

(** * The chain coordinator: writes *)

Section ChainWrites.

Import Chain.

(** X12: the chain coordinator never reports a failed write: whatever the
    chain, the position and the batch, process_write returns true with a
    WRITE_RESPONSE that has success = true and repeats the key and the
    sequence number of the request.  A node that is not the head changes
    neither its store nor the coordinator; it queues the request for the
    first member of a non-empty chain and nothing otherwise. *)
Theorem chain_write_never_fails
    (now : Z) (request response : Msg.Message) (c : ChainReplication) (n : NodeM.Node) :
  let '(ok, r, c', n') := process_write now request response c n in
  ok = true /\ Msg.success r = true /\ Msg.type r = Msg.WRITE_RESPONSE /\
  Msg.key r = Msg.key request /\
  Msg.sequence_number r = Msg.sequence_number request /\
  (is_head c = false ->
   c' = c /\ NodeM.data_store_ n' = NodeM.data_store_ n /\
   NodeM.outbox n'
   = NodeM.outbox n
     ++ (if vsize (chain_order_ c) >? 0
         then [(List.hd 0 (chain_order_ c), request)] else [])).
Proof.
  unfold process_write.
  destruct (is_head c) eqn:Hh; cbn [negb].
  - destruct (batching_enabled_ c && (vsize (write_batch_ c) <? batch_size_ c)).
    + destruct (if vsize _ >=? _ then _ else _) as [c2 n1].
      cbn. repeat split; congruence.
    + cbn [NodeM.write andb].
      destruct (vsize (chain_order_ c) >? 1).
      * unfold forward_write, send_ack.
        destruct (get_successor c =? 0).
        -- destruct (negb (get_predecessor c =? 0)); cbn; repeat split; congruence.
        -- cbn. repeat split; congruence.
      * cbn. repeat split; congruence.
  - destruct (vsize (chain_order_ c) >? 0); cbn.
    + repeat split.
    + rewrite app_nil_r. repeat split.
Qed.

Lemma batch_applied (batch : list Msg.Message) :
  forall n,
    fold_left (fun acc write_msg =>
                 snd (NodeM.write (Msg.key write_msg) (Msg.value write_msg) acc))
              batch n
    = NodeM.mkNode (NodeM.node_id_ n)
        (apply_writes batch (NodeM.data_store_ n))
        (fold_left (fun a _ => wrap64 (a + 1)) batch (NodeM.operation_count_ n))
        (fold_left (fun a _ => wrap64 (a + 1)) batch (NodeM.success_count_ n))
        (NodeM.outbox n).
Proof.
  induction batch as [|m batch IH]; intros n; [destruct n; reflexivity|].
  cbn [fold_left]. rewrite IH. reflexivity.
Qed.

Lemma batch_forwarded (successor : Z) (batch : list Msg.Message) :
  forall n,
    fold_left (fun acc write_msg =>
                 NodeM.send_message successor
                   (Msg.set_sender_id (NodeM.get_node_id acc)
                      (Msg.set_type Msg.CHAIN_FORWARD write_msg)) acc)
              batch n
    = NodeM.mkNode (NodeM.node_id_ n) (NodeM.data_store_ n)
        (NodeM.operation_count_ n) (NodeM.success_count_ n)
        (NodeM.outbox n
         ++ map (fun m => (successor, forwarded (NodeM.node_id_ n) m)) batch).
Proof.
  induction batch as [|m batch IH]; intros n.
  - destruct n. cbn. rewrite app_nil_r. reflexivity.
  - cbn [fold_left]. rewrite IH. cbn. rewrite <- app_assoc. reflexivity.
Qed.

(** X13: a batching head acknowledges every write at once but applies
    none before the batch is full.  For a head with batching on and a
    batch below batch_size, process_write returns true with success = true;
    while the batch with the new request stays below batch_size, the
    request is only appended to the batch: the store, the outbox and the
    pending writes are as before.  When the request fills the batch, all
    batched writes are applied to the store in arrival order, one
    CHAIN_FORWARD copy of each is queued for the successor (none when
    there is no successor), the batch is emptied and no pending write is
    recorded. *)
Theorem batched_write_deferred_until_full
    (now : Z) (request response : Msg.Message) (c : ChainReplication) (n : NodeM.Node) :
  is_head c = true ->
  batching_enabled_ c = true ->
  vsize (write_batch_ c) < batch_size_ c ->
  let '(ok, r, c', n') := process_write now request response c n in
  ok = true /\ Msg.success r = true /\
  (vsize (write_batch_ c) + 1 < batch_size_ c ->
   c' = set_write_batch (write_batch_ c ++ [request]) c /\ n' = n) /\
  (batch_size_ c <= vsize (write_batch_ c) + 1 ->
   c' = set_write_batch [] c /\
   NodeM.data_store_ n'
   = apply_writes (write_batch_ c ++ [request]) (NodeM.data_store_ n) /\
   NodeM.outbox n'
   = NodeM.outbox n
     ++ (if get_successor c =? 0 then []
         else map (fun m => (get_successor c, forwarded (NodeM.node_id_ n) m))
                (write_batch_ c ++ [request]))).
Proof.
  intros Hh Hb Hlt. unfold process_write. rewrite Hh, Hb. cbn [negb andb].
  rewrite (proj2 (Z.ltb_lt _ _) Hlt).
  cbn [write_batch_ batch_size_ set_write_batch].
  assert (Hlen : vsize (write_batch_ c ++ [request]) = vsize (write_batch_ c) + 1).
  { unfold vsize. rewrite length_app. cbn. lia. }
  rewrite Hlen.
  destruct (vsize (write_batch_ c) + 1 >=? batch_size_ c) eqn:Efull.
  - apply ge_bool_iff in Efull.
    unfold process_write_batch. cbn [write_batch_ set_write_batch].
    destruct (write_batch_ c ++ [request]) as [|m0 b0] eqn:Eb;
      [destruct (write_batch_ c); discriminate Eb|].
    rewrite <- Eb.
    change (get_successor (set_write_batch (write_batch_ c ++ [request]) c))
      with (get_successor c).
    rewrite batch_applied.
    destruct (get_successor c =? 0); cbn [negb].
    + cbn. rewrite app_nil_r. repeat split; first [reflexivity | lia].
    + rewrite batch_forwarded. cbn. repeat split; first [reflexivity | lia].
  - assert (Hsmall : vsize (write_batch_ c) + 1 < batch_size_ c).
    { destruct (Z.lt_ge_cases (vsize (write_batch_ c) + 1) (batch_size_ c)) as [H|H];
        [exact H|].
      apply ge_bool_iff in H. congruence. }
    cbn. repeat split; first [reflexivity | lia].
Qed.

Lemma batched_write_deferred_until_full_witness :
  let '(ok, r, c', n') :=
    process_write 0 (write_request "k" "v") Msg.new_message
      (new_chain (NodeM.new_node 1) [1; 2]) (NodeM.new_node 1) in
  ok = true /\ Msg.success r = true /\
  (vsize (write_batch_ (new_chain (NodeM.new_node 1) [1; 2])) + 1
   < batch_size_ (new_chain (NodeM.new_node 1) [1; 2]) ->
   c' = set_write_batch
          (write_batch_ (new_chain (NodeM.new_node 1) [1; 2]) ++ [write_request "k" "v"])
          (new_chain (NodeM.new_node 1) [1; 2])
   /\ n' = NodeM.new_node 1) /\
  (batch_size_ (new_chain (NodeM.new_node 1) [1; 2])
   <= vsize (write_batch_ (new_chain (NodeM.new_node 1) [1; 2])) + 1 ->
   c' = set_write_batch [] (new_chain (NodeM.new_node 1) [1; 2]) /\
   NodeM.data_store_ n'
   = apply_writes
       (write_batch_ (new_chain (NodeM.new_node 1) [1; 2]) ++ [write_request "k" "v"])
       (NodeM.data_store_ (NodeM.new_node 1)) /\
   NodeM.outbox n'
   = NodeM.outbox (NodeM.new_node 1)
     ++ (if get_successor (new_chain (NodeM.new_node 1) [1; 2]) =? 0 then []
         else map (fun m => (get_successor (new_chain (NodeM.new_node 1) [1; 2]),
                             forwarded (NodeM.node_id_ (NodeM.new_node 1)) m))
                (write_batch_ (new_chain (NodeM.new_node 1) [1; 2])
                 ++ [write_request "k" "v"]))).
Proof.
  apply (batched_write_deferred_until_full 0 (write_request "k" "v") Msg.new_message
           (new_chain (NodeM.new_node 1) [1; 2]) (NodeM.new_node 1)).
  - reflexivity.
  - reflexivity.
  - vm_compute. reflexivity.
Defined.

(** A head that does not batch (batching off, or a batch that is not
    below batch_size) applies the write to its store at once; on a chain
    of more than one member it then queues one CHAIN_FORWARD copy for its
    successor and records the request as pending under its sequence
    number, or, when the successor id is 0, queues a CHAIN_ACK instead
    (for its predecessor, or for the sender of the request when it has
    none) and records nothing. *)
Theorem unbatched_head_write_applied
    (now : Z) (request response : Msg.Message) (c : ChainReplication) (n : NodeM.Node) :
  is_head c = true ->
  batching_enabled_ c && (vsize (write_batch_ c) <? batch_size_ c) = false ->
  let '(ok, r, c', n') := process_write now request response c n in
  ok = true /\
  NodeM.data_store_ n' = <[Msg.key request := Msg.value request]> (NodeM.data_store_ n) /\
  (vsize (chain_order_ c) <= 1 -> c' = c /\ NodeM.outbox n' = NodeM.outbox n) /\
  (1 < vsize (chain_order_ c) -> get_successor c <> 0 ->
   pending_writes_ c' = <[Msg.sequence_number request := request]> (pending_writes_ c) /\
   NodeM.outbox n'
   = NodeM.outbox n ++ [(get_successor c, forwarded (NodeM.node_id_ n) request)]) /\
  (1 < vsize (chain_order_ c) -> get_successor c = 0 ->
   c' = c /\
   exists ack,
     NodeM.outbox n'
     = NodeM.outbox n
       ++ [(if get_predecessor c =? 0 then Msg.sender_id request else get_predecessor c,
            ack)] /\
     Msg.type ack = Msg.CHAIN_ACK /\
     Msg.sequence_number ack = Msg.sequence_number request).
Proof.
  intros Hh Hb. unfold process_write. rewrite Hh, Hb. cbn [negb NodeM.write andb].
  destruct (vsize (chain_order_ c) >? 1) eqn:E1.
  - apply Z.gtb_lt in E1.
    unfold forward_write, send_ack.
    destruct (get_successor c =? 0) eqn:Es.
    + apply Z.eqb_eq in Es.
      destruct (get_predecessor c =? 0); cbn;
        (split; [reflexivity|]; split; [reflexivity|];
         split; [intros; lia|]; split; [intros; congruence|];
         intros _ _; split; [reflexivity|]; eexists; repeat split).
    + apply Z.eqb_neq in Es. cbn.
      split; [reflexivity|]. split; [reflexivity|].
      split; [intros; lia|].
      split; [intros; split; reflexivity | intros; congruence].
  - assert (vsize (chain_order_ c) <= 1).
    { destruct (Z.lt_ge_cases 1 (vsize (chain_order_ c))) as [H|H]; [|lia].
      apply Z.gtb_lt in H. congruence. }
    cbn. split; [reflexivity|]. split; [reflexivity|].
    split; [intros; split; reflexivity|].
    split; intros; lia.
Qed.

Lemma unbatched_head_write_applied_witness :
  let c := enable_batching false (new_chain (NodeM.new_node 1) [1; 2]) in
  let '(ok, r, c', n') :=
    process_write 0 (write_request "k" "v") Msg.new_message c (NodeM.new_node 1) in
  ok = true /\
  NodeM.data_store_ n'
  = <[Msg.key (write_request "k" "v") := Msg.value (write_request "k" "v")]>
      (NodeM.data_store_ (NodeM.new_node 1)) /\
  (vsize (chain_order_ c) <= 1 ->
   c' = c /\ NodeM.outbox n' = NodeM.outbox (NodeM.new_node 1)) /\
  (1 < vsize (chain_order_ c) -> get_successor c <> 0 ->
   pending_writes_ c'
   = <[Msg.sequence_number (write_request "k" "v") := write_request "k" "v"]>
       (pending_writes_ c) /\
   NodeM.outbox n'
   = NodeM.outbox (NodeM.new_node 1)
     ++ [(get_successor c,
          forwarded (NodeM.node_id_ (NodeM.new_node 1)) (write_request "k" "v"))]) /\
  (1 < vsize (chain_order_ c) -> get_successor c = 0 ->
   c' = c /\
   exists ack,
     NodeM.outbox n'
     = NodeM.outbox (NodeM.new_node 1)
       ++ [(if get_predecessor c =? 0 then Msg.sender_id (write_request "k" "v")
            else get_predecessor c, ack)] /\
     Msg.type ack = Msg.CHAIN_ACK /\
     Msg.sequence_number ack = Msg.sequence_number (write_request "k" "v")).
Proof.
  apply (unbatched_head_write_applied 0 (write_request "k" "v") Msg.new_message
           (enable_batching false (new_chain (NodeM.new_node 1) [1; 2]))
           (NodeM.new_node 1)).
  - reflexivity.
  - reflexivity.
Defined.

End ChainWrites.

(** * The local store, the cluster list and the send path *)

Section LocalStore.

(** X14: the local store behaves as a map: a read after a write of the
    same key returns the written value, a read of another key is not
    affected by the write, a read after a delete finds nothing, delete_key
    returns true exactly when the key was present, and deleting twice
    returns false the second time. *)
Theorem store_write_read_delete (k k' v : string) (n : NodeM.Node) :
  fst (NodeM.read k (snd (NodeM.write k v n))) = Some v /\
  (k' <> k ->
   fst (NodeM.read k' (snd (NodeM.write k v n))) = fst (NodeM.read k' n) /\
   fst (NodeM.read k' (snd (NodeM.delete_key k n))) = fst (NodeM.read k' n)) /\
  fst (NodeM.read k (snd (NodeM.delete_key k n))) = None /\
  (fst (NodeM.delete_key k n) = true <-> is_Some (NodeM.data_store_ n !! k)) /\
  fst (NodeM.delete_key k (snd (NodeM.delete_key k n))) = false.
Proof.
  unfold NodeM.read, NodeM.write, NodeM.delete_key. cbn [snd NodeM.data_store_].
  split; [rewrite lookup_insert_eq; reflexivity|].
  split.
  { intros Hne. rewrite lookup_insert_ne by congruence.
    split; [destruct (NodeM.data_store_ n !! k'); reflexivity|].
    destruct (NodeM.data_store_ n !! k) eqn:E; cbn [snd NodeM.data_store_];
      [rewrite lookup_delete_ne by congruence|];
      destruct (NodeM.data_store_ n !! k'); reflexivity. }
  destruct (NodeM.data_store_ n !! k) as [w|] eqn:E; cbn [fst snd NodeM.data_store_].
  - rewrite lookup_delete_eq. cbn. repeat split; eauto.
  - rewrite E. cbn. repeat split; try discriminate.
    intros [x Hx]. discriminate Hx.
Qed.

Lemma store_call_counts (n : NodeM.Node) (c : StoreCall) :
  NodeM.operation_count_ (apply_store_call n c) = wrap64 (NodeM.operation_count_ n + 1) /\
  (NodeM.success_count_ (apply_store_call n c) = wrap64 (NodeM.success_count_ n + 1)
   \/ NodeM.success_count_ (apply_store_call n c) = NodeM.success_count_ n).
Proof.
  destruct c; cbn [apply_store_call]; unfold NodeM.read, NodeM.write, NodeM.delete_key;
    try destruct (NodeM.data_store_ n !! k); cbn; split; auto.
Qed.

(** On a node whose operation counter has not reached 2^64 - 1 and
    whose success counter lies between 0 and the operation counter, every
    read, write and delete_key advances the operation counter by exactly
    one and keeps the success counter between 0 and the operation
    counter; get_success_rate therefore stays in [0,1]. *)
Theorem store_counters_consistent (n : NodeM.Node) (c : StoreCall) :
  0 <= NodeM.success_count_ n <= NodeM.operation_count_ n ->
  NodeM.operation_count_ n < 2 ^ 64 - 1 ->
  NodeM.operation_count_ (apply_store_call n c) = NodeM.operation_count_ n + 1 /\
  0 <= NodeM.success_count_ (apply_store_call n c)
    <= NodeM.operation_count_ (apply_store_call n c) /\
  (0 <= node_success_rate (apply_store_call n c))%Q /\
  (node_success_rate (apply_store_call n c) <= 1)%Q.
Proof.
  intros Hs Ho.
  destruct (store_call_counts n c) as [Hops Hok].
  rewrite wrap64_small in Hops by lia.
  assert (Hb : 0 <= NodeM.success_count_ (apply_store_call n c)
               <= NodeM.operation_count_ (apply_store_call n c)).
  { rewrite Hops. destruct Hok as [Hok|Hok]; rewrite Hok;
      [rewrite wrap64_small by lia|]; lia. }
  split; [exact Hops|]. split; [exact Hb|].
  unfold node_success_rate.
  destruct (NodeM.operation_count_ (apply_store_call n c) =? 0) eqn:E.
  - split; [apply Qle_refl | discriminate].
  - apply Z.eqb_neq in E.
    unfold Qle. cbn [Qnum Qden]. rewrite Z2Pos.id by lia. lia.
Qed.

Lemma store_counters_consistent_witness :
  NodeM.operation_count_ (apply_store_call (NodeM.new_node 1) (StoreRead "k"))
  = NodeM.operation_count_ (NodeM.new_node 1) + 1 /\
  0 <= NodeM.success_count_ (apply_store_call (NodeM.new_node 1) (StoreRead "k"))
    <= NodeM.operation_count_ (apply_store_call (NodeM.new_node 1) (StoreRead "k")) /\
  (0 <= node_success_rate (apply_store_call (NodeM.new_node 1) (StoreRead "k")))%Q /\
  (node_success_rate (apply_store_call (NodeM.new_node 1) (StoreRead "k")) <= 1)%Q.
Proof.
  apply (store_counters_consistent (NodeM.new_node 1) (StoreRead "k")).
  - cbn. lia.
  - cbn. lia.
Defined.

End LocalStore.

Section ClusterList.

Import Cluster.

Lemma insert_sorted_Permutation (x : Z) (l : list Z) :
  Permutation (insert_sorted x l) (x :: l).
Proof.
  induction l as [|y l IH]; cbn; [reflexivity|].
  destruct (x <=? y); [reflexivity|].
  rewrite IH. apply perm_swap.
Qed.

Lemma sort_Permutation (l : list Z) : Permutation (sort l) l.
Proof.
  induction l as [|x l IH]; cbn; [reflexivity|].
  rewrite insert_sorted_Permutation. constructor. exact IH.
Qed.

Lemma insert_sorted_ascending (x : Z) (l : list Z) :
  ascending l -> ascending (insert_sorted x l).
Proof.
  induction l as [|y l IH]; cbn [insert_sorted ascending].
  - intros _. split; constructor.
  - intros [Hy Hl]. destruct (x <=? y) eqn:E.
    + apply Z.leb_le in E. cbn [ascending]. split; [|split; assumption].
      constructor; [exact E|].
      eapply List.Forall_impl; [|exact Hy]. intros z Hz. cbn in Hz. lia.
    + apply Z.leb_gt in E. cbn [ascending]. split; [|exact (IH Hl)].
      rewrite (insert_sorted_Permutation x l).
      constructor; [lia | exact Hy].
Qed.

Lemma sort_ascending (l : list Z) : ascending (sort l).
Proof.
  induction l as [|x l IH]; cbn [sort fold_right]; [exact I|].
  apply insert_sorted_ascending, IH.
Qed.

(** X15: Node::handle_node_recovery adds a node that is not listed and
    then sorts the whole cluster list: the result is in ascending order
    (whatever the order was before) and holds exactly the old members and
    the recovered node; a node that is already listed leaves the list,
    sorted or not, as it is.  The leader is never changed. *)
Theorem cluster_recovery_sorts (id : Z) (m : Membership) :
  leader_id_ (handle_node_recovery id m) = leader_id_ m /\
  (~ In id (cluster_nodes_ m) ->
   ascending (cluster_nodes_ (handle_node_recovery id m)) /\
   Permutation (cluster_nodes_ (handle_node_recovery id m)) (id :: cluster_nodes_ m)) /\
  (In id (cluster_nodes_ m) -> handle_node_recovery id m = m).
Proof.
  unfold handle_node_recovery.
  destruct (Chain.contains id (cluster_nodes_ m)) eqn:E.
  - apply contains_In in E. split; [reflexivity|].
    split; [intros Hn; contradiction | intros _; reflexivity].
  - cbn [leader_id_ cluster_nodes_]. split; [reflexivity|]. split.
    + intros _. split; [apply sort_ascending|].
      rewrite sort_Permutation. symmetry. apply Permutation_cons_append.
    + intros H. apply contains_In in H. congruence.
Qed.

(** X16: Node::handle_node_failure keeps the leader inside the cluster
    list as long as a member is left: if the leader was listed before and
    the list is not empty afterwards, the leader afterwards is listed; it
    is the first remaining member when the failed node was the leader and
    the old leader otherwise.  When the last member fails the list is
    empty and the leader id keeps naming the failed node. *)
Theorem cluster_failure_keeps_leader_listed (id : Z) (m : Membership) :
  leader_is_member m ->
  (cluster_nodes_ (handle_node_failure id m) <> [] ->
   leader_is_member (handle_node_failure id m) /\
   leader_id_ (handle_node_failure id m)
   = (if id =? leader_id_ m
      then List.hd 0 (cluster_nodes_ (handle_node_failure id m))
      else leader_id_ m)) /\
  (cluster_nodes_ (handle_node_failure id m) = [] ->
   leader_id_ (handle_node_failure id m) = leader_id_ m /\ leader_id_ m = id).
Proof.
  unfold leader_is_member, handle_node_failure. intros Hl.
  assert (Hnodes :
    forall l, l = (if Chain.contains id (cluster_nodes_ m)
                   then Chain.erase_first id (cluster_nodes_ m)
                   else cluster_nodes_ m) ->
    (id <> leader_id_ m -> In (leader_id_ m) l) /\
    (l = [] -> leader_id_ m = id)).
  { intros l ->. destruct (Chain.contains id (cluster_nodes_ m)) eqn:E.
    - clear E. induction (cluster_nodes_ m) as [|y l IH]; [destruct Hl|].
      cbn. destruct (y =? id) eqn:Ey.
      + apply Z.eqb_eq in Ey. subst y. split.
        * intros Hne. destruct Hl as [Hl|Hl]; [congruence | exact Hl].
        * intros ->. destruct Hl as [Hl|[]]. congruence.
      + split; [|discriminate].
        intros Hne. destruct Hl as [Hl|Hl]; [left; exact Hl|].
        right. apply IH; assumption.
    - split; [intros _; exact Hl|]. intros H. rewrite H in Hl. destruct Hl. }
  destruct (if Chain.contains id (cluster_nodes_ m)
            then Chain.erase_first id (cluster_nodes_ m)
            else cluster_nodes_ m) as [|first rest] eqn:El.
  - cbn. split; [intros H; contradiction|].
    intros _. split; [reflexivity|]. apply (Hnodes [] eq_refl). reflexivity.
  - destruct (id =? leader_id_ m) eqn:E; cbn.
    + split; [|discriminate]. intros _. split; [left|]; reflexivity.
    + split; [|discriminate]. intros _. split; [|reflexivity].
      apply Z.eqb_neq in E. apply (Hnodes (first :: rest) eq_refl). exact E.
Qed.

Lemma cluster_failure_keeps_leader_listed_witness :
  (cluster_nodes_ (handle_node_failure 1 (new_membership [1; 2; 3])) <> [] ->
   leader_is_member (handle_node_failure 1 (new_membership [1; 2; 3])) /\
   leader_id_ (handle_node_failure 1 (new_membership [1; 2; 3]))
   = (if 1 =? leader_id_ (new_membership [1; 2; 3])
      then List.hd 0 (cluster_nodes_ (handle_node_failure 1 (new_membership [1; 2; 3])))
      else leader_id_ (new_membership [1; 2; 3]))) /\
  (cluster_nodes_ (handle_node_failure 1 (new_membership [1; 2; 3])) = [] ->
   leader_id_ (handle_node_failure 1 (new_membership [1; 2; 3]))
   = leader_id_ (new_membership [1; 2; 3])
   /\ leader_id_ (new_membership [1; 2; 3]) = 1).
Proof.
  apply (cluster_failure_keeps_leader_listed 1 (new_membership [1; 2; 3])).
  left. reflexivity.
Defined.

End ClusterList.

Section SendPath.

Import Network.

(** The peer directory: a node that was added is reachable until it
    is removed or marked inactive; is_node_reachable is false for a node
    that was removed or never added; update_node_status changes the flag
    of a known node and leaves the directory as it is for an unknown one
    (it never registers a node); none of the three calls affects another
    node's entry. *)
Theorem peer_directory_laws
    (now id id' : Z) (host : string) (p : Z) (active : bool) (nm : NetworkManager) :
  is_node_reachable id (add_node id host p nm) = true /\
  is_node_reachable id (remove_node id nm) = false /\
  is_node_reachable id (update_node_status now id active nm)
  = match known_nodes_ nm !! id with Some _ => active | None => false end /\
  (known_nodes_ nm !! id = None -> update_node_status now id active nm = nm) /\
  (id' <> id ->
   known_nodes_ (add_node id host p nm) !! id' = known_nodes_ nm !! id' /\
   known_nodes_ (remove_node id nm) !! id' = known_nodes_ nm !! id' /\
   known_nodes_ (update_node_status now id active nm) !! id' = known_nodes_ nm !! id').
Proof.
  unfold is_node_reachable, add_node, remove_node, update_node_status.
  cbn [known_nodes_ set_known_nodes].
  split; [rewrite lookup_insert_eq; reflexivity|].
  split; [rewrite lookup_delete_eq; reflexivity|].
  split.
  { destruct (known_nodes_ nm !! id) as [e|] eqn:E; cbn [known_nodes_ set_known_nodes].
    - rewrite lookup_insert_eq. reflexivity.
    - rewrite E. reflexivity. }
  split.
  { intros E. rewrite E. reflexivity. }
  intros Hne.
  split; [apply lookup_insert_ne; congruence|].
  split; [apply lookup_delete_ne; congruence|].
  destruct (known_nodes_ nm !! id) as [e|]; cbn [known_nodes_ set_known_nodes];
    [apply lookup_insert_ne; congruence | reflexivity].
Qed.






(** send_message on a manager that is not running returns false and
    changes nothing; on a running manager with batching on it returns
    true and either appends the message to the target's batch or, when
    that makes ten, leaves the target's batch empty; with batching off it
    returns true and only advances the target's message count. *)
Theorem send_message_outcomes (target : Z) (m : Msg.Message) (nm : NetworkManager) :
  (running_ nm = false -> send_message target m nm = (false, nm)) /\
  (running_ nm = true -> message_batching_enabled_ nm = true ->
   fst (send_message target m nm) = true /\
   pending_batches_ (snd (send_message target m nm)) !! target
   = Some (if vsize (default [] (pending_batches_ nm !! target)) + 1 >=? 10
           then []
           else default [] (pending_batches_ nm !! target) ++ [m]) /\
   message_counts_ (snd (send_message target m nm)) = message_counts_ nm) /\
  (running_ nm = true -> message_batching_enabled_ nm = false ->
   fst (send_message target m nm) = true /\
   pending_batches_ (snd (send_message target m nm)) = pending_batches_ nm /\
   message_counts_ (snd (send_message target m nm)) !! target
   = Some (wrap64 (default 0 (message_counts_ nm !! target) + 1))).
Proof.
  unfold send_message.
  split; [intros Hr; rewrite Hr; reflexivity|]. split.
  - intros Hr Hb. rewrite Hr, Hb. cbn [negb fst snd].
    assert (Hlen : vsize (default [] (pending_batches_ nm !! target) ++ [m])
                   = vsize (default [] (pending_batches_ nm !! target)) + 1).
    { unfold vsize. rewrite length_app. cbn. lia. }
    rewrite Hlen.
    split; [reflexivity|].
    destruct (vsize (default [] (pending_batches_ nm !! target)) + 1 >=? 10).
    + unfold process_message_batch. cbn [pending_batches_ set_pending_batches].
      rewrite lookup_insert_eq.
      destruct (default [] (pending_batches_ nm !! target) ++ [m]) eqn:Eb;
        [destruct (default [] (pending_batches_ nm !! target)); discriminate Eb|].
      cbn [pending_batches_ set_pending_batches message_counts_].
      split; [apply lookup_insert_eq | reflexivity].
    + cbn [pending_batches_ set_pending_batches message_counts_].
      split; [apply lookup_insert_eq | reflexivity].
  - intros Hr Hb. rewrite Hr, Hb. cbn.
    split; [reflexivity|]. split; [reflexivity | apply lookup_insert_eq].
Qed.



End SendPath.

(** * The wire codec: what the pipe-delimited format cannot carry *)

Section WireCodecLimits.

Import Msg.

Local Open Scope string_scope.

Lemma append_assoc_s (a b c : string) : (a ++ b) ++ c = a ++ (b ++ c).
Proof.
  induction a as [|x a IH]; [reflexivity|].
  change (String x a ++ b) with (String x (a ++ b)).
  change (String x (a ++ b) ++ c) with (String x ((a ++ b) ++ c)).
  rewrite IH. reflexivity.
Qed.

(** The first ten fields of a serialized message are read back whatever
    the metadata holds; what is left for the last [getline] is the
    metadata text. *)
Lemma deserialize_ten_fields (m : Message) :
  well_formed m ->
  no_pipe (key m) = true -> no_pipe (value m) = true ->
  no_pipe (correlation_id m) = true ->
  deserialize (serialize m)
  = match field (fun token msg => Some (set_metadata token msg))
            (Some (set_metadata "" m, istringstream (metadata m))) with
    | Some (msg, _) => Some msg
    | None => None
    end.
Proof.
  intros [Hty Hsnd Hrcv Hts Hseq Htg] Hk Hv Hc.
  destruct m as [ty snd rcv k v ok ts seq corr tgs meta].
  cbn [type sender_id receiver_id key value success timestamp sequence_number
       correlation_id target_nodes metadata] in *.
  rewrite no_pipe_differs in Hk, Hv, Hc.
  assert (Hdig : forall n, (0 <= n)%Z -> all_chars (differs "|") (put_unsigned n) = true).
  { intros n Hn. apply digits_differ; [reflexivity | apply put_unsigned_digits, Hn]. }
  unfold deserialize, serialize.
  cbn [type sender_id receiver_id key value success timestamp sequence_number
       correlation_id target_nodes metadata].
  repeat match goal with
         | |- context [String "|" EmptyString ++ ?x] =>
             change (String "|" EmptyString ++ x) with (String "|" x)
         end.
  cbv zeta.
  rewrite field_found by apply put_int_no_pipe.
  rewrite stoi_put_int, type_of_int_of_type by (try apply int_of_type_range; exact Hty).
  rewrite field_found by (apply Hdig; lia).
  rewrite stoul_put_unsigned, wrap32_small by lia.
  rewrite field_found by (apply Hdig; lia).
  rewrite stoul_put_unsigned, wrap32_small by lia.
  rewrite field_found by exact Hk.
  rewrite field_found by exact Hv.
  rewrite field_found by (destruct ok; reflexivity).
  rewrite field_found by (apply Hdig; lia).
  unfold stoull. rewrite stoul_put_unsigned by lia.
  rewrite field_found by (apply Hdig; lia).
  rewrite stoul_put_unsigned, wrap32_small by lia.
  rewrite field_found by exact Hc.
  rewrite field_found by (apply put_targets_no_pipe; exact Htg).
  assert (Htargets :
    (if String.eqb (put_targets true tgs) ""
     then Some []
     else get_targets (S (String.length (put_targets true tgs)))
            (istringstream (put_targets true tgs)) []) = Some tgs).
  { destruct tgs as [|x l]; [reflexivity|].
    destruct (String.eqb (put_targets true (x :: l)) "") eqn:E.
    - apply String.eqb_eq in E. rewrite put_targets_first in E.
      destruct (put_unsigned_shape x) as [c [s [Ex _]]].
      { inversion Htg; lia. }
      rewrite Ex in E. discriminate E.
    - apply get_targets_put_targets; [exact Htg|].
      pose proof (put_targets_length (x :: l) Htg true). lia. }
  cbn [set_type set_sender_id set_receiver_id set_key set_value set_success
       set_timestamp set_sequence_number set_correlation_id set_metadata new_message
       type sender_id receiver_id key value success timestamp sequence_number
       correlation_id target_nodes metadata].
  assert (Hok : String.eqb (if ok then "1" else "0") "1" = ok) by (destruct ok; reflexivity).
  rewrite Hok.
  destruct (String.eqb (put_targets true tgs) "") eqn:E.
  - injection Htargets as <-. reflexivity.
  - rewrite Htargets. reflexivity.
Qed.

(** X19: a metadata text that contains a pipe does not survive the wire
    format: for a message whose integer fields are in the ranges of their
    C++ types and whose key, value and correlation id hold no pipe,
    deserialize (serialize m) returns the message with its metadata cut
    before the first pipe; the ten other fields are recovered. *)
Theorem metadata_cut_at_first_pipe (m : Message) (pre post : string) :
  well_formed m ->
  no_pipe (key m) = true -> no_pipe (value m) = true ->
  no_pipe (correlation_id m) = true ->
  metadata m = pre ++ String "|" post ->
  no_pipe pre = true ->
  deserialize (serialize m) = Some (set_metadata pre m).
Proof.
  intros Hwf Hk Hv Hc Hmeta Hpre.
  rewrite (deserialize_ten_fields m Hwf Hk Hv Hc), Hmeta.
  rewrite no_pipe_differs in Hpre.
  rewrite field_found by exact Hpre.
  destruct m. reflexivity.
Qed.

Lemma metadata_cut_at_first_pipe_witness :
  deserialize
    (serialize (mkMessage WRITE_REQUEST 3 1 "k" "v" true 17 42 "c" [2; 5] "a|b|c"))
  = Some (set_metadata "a"
            (mkMessage WRITE_REQUEST 3 1 "k" "v" true 17 42 "c" [2; 5] "a|b|c")).
Proof.
  apply (metadata_cut_at_first_pipe
           (mkMessage WRITE_REQUEST 3 1 "k" "v" true 17 42 "c" [2; 5] "a|b|c")
           "a" "b|c"); try reflexivity.
  split; cbn; first [exact I | lia | repeat constructor; lia].
Defined.

Lemma field_head_fields (conv : string -> Message -> option Message)
    (ty : MessageType) (snd rcv : Z) (k : string) (st : option (Message * istream)) :
  (forall t msg msg',
     conv t msg = Some msg' ->
     type msg' = type msg /\ sender_id msg' = sender_id msg /\
     receiver_id msg' = receiver_id msg /\ key msg' = key msg) ->
  head_fields ty snd rcv k st ->
  head_fields ty snd rcv k (field conv st).
Proof.
  intros Hconv Hst. destruct st as [[msg iss]|]; [|exact I].
  unfold field. destruct (getline iss "|") as [[token|] iss']; [|exact Hst].
  destruct (conv token msg) as [msg'|] eqn:E; [|exact I].
  destruct (Hconv _ _ _ E) as [H1 [H2 [H3 H4]]].
  cbn in *. rewrite H1, H2, H3, H4. exact Hst.
Qed.

(** X20: a key that contains a pipe is cut by the wire format: for a
    message whose kind, sender and receiver are in range, whatever
    deserialize (serialize m) returns (when it does not throw) has the
    kind, the sender and the receiver of m, and as its key the part of
    the key before the first pipe; it is never m. *)
Theorem key_cut_at_first_pipe (m : Message) (kpre kpost : string) :
  well_formed m ->
  key m = kpre ++ String "|" kpost ->
  no_pipe kpre = true ->
  deserialize (serialize m) <> Some m /\
  forall m',
    deserialize (serialize m) = Some m' ->
    type m' = type m /\ sender_id m' = sender_id m /\
    receiver_id m' = receiver_id m /\ key m' = kpre.
Proof.
  intros [Hty Hsnd Hrcv Hts Hseq Htg] Hkey Hpre.
  destruct m as [ty snd rcv k v ok ts seq corr tgs meta].
  cbn [type sender_id receiver_id key value success timestamp sequence_number
       correlation_id target_nodes metadata] in *.
  subst k. rewrite no_pipe_differs in Hpre.
  assert (Hdig : forall n, (0 <= n)%Z -> all_chars (differs "|") (put_unsigned n) = true).
  { intros n Hn. apply digits_differ; [reflexivity | apply put_unsigned_digits, Hn]. }
  assert (Hall : forall m',
            deserialize (serialize (mkMessage ty snd rcv (kpre ++ String "|" kpost)
                                      v ok ts seq corr tgs meta)) = Some m' ->
            type m' = ty /\ sender_id m' = snd /\ receiver_id m' = rcv /\ key m' = kpre).
  { intros m'. unfold deserialize, serialize.
    cbn [type sender_id receiver_id key value success timestamp sequence_number
         correlation_id target_nodes metadata].
    repeat match goal with
           | |- context [String "|" EmptyString ++ ?x] =>
               change (String "|" EmptyString ++ x) with (String "|" x)
           end.
    rewrite (append_assoc_s kpre (String "|" kpost)).
    change (String "|" kpost ++ ?x) with (String "|" (kpost ++ x)).
    cbv zeta.
    rewrite field_found by apply put_int_no_pipe.
    rewrite stoi_put_int, type_of_int_of_type by (try apply int_of_type_range; exact Hty).
    rewrite field_found by (apply Hdig; lia).
    rewrite stoul_put_unsigned, wrap32_small by lia.
    rewrite field_found by (apply Hdig; lia).
    rewrite stoul_put_unsigned, wrap32_small by lia.
    rewrite field_found by exact Hpre.
    match goal with
    | |- match ?st with Some _ => _ | None => _ end = _ -> _ =>
        assert (Hst : head_fields ty snd rcv kpre st)
    end.
    { repeat (apply field_head_fields;
              [intros t msg msg' E;
               repeat match type of E with
                      | context [match ?x with _ => _ end] => destruct x; try discriminate E
                      end;
               inversion E; subst msg'; repeat split|]).
      cbn. repeat split. }
    match goal with
    | |- match ?st with Some _ => _ | None => _ end = _ -> _ =>
        destruct st as [[msg iss]|]; [|discriminate]
    end.
    intros E. inversion E; subst m'. exact Hst. }
  split; [|exact Hall].
  intros E. destruct (Hall _ E) as [_ [_ [_ Hk]]]. cbn in Hk.
  apply (f_equal String.length) in Hk. rewrite length_append in Hk. cbn in Hk. lia.
Qed.

Lemma key_cut_at_first_pipe_witness :
  deserialize
    (serialize (mkMessage WRITE_REQUEST 3 1 "user|7" "v" true 17 42 "c" [2; 5] ""))
  <> Some (mkMessage WRITE_REQUEST 3 1 "user|7" "v" true 17 42 "c" [2; 5] "") /\
  forall m',
    deserialize
      (serialize (mkMessage WRITE_REQUEST 3 1 "user|7" "v" true 17 42 "c" [2; 5] ""))
    = Some m' ->
    type m' = type (mkMessage WRITE_REQUEST 3 1 "user|7" "v" true 17 42 "c" [2; 5] "") /\
    sender_id m'
    = sender_id (mkMessage WRITE_REQUEST 3 1 "user|7" "v" true 17 42 "c" [2; 5] "") /\
    receiver_id m'
    = receiver_id (mkMessage WRITE_REQUEST 3 1 "user|7" "v" true 17 42 "c" [2; 5] "") /\
    key m' = "user".
Proof.
  apply (key_cut_at_first_pipe
           (mkMessage WRITE_REQUEST 3 1 "user|7" "v" true 17 42 "c" [2; 5] "")
           "user" "7"); try reflexivity.
  split; cbn; first [exact I | lia | repeat constructor; lia].
Defined.

Lemma scan_number_no_number (c : ascii) (s : string) :
  is_digit c = false -> is_space c = false -> c <> "+"%char -> c <> "-"%char ->
  scan_number (String c s) = None.
Proof.
  intros Hd Hs Hp Hm.
  destruct c as [[] [] [] [] [] [] [] []];
    try (vm_compute in Hd; discriminate Hd);
    try (vm_compute in Hs; discriminate Hs);
    try (exfalso; apply Hp; reflexivity);
    try (exfalso; apply Hm; reflexivity);
    reflexivity.
Qed.

(** X21: deserialize throws on any input whose first character is not a
    digit, a blank or a sign (a leading pipe included: the kind field is
    then empty), because std::stoi finds no number; the empty input is
    accepted and yields the default message. *)
Theorem deserialize_needs_a_numeric_kind (c : ascii) (rest : string) :
  is_digit c = false -> is_space c = false -> c <> "+"%char -> c <> "-"%char ->
  deserialize (String c rest) = None /\ deserialize "" = Some new_message.
Proof.
  intros Hd Hs Hp Hm. split; [|reflexivity].
  assert (Hfirst :
    field (fun token msg =>
             match stoi token with
             | Some i => Some (set_type (type_of_int i) msg)
             | None => None
             end)
          (Some (new_message, istringstream (String c rest))) = None).
  { unfold field, getline, istringstream. cbn [eofbit failbit unread orb read_until].
    destruct (Ascii.eqb c "|") eqn:E.
    - reflexivity.
    - destruct (read_until "|" rest) as [tok [r|]];
        unfold stoi; rewrite scan_number_no_number by assumption; reflexivity. }
  unfold deserialize. cbv zeta. rewrite Hfirst. reflexivity.
Qed.

Lemma deserialize_needs_a_numeric_kind_witness :
  deserialize (String "x" "1|2|3") = None /\ deserialize "" = Some new_message.
Proof.
  apply (deserialize_needs_a_numeric_kind "x" "1|2|3").
  - reflexivity.
  - reflexivity.
  - intros H. discriminate H.
  - intros H. discriminate H.
Defined.

End WireCodecLimits.

(** * Further properties of the hybrid dispatcher *)

Section DispatcherMore.

Import Hybrid.






Lemma cache_update_performance_metrics (request : Msg.Message) (latency : Z)
    (h : HybridProtocol) :
  cache_ (update_performance_metrics request latency h) = cache_ h.
Proof. reflexivity. Qed.




(** A fresh cache entry is served without consulting the store or a
    coordinator: with caching on and an entry for the key younger than
    cache_ttl (in unsigned 64-bit arithmetic), process_read returns true
    with the cached value whatever node and coordinators the dispatcher
    works on; they are left as they are, no message is queued, and only
    cache_hits advances. *)
Theorem cache_hit_ignores_store
    (now : Z) (sch : Quorum.Schedule) (request response : Msg.Message)
    (h : HybridProtocol) (v : string) (stored_at : Z)
    (n : NodeM.Node) (c : Chain.ChainReplication) (q : Quorum.QuorumReplication) :
  caching_enabled_ h = true ->
  cache_ h !! Msg.key request = Some (v, stored_at) ->
  wrap64 (now - stored_at) < cache_ttl_ h ->
  let '(ok, r, h') := process_read now sch request response (with_protocols n c q h) in
  ok = true /\ Msg.success r = true /\ Msg.value r = v /\
  Msg.type r = Msg.READ_RESPONSE /\
  h' = with_counters (chain_operations_ h) (quorum_operations_ h)
         (wrap64 (cache_hits_ h + 1)) (cache_misses_ h) (with_protocols n c q h).
Proof.
  intros Hc Hcached Hfresh.
  unfold process_read, try_cache_read.
  cbn [caching_enabled_ cache_ cache_ttl_ with_protocols].
  rewrite Hc, Hcached. apply Z.ltb_lt in Hfresh. rewrite Hfresh.
  cbn. repeat split.
Qed.

Lemma cache_hit_ignores_store_witness :
  let h := update_cache 10 "k" "old" (new_hybrid (NodeM.new_node 1) [1] [1]) in
  let '(ok, r, h') :=
    process_read 20 (idle 0 21) (read_request "k") Msg.new_message
      (with_protocols (snd (NodeM.write "k" "new" (NodeM.new_node 1)))
         (chain_protocol_ h) (quorum_protocol_ h) h) in
  ok = true /\ Msg.success r = true /\ Msg.value r = "old" /\
  Msg.type r = Msg.READ_RESPONSE /\
  h' = with_counters (chain_operations_ h) (quorum_operations_ h)
         (wrap64 (cache_hits_ h + 1)) (cache_misses_ h)
         (with_protocols (snd (NodeM.write "k" "new" (NodeM.new_node 1)))
            (chain_protocol_ h) (quorum_protocol_ h) h).
Proof.
  apply (cache_hit_ignores_store 20 (idle 0 21) (read_request "k") Msg.new_message
           (update_cache 10 "k" "old" (new_hybrid (NodeM.new_node 1) [1] [1]))
           "old" 10).
  - reflexivity.
  - vm_compute. reflexivity.
  - vm_compute. reflexivity.
Defined.

(** X24: HybridProtocol::handle_node_failure removes the node from the
    chain and from the quorum (one occurrence each, when present) and
    lowers active_nodes by one with a floor of one, computed on unsigned
    64-bit values: for a count of at least 2 the result is the count minus
    one, for 1 it stays 1, and for 0, the value the constructor leaves,
    the subtraction wraps and the result is 2^64 - 1.  The node, the cache
    and the counters are untouched. *)
Theorem dispatcher_failure_updates_both (id : Z) (h : HybridProtocol) :
  0 <= active_nodes (current_metrics_ h) < 2 ^ 64 ->
  let h' := HybridMore.handle_node_failure id h in
  Chain.chain_order_ (chain_protocol_ h')
  = (if Chain.contains id (Chain.chain_order_ (chain_protocol_ h))
     then Chain.erase_first id (Chain.chain_order_ (chain_protocol_ h))
     else Chain.chain_order_ (chain_protocol_ h)) /\
  Quorum.quorum_nodes_ (quorum_protocol_ h')
  = (if Chain.contains id (Quorum.quorum_nodes_ (quorum_protocol_ h))
     then Chain.erase_first id (Quorum.quorum_nodes_ (quorum_protocol_ h))
     else Quorum.quorum_nodes_ (quorum_protocol_ h)) /\
  active_nodes (current_metrics_ h')
  = (if active_nodes (current_metrics_ h) =? 0 then 2 ^ 64 - 1
     else Z.max 1 (active_nodes (current_metrics_ h) - 1)) /\
  1 <= active_nodes (current_metrics_ h') /\
  node_ h' = node_ h /\ cache_ h' = cache_ h.
Proof.
  intros Ha. cbn zeta. unfold HybridMore.handle_node_failure.
  cbn [chain_protocol_ quorum_protocol_ current_metrics_ node_ cache_ with_metrics
       with_protocols active_nodes HybridMore.set_active_nodes].
  split.
  { unfold Chain.handle_node_failure.
    destruct (Chain.contains id (Chain.chain_order_ (chain_protocol_ h))); [|reflexivity].
    unfold Chain.find_my_position. destruct (Chain.index_from _ _ _); reflexivity. }
  split; [apply failure_members|].
  split.
  { destruct (active_nodes (current_metrics_ h) =? 0) eqn:E.
    - apply Z.eqb_eq in E. rewrite E. reflexivity.
    - apply Z.eqb_neq in E. rewrite wrap64_small by lia. reflexivity. }
  split; [lia|]. split; reflexivity.
Qed.

Lemma dispatcher_failure_updates_both_witness :
  let h := new_hybrid (NodeM.new_node 1) [1; 2; 3] [1; 2; 3] in
  let h' := HybridMore.handle_node_failure 2 h in
  Chain.chain_order_ (chain_protocol_ h')
  = (if Chain.contains 2 (Chain.chain_order_ (chain_protocol_ h))
     then Chain.erase_first 2 (Chain.chain_order_ (chain_protocol_ h))
     else Chain.chain_order_ (chain_protocol_ h)) /\
  Quorum.quorum_nodes_ (quorum_protocol_ h')
  = (if Chain.contains 2 (Quorum.quorum_nodes_ (quorum_protocol_ h))
     then Chain.erase_first 2 (Quorum.quorum_nodes_ (quorum_protocol_ h))
     else Quorum.quorum_nodes_ (quorum_protocol_ h)) /\
  active_nodes (current_metrics_ h')
  = (if active_nodes (current_metrics_ h) =? 0 then 2 ^ 64 - 1
     else Z.max 1 (active_nodes (current_metrics_ h) - 1)) /\
  1 <= active_nodes (current_metrics_ h') /\
  node_ h' = node_ h /\ cache_ h' = cache_ h.
Proof.
  apply (dispatcher_failure_updates_both 2
           (new_hybrid (NodeM.new_node 1) [1; 2; 3] [1; 2; 3])).
  cbn. lia.
Defined.

(** X25: HybridProtocol::handle_node_recovery treats the two coordinators
    differently: the chain gets the node appended whether or not it is
    already listed, the quorum only when it is absent; active_nodes
    advances by one in either case.  So a recovery notice for a node that
    is present leaves the quorum as it was, lengthens the chain by a
    duplicate and counts one more active node. *)
Theorem dispatcher_recovery_diverges (id : Z) (h : HybridProtocol) :
  let h' := HybridMore.handle_node_recovery id h in
  Chain.chain_order_ (chain_protocol_ h')
  = Chain.chain_order_ (chain_protocol_ h) ++ [id] /\
  Quorum.quorum_nodes_ (quorum_protocol_ h')
  = (if Chain.contains id (Quorum.quorum_nodes_ (quorum_protocol_ h))
     then Quorum.quorum_nodes_ (quorum_protocol_ h)
     else Quorum.quorum_nodes_ (quorum_protocol_ h) ++ [id]) /\
  (Chain.contains id (Quorum.quorum_nodes_ (quorum_protocol_ h)) = true ->
   quorum_protocol_ h' = quorum_protocol_ h) /\
  active_nodes (current_metrics_ h')
  = wrap64 (active_nodes (current_metrics_ h) + 1).
Proof.
  cbn zeta. unfold HybridMore.handle_node_recovery.
  cbn [chain_protocol_ quorum_protocol_ current_metrics_ with_metrics
       with_protocols active_nodes HybridMore.set_active_nodes].
  split; [apply chain_recovery_appends|].
  unfold Quorum.handle_node_recovery, Quorum.is_in_quorum.
  destruct (Chain.contains id (Quorum.quorum_nodes_ (quorum_protocol_ h)));
    cbn; repeat split; congruence.
Qed.

End DispatcherMore.

(** * Further properties of the metrics pipeline *)

Section MetricsMore.

Import Metrics.

Lemma get_latency_ms_nonneg (op : OperationMetrics) : 0 <= get_latency_ms op.
Proof.
  unfold get_latency_ms, wrap64. apply Z.div_pos; [|lia].
  apply Z.mod_pos_bound. lia.
Qed.

Lemma completed_step (pm : PerformanceMonitor) (c : Call) :
  vsize (completed_operations_ pm) <= 10000 ->
  vsize (completed_operations_ (apply_call pm c)) <= 10000.
Proof.
  intros H. destruct c as [now id ty k | now id ok mode nhops]; cbn [apply_call].
  - exact H.
  - unfold end_operation. destruct (active_operations_ pm !! id) as [op|]; [|exact H].
    cbn [completed_operations_].
    set (op1 := mkOperationMetrics _ _ _ _ _ _ _).
    assert (Hlen : vsize (completed_operations_ pm ++ [op1])
                   = vsize (completed_operations_ pm) + 1).
    { unfold vsize. rewrite length_app. cbn. lia. }
    rewrite Hlen.
    destruct (vsize (completed_operations_ pm) + 1 >? 10000) eqn:E.
    + destruct (completed_operations_ pm) as [|x l]; [unfold vsize in *; cbn in *; lia|].
      cbn [app tl]. unfold vsize in *. rewrite length_app. cbn in *. lia.
    + rewrite Z.gtb_ltb in E. apply Z.ltb_ge in E. lia.
Qed.

Lemma mode_split_new (t0 : Z) : mode_split (new_monitor t0).
Proof. split; cbn; try lia. reflexivity. Qed.

Lemma mode_split_step (pm : PerformanceMonitor) (lost : Z) (c : Call) :
  counted pm lost -> total_operations_ pm + 1 < 2 ^ 64 ->
  mode_split pm -> mode_split (apply_call pm c).
Proof.
  intros [Hs Hf Hl Ht] Hbound [Hc Hq Hh Hcount Hlc Hlq Hlh Hlat Hcomp].
  destruct c as [now id ty k | now id ok mode nhops]; cbn [apply_call].
  - split; cbn; assumption.
  - unfold end_operation.
    destruct (active_operations_ pm !! id) as [op|] eqn:E;
      [|split; assumption].
    assert (Hpos : (0 < size (active_operations_ pm))%nat).
    { destruct (size (active_operations_ pm)) eqn:Es; [|lia].
      apply map_size_empty_inv in Es. rewrite Es, lookup_empty in E.
      discriminate E. }
    set (op1 := mkOperationMetrics _ _ _ _ _ _ _).
    pose proof (get_latency_ms_nonneg op1) as Hlatency.
    assert (Hlen : vsize (completed_operations_ pm ++ [op1])
                   = vsize (completed_operations_ pm) + 1).
    { unfold vsize. rewrite length_app. cbn. lia. }
    assert (Hcompleted :
      vsize (if vsize (completed_operations_ pm ++ [op1]) >? 10000
             then tl (completed_operations_ pm ++ [op1])
             else completed_operations_ pm ++ [op1])
      = Z.min 10000 (successful_operations_ pm + failed_operations_ pm + 1)).
    { rewrite Hlen.
      destruct (vsize (completed_operations_ pm) + 1 >? 10000) eqn:Eg.
      - apply Z.gtb_lt in Eg.
        destruct (completed_operations_ pm) as [|x l]; [unfold vsize in *; cbn in *; lia|].
        cbn [app tl]. unfold vsize in *. rewrite length_app. cbn in *. lia.
      - rewrite Z.gtb_ltb in Eg. apply Z.ltb_ge in Eg. lia. }
    split;
      cbn [chain_operations_ quorum_operations_ hybrid_operations_
           successful_operations_ failed_operations_ chain_latency_ quorum_latency_
           hybrid_latency_ cumulative_latency_ completed_operations_];
      try (destruct mode; try rewrite wrap64_small by lia; lia).
    + destruct mode, ok; rewrite !wrap64_small by lia; lia.
    + rewrite Hcompleted. destruct ok; rewrite wrap64_small by lia; f_equal; lia.
Qed.

Lemma mode_split_calls (cs : list Call) :
  forall pm lost,
    counted pm lost -> mode_split pm ->
    total_operations_ pm + Z.of_nat (length cs) < 2 ^ 64 ->
    mode_split (fold_left apply_call cs pm).
Proof.
  induction cs as [|c cs IH]; intros pm lost Hc Hm Hb; [exact Hm|].
  cbn [fold_left]. cbn [length] in Hb.
  assert (H0 : 0 <= total_operations_ pm).
  { destruct Hc as [Hs Hf Hl Ht]. lia. }
  pose proof (total_step pm c H0 ltac:(lia)) as Hstep.
  apply (IH (apply_call pm c) (lost + reused_ids pm [c])).
  - apply counted_step; [exact Hc | lia].
  - apply (mode_split_step pm lost); [exact Hc | lia | exact Hm].
  - lia.
Qed.

(** X26: the list of completed operations is bounded: after any sequence
    of start_operation and end_operation calls on a fresh monitor it holds
    at most 10000 entries, and, for fewer than 2^64 calls, exactly
    min(10000, successful + failed) entries: every end of an active
    operation adds one entry and beyond 10000 the oldest is dropped. *)
Theorem completed_operations_bounded (t0 : Z) (cs : list Call) :
  vsize (completed_operations_ (after_calls t0 cs)) <= 10000 /\
  (Z.of_nat (length cs) < 2 ^ 64 ->
   vsize (completed_operations_ (after_calls t0 cs))
   = Z.min 10000 (successful_operations_ (after_calls t0 cs)
                  + failed_operations_ (after_calls t0 cs))).
Proof.
  split.
  - unfold after_calls.
    assert (H : forall pm, vsize (completed_operations_ pm) <= 10000 ->
                           vsize (completed_operations_ (fold_left apply_call cs pm)) <= 10000).
    { induction cs as [|c cs IH]; intros pm Hpm; [exact Hpm|].
      cbn [fold_left]. apply IH, completed_step, Hpm. }
    apply H. unfold vsize. cbn. lia.
  - intros Hlen.
    apply (mode_split_calls cs (new_monitor t0) 0 (counted_new t0) (mode_split_new t0)).
    cbn. lia.
Qed.



(** X28: an operation is counted at its first end only: end_operation for
    an id that is not active (never started, or already ended) changes
    nothing, so ending an operation a second time, with whatever outcome,
    leaves the monitor as the first end left it. *)
Theorem end_operation_counts_once
    (now now' id : Z) (ok ok' : bool) (mode mode' : Msg.ReplicationMode)
    (nhops nhops' : Z) (pm : PerformanceMonitor) :
  end_operation now' id ok' mode' nhops' (end_operation now id ok mode nhops pm)
  = end_operation now id ok mode nhops pm /\
  (active_operations_ pm !! id = None ->
   end_operation now id ok mode nhops pm = pm).
Proof.
  assert (Hnoop : forall pm1 t b m hp,
            active_operations_ pm1 !! id = None -> end_operation t id b m hp pm1 = pm1).
  { intros pm1 t b m hp E. unfold end_operation. rewrite E. reflexivity. }
  split; [|apply Hnoop].
  apply Hnoop. unfold end_operation.
  destruct (active_operations_ pm !! id) as [op|] eqn:E.
  - cbn [active_operations_]. apply lookup_delete_eq.
  - exact E.
Qed.

End MetricsMore.

(** * The quorum coordinator: what commits a proposal *)

Section CommitRule.

Import Quorum.

(** Accepted messages for [pn] are all that a run consists of. *)
Lemma run_accepted_only (pn : Z) (n : NodeM.Node) (evs : list Event) :
  forall q p,
    active_proposals_ q !! pn = Some p ->
    Forall (fun e => exists m, e = EvAccepted m /\ Msg.sequence_number m = pn) evs ->
    exists q' p',
      run evs (q, n) = (q', n) /\
      quorum_nodes_ q' = quorum_nodes_ q /\
      active_proposals_ q' !! pn = Some p' /\
      accepted_nodes p' = accepted_senders pn evs ∪ accepted_nodes p /\
      (has_accept_majority p' (vsize (quorum_nodes_ q)) = true ->
       evs <> [] \/ phase p = COMMIT -> phase p' = COMMIT).
Proof.
  induction evs as [|e evs IH]; intros q p Hp Hall.
  - exists q, p. split; [reflexivity|]. split; [reflexivity|]. split; [exact Hp|].
    split; [cbn; set_solver|]. intros _ [H|H]; [contradiction | exact H].
  - inversion Hall as [|e' evs' [m [-> Hseq]] Hrest]; subst.
    cbn [run fold_left step]. fold (run evs (handle_accepted m q n)).
    unfold handle_accepted. rewrite Hp.
    set (p1 := mkQuorumState (proposal_number p) (phase p) (key p) (value p)
                 (promised_nodes p) ({[Msg.sender_id m]} ∪ accepted_nodes p)
                 (start_time p)).
    set (p2 := if has_accept_majority p1 (vsize (quorum_nodes_ q)) then _ else p1).
    set (q1 := set_active_proposals _ q).
    assert (Hp2 : accepted_nodes p2 = {[Msg.sender_id m]} ∪ accepted_nodes p /\
                  (has_accept_majority p2 (vsize (quorum_nodes_ q)) = true ->
                   phase p2 = COMMIT)).
    { subst p2. destruct (has_accept_majority p1 (vsize (quorum_nodes_ q))) eqn:E.
      - split; [reflexivity|]. intros _. reflexivity.
      - split; [reflexivity|]. intros H. congruence. }
    destruct Hp2 as [Hacc2 Hph2].
    destruct (IH q1 p2) as [q' [p' [Hrun [Hnodes [Hp' [Hacc Hph]]]]]];
      [apply lookup_insert_eq | exact Hrest |].
    exists q', p'. split; [exact Hrun|]. split; [exact Hnodes|]. split; [exact Hp'|].
    split.
    + rewrite Hacc, Hacc2. cbn [accepted_senders]. rewrite Z.eqb_refl. set_solver.
    + intros Hmaj _. apply Hph; [exact Hmaj|].
      destruct evs as [|e2 evs2]; [right | left; discriminate].
      cbn in Hrun. inversion Hrun; subst q'.
      subst q1. cbn [active_proposals_ set_active_proposals] in Hp'.
      rewrite lookup_insert_eq in Hp'. inversion Hp'; subst p'.
      apply Hph2. exact Hmaj.
Qed.

(** X29: accepted messages alone commit a write: on a quorum of more than
    one member (or none), when the calls before the first poll are
    accepted messages carrying the proposal's number from at least
    floor(N/2)+1 distinct senders, process_write returns true at that
    poll, the value is in the local store and the success is counted,
    although no promise was received and the proposal never left its
    prepare phase before. *)
Theorem accepted_majority_commits_without_promises
    (now : Z) (sch : Schedule) (request response : Msg.Message)
    (q : QuorumReplication) (n : NodeM.Node) (evs : list Event)
    (rest : list (list Event)) :
  vsize (quorum_nodes_ q) <> 1 ->
  rounds sch = evs :: rest ->
  Forall (fun e => exists m, e = EvAccepted m
                             /\ Msg.sequence_number m = next_proposal_number_ q) evs ->
  vsize (quorum_nodes_ q) / 2 + 1
  <= Z.of_nat (size (accepted_senders (next_proposal_number_ q) evs)) ->
  let '(ok, r, q', n') := process_write now sch request response q n in
  ok = true /\ Msg.success r = true /\
  NodeM.data_store_ n'
  = <[Msg.key request := Msg.value request]> (NodeM.data_store_ n) /\
  successful_consensus_ q' = wrap64 (successful_consensus_ q + 1) /\
  active_proposals_ q' !! next_proposal_number_ q = None.
Proof.
  intros HN Hrounds Hall Hmaj. apply Z.eqb_neq in HN.
  unfold process_write. rewrite HN.
  unfold initiate_consensus, generate_proposal_number, send_prepare_messages.
  cbn [negb]. rewrite Hrounds.
  set (pn := next_proposal_number_ q) in *.
  set (q2 := set_active_proposals _ _).
  rewrite send_to_others_spec.
  set (n1 := NodeM.mkNode _ _ _ _ _).
  cbn [write_poll].
  destruct (run_accepted_only pn n1 evs q2
              (mkQuorumState pn PREPARE (Msg.key request) (Msg.value request) ∅ ∅ now))
    as [q' [p' [Hrun [Hnodes [Hp' [Hacc Hph]]]]]];
    [apply lookup_insert_eq | exact Hall |].
  rewrite Hrun, Hp'.
  assert (Hm : has_accept_majority p' (vsize (quorum_nodes_ q')) = true).
  { apply has_accept_majority_spec. rewrite Hnodes, Hacc.
    cbn [accepted_nodes quorum_nodes_ q2 set_active_proposals set_next_proposal_number].
    replace (accepted_senders pn evs ∪ ∅) with (accepted_senders pn evs) by set_solver.
    exact Hmaj. }
  assert (Hc : phase p' = COMMIT).
  { apply Hph; [rewrite <- Hnodes; exact Hm|]. left.
    intros ->. cbn in Hmaj. rewrite size_empty in Hmaj.
    assert (0 <= vsize (quorum_nodes_ q) / 2)
      by (apply Z.div_pos; [apply vsize_nonneg | lia]).
    lia. }
  rewrite Hm, Hc. cbn [phase_eqb andb].
  pose proof (run_counters evs q2 n1) as Hcount. rewrite Hrun in Hcount.
  unfold consensus_counters in Hcount. cbn [fst] in Hcount.
  injection Hcount as _ Hok _.
  cbn. rewrite Hok. repeat split. apply lookup_delete_eq.
Qed.

Lemma accepted_majority_commits_without_promises_witness :
  let '(ok, r, q', n') :=
    process_write 0
      (mkSchedule [[EvAccepted (accepted_from 2 1); EvAccepted (accepted_from 3 1)]] [] 9)
      (write_request "t" "x") Msg.new_message three_member_quorum (NodeM.new_node 1) in
  ok = true /\ Msg.success r = true /\
  NodeM.data_store_ n'
  = <[Msg.key (write_request "t" "x") := Msg.value (write_request "t" "x")]>
      (NodeM.data_store_ (NodeM.new_node 1)) /\
  successful_consensus_ q' = wrap64 (successful_consensus_ three_member_quorum + 1) /\
  active_proposals_ q' !! next_proposal_number_ three_member_quorum = None.
Proof.
  apply (accepted_majority_commits_without_promises 0
           (mkSchedule [[EvAccepted (accepted_from 2 1); EvAccepted (accepted_from 3 1)]]
                       [] 9)
           (write_request "t" "x") Msg.new_message three_member_quorum (NodeM.new_node 1)
           [EvAccepted (accepted_from 2 1); EvAccepted (accepted_from 3 1)] []).
  - vm_compute. intros H. discriminate H.
  - reflexivity.
  - repeat match goal with
           | |- Forall _ _ => constructor
           end; eexists; split; reflexivity.
  - vm_compute. intros H. discriminate H.
Defined.

(** X30: a promise that finds (or completes) a majority of promises
    always starts the accept phase again: whatever the phase of the
    proposal was, handle_promise sets it to ACCEPT and queues one
    QUORUM_ACCEPT with the proposal's key and value for every member other
    than the node.  In particular a proposal that is already committed
    with a majority of accepts, which the next poll of the write loop
    would report as a success, is no longer reported by that poll when
    such a promise arrives first. *)
Theorem late_promise_restarts_accept_phase
    (now : Z) (m : Msg.Message) (q : QuorumReplication) (n : NodeM.Node)
    (p : QuorumState) (k v : string) :
  active_proposals_ q !! Msg.sequence_number m = Some p ->
  vsize (quorum_nodes_ q) / 2 + 1
  <= Z.of_nat (size ({[Msg.sender_id m]} ∪ promised_nodes p)) ->
  (exists p' accept_msg,
     active_proposals_ (fst (handle_promise now m q n)) !! Msg.sequence_number m
     = Some p' /\
     phase p' = ACCEPT /\
     promised_nodes p' = {[Msg.sender_id m]} ∪ promised_nodes p /\
     accepted_nodes p' = accepted_nodes p /\
     NodeM.outbox (snd (handle_promise now m q n))
     = NodeM.outbox n
       ++ map (fun t => (t, accept_msg))
            (List.filter (fun t => negb (t =? NodeM.node_id_ n)) (quorum_nodes_ q)) /\
     Msg.type accept_msg = Msg.QUORUM_ACCEPT /\
     Msg.key accept_msg = key p /\ Msg.value accept_msg = value p /\
     Msg.sequence_number accept_msg = wrap32 (proposal_number p)) /\
  (phase p = COMMIT ->
   has_accept_majority p (vsize (quorum_nodes_ q)) = true ->
   fst (fst (write_poll [[]] (Msg.sequence_number m) k v (q, n))) = true /\
   fst (fst (write_poll [[EvPromise now m]] (Msg.sequence_number m) k v (q, n))) = false).
Proof.
  intros Hp Hmaj.
  assert (Hm : has_majority
                 (mkQuorumState (proposal_number p) (phase p) (key p) (value p)
                    ({[Msg.sender_id m]} ∪ promised_nodes p) (accepted_nodes p)
                    (start_time p))
                 (vsize (quorum_nodes_ q)) = true).
  { apply has_majority_spec. exact Hmaj. }
  split.
  - unfold handle_promise. rewrite Hp, Hm.
    cbn [fst snd proposal_number phase key value promised_nodes accepted_nodes
         start_time].
    unfold send_accept_messages. cbn [snd]. rewrite send_to_others_spec.
    cbn [NodeM.outbox quorum_nodes_ set_active_proposals active_proposals_].
    rewrite lookup_insert_eq.
    eexists. eexists. split; [reflexivity|].
    repeat split.
  - intros Hc Hacc. split.
    + cbn [write_poll run fold_left]. rewrite Hp, Hc, Hacc. reflexivity.
    + cbn [write_poll run fold_left step]. unfold handle_promise. rewrite Hp, Hm.
      cbn [active_proposals_ set_active_proposals]. rewrite lookup_insert_eq.
      reflexivity.
Qed.

Lemma late_promise_restarts_accept_phase_witness :
  let q := set_active_proposals
             {[1 := mkQuorumState 1 COMMIT "t" "x" {[2]} {[2; 3]} 0]}
             three_member_quorum in
  let n := NodeM.new_node 1 in
  let m := promise_from 3 1 in
  let p := mkQuorumState 1 COMMIT "t" "x" {[2]} {[2; 3]} 0 in
  (exists p' accept_msg,
     active_proposals_ (fst (handle_promise 5 m q n)) !! Msg.sequence_number m
     = Some p' /\
     phase p' = ACCEPT /\
     promised_nodes p' = {[Msg.sender_id m]} ∪ promised_nodes p /\
     accepted_nodes p' = accepted_nodes p /\
     NodeM.outbox (snd (handle_promise 5 m q n))
     = NodeM.outbox n
       ++ map (fun t => (t, accept_msg))
            (List.filter (fun t => negb (t =? NodeM.node_id_ n)) (quorum_nodes_ q)) /\
     Msg.type accept_msg = Msg.QUORUM_ACCEPT /\
     Msg.key accept_msg = key p /\ Msg.value accept_msg = value p /\
     Msg.sequence_number accept_msg = wrap32 (proposal_number p)) /\
  (phase p = COMMIT ->
   has_accept_majority p (vsize (quorum_nodes_ q)) = true ->
   fst (fst (write_poll [[]] (Msg.sequence_number m) "t" "x" (q, n))) = true /\
   fst (fst (write_poll [[EvPromise 5 m]] (Msg.sequence_number m) "t" "x" (q, n)))
   = false).
Proof.
  apply (late_promise_restarts_accept_phase 5 (promise_from 3 1)
           (set_active_proposals
              {[1 := mkQuorumState 1 COMMIT "t" "x" {[2]} {[2; 3]} 0]}
              three_member_quorum)
           (NodeM.new_node 1)
           (mkQuorumState 1 COMMIT "t" "x" {[2]} {[2; 3]} 0) "t" "x").
  - apply lookup_singleton_eq.
  - vm_compute. intros H. discriminate H.
Defined.

End CommitRule.
